(** * hvac-db: device heartbeat reconciliation and the TimescaleDB schema

    A shallow embedding of

    - [src/lambda_function.py]: [lambda_handler], the heartbeat handler that
      upserts rows of [device_state];
    - [src/alembic/versions/002_init_hvac_timescale.py]: the tables, their
      keys, checks and foreign keys, and the views [v_point_latest] and
      [v_devices_stale];
    - [src/test_local.py]: the stale-devices listing query of
      [query_device_state].

    Tables are finite maps from their primary key to the remaining columns.
    Timestamps ([TIMESTAMP WITH TIME ZONE]) are integers counting
    microseconds, the resolution of the column type.  A nullable column is an
    [option].  Floating point columns are only ever stored and read back, so
    their values are carried as rationals and never computed with. *)

From Stdlib Require QArith.
From Stdlib Require Import ZArith String.
From Stdlib Require OrderedTypeEx.
From stdpp Require Import gmap strings list fin_maps sorting.

Set Warnings "-clear-no-such-hyp".

Local Open Scope string_scope.
Local Open Scope Z_scope.

(** ** Column types *)

Definition float : Type := QArith_base.Q.
Definition timestamptz : Type := Z.

(** [sa.Integer()] is a 32-bit signed column. *)
Definition int4_in_range (z : Z) : bool :=
  (- 2 ^ 31 <=? z) && (z <? 2 ^ 31).

(** ** Tables (002_init_hvac_timescale.py, upgrade) *)

(** [sites], keyed by [site_id]. *)
Record site_row := {
  site_display_name : string;
  site_tz : string;
  site_created_at : timestamptz
}.

(** [devices], keyed by [device_id]. *)
Record device_row := {
  dev_site_id : string;
  dev_model : option string;
  dev_created_at : timestamptz
}.

(** [points], keyed by [point_id]. *)
Record point_row := {
  pt_site_id : string;
  pt_device_id : option string;
  pt_point_name : string;
  pt_point_type : string;
  pt_unit : option string;
  pt_tags : string;
  pt_active : bool;
  pt_created_at : timestamptz
}.

(** [measurements]: PrimaryKeyConstraint("site_id", "point_id", "ts_utc"). *)
Definition measurement_key : Type := string * string * timestamptz.

Definition mk_site_id (k : measurement_key) : string := k.1.1.
Definition mk_point_id (k : measurement_key) : string := k.1.2.
Definition mk_ts_utc (k : measurement_key) : timestamptz := k.2.

Record measurement_row := {
  m_point_name : option string;
  m_unit : option string;
  m_value : option float;
  m_quality : option Z;
  m_schema_version : Z;
  m_meta_hash : option string
}.

(** [device_state], keyed by [device_id]. *)
Record device_state_row := {
  ds_site_id : string;
  ds_last_seen_ts : timestamptz;
  ds_last_upload_ts : option timestamptz;
  ds_queue_depth : option Z;
  ds_agent_version : option string;
  ds_poll_interval_s : option Z;
  ds_cpu_pct : option float;
  ds_disk_free_gb : option float;
  ds_status : option string;
  ds_updated_at : timestamptz
}.

Record database := {
  sites : gmap string site_row;
  devices : gmap string device_row;
  points : gmap string point_row;
  measurements : gmap measurement_key measurement_row;
  device_state : gmap string device_state_row
}.

Definition with_device_state (t : gmap string device_state_row)
    (db : database) : database :=
  {| sites := sites db; devices := devices db; points := points db;
     measurements := measurements db; device_state := t |}.

Definition with_measurements (t : gmap measurement_key measurement_row)
    (db : database) : database :=
  {| sites := sites db; devices := devices db; points := points db;
     measurements := t; device_state := device_state db |}.

(** ** Errors raised by the database driver *)

Inductive psycopg2_Error :=
| OperationalError
| NumericValueOutOfRange (column : string)
| CheckViolation (column : string)
| ForeignKeyViolation (column : string).

(** Exceptions that reach the two [except] clauses of [lambda_handler]. *)
Inductive exception :=
| KeyError (key : string)
| Psycopg2 (e : psycopg2_Error).

(** ** The event of lambda_handler *)

(** One device record; [d.get('k')] is the field, [None] when the key is
    absent (or null). *)
Record heartbeat := {
  hb_device_id : option string;
  hb_site_id : option string;
  hb_status : option string;
  hb_agent_version : option string;
  hb_cpu_pct : option float;
  hb_disk_free_gb : option float;
  hb_queue_depth : option Z;
  hb_poll_interval_s : option Z;
  hb_last_upload_ts : option timestamptz
}.

(** The event: its own top-level fields read as a device record, and the
    value of the 'devices' key when the event has one.  Only events of the
    two documented shapes are represented: a 'devices' value is a list of
    records.  Any other value (null, a number, a list holding something
    that is not an object) makes the loop raise into [except Exception];
    no statement below speaks about such events. *)
Record event := {
  ev_devices : option (list heartbeat);
  ev_record : heartbeat
}.

(** Python truth value of the result of [.get] on an identifier. *)
Definition truthy (v : option string) : bool :=
  match v with
  | Some s => negb (String.eqb s "")
  | None => false
  end.

(** ** The upsert statement (lambda_function.py, lines 94-119) *)

(** CheckConstraint("status IN ('ready','degraded','error')"); a NULL passes. *)
Definition status_check (status : option string) : bool :=
  match status with
  | None => true
  | Some s => String.eqb s "ready" || String.eqb s "degraded" || String.eqb s "error"
  end.

Definition int4_check (v : option Z) : bool :=
  match v with
  | None => true
  | Some z => int4_in_range z
  end.

Definition COALESCE {A : Type} (x y : option A) : option A :=
  match x with
  | Some _ => x
  | None => y
  end.

(** The row proposed for insertion, [EXCLUDED] in the conflict clause. *)
Definition excluded_row (now : timestamptz) (site_id : string)
    (d : heartbeat) : device_state_row :=
  {| ds_site_id := site_id;
     ds_last_seen_ts := now;
     ds_last_upload_ts := hb_last_upload_ts d;
     ds_queue_depth := hb_queue_depth d;
     ds_agent_version := hb_agent_version d;
     ds_poll_interval_s := hb_poll_interval_s d;
     ds_cpu_pct := hb_cpu_pct d;
     ds_disk_free_gb := hb_disk_free_gb d;
     ds_status := hb_status d;
     ds_updated_at := now |}.

(** [ON CONFLICT (device_id) DO UPDATE SET ...]; [site_id] is not in the
    SET list and keeps its stored value. *)
Definition do_update_set (now : timestamptz)
    (EXCLUDED stored : device_state_row) : device_state_row :=
  {| ds_site_id := ds_site_id stored;
     ds_last_seen_ts := now;
     ds_last_upload_ts := COALESCE (ds_last_upload_ts EXCLUDED) (ds_last_upload_ts stored);
     ds_queue_depth := COALESCE (ds_queue_depth EXCLUDED) (ds_queue_depth stored);
     ds_agent_version := COALESCE (ds_agent_version EXCLUDED) (ds_agent_version stored);
     ds_poll_interval_s := COALESCE (ds_poll_interval_s EXCLUDED) (ds_poll_interval_s stored);
     ds_cpu_pct := COALESCE (ds_cpu_pct EXCLUDED) (ds_cpu_pct stored);
     ds_disk_free_gb := COALESCE (ds_disk_free_gb EXCLUDED) (ds_disk_free_gb stored);
     ds_status := COALESCE (ds_status EXCLUDED) (ds_status stored);
     ds_updated_at := now |}.

(** [cursor.execute(upsert_sql, ...)] inside the open transaction [tx].
    The proposed row is converted to the column types and checked against
    the CHECK constraint first; a conflicting row is then updated in place,
    and a new row is inserted subject to the two foreign keys of
    [device_state]. *)
Definition upsert_sql (now : timestamptz) (device_id site_id : string)
    (d : heartbeat) (tx : database) : psycopg2_Error + database :=
  if negb (int4_check (hb_queue_depth d)) then
    inl (NumericValueOutOfRange "queue_depth")
  else if negb (int4_check (hb_poll_interval_s d)) then
    inl (NumericValueOutOfRange "poll_interval_s")
  else if negb (status_check (hb_status d)) then
    inl (CheckViolation "status")
  else
    match device_state tx !! device_id with
    | Some stored =>
        inr (with_device_state
               (<[device_id := do_update_set now (excluded_row now site_id d) stored]>
                  (device_state tx)) tx)
    | None =>
        match devices tx !! device_id, sites tx !! site_id with
        | None, _ => inl (ForeignKeyViolation "device_id")
        | Some _, None => inl (ForeignKeyViolation "site_id")
        | Some _, Some _ =>
            inr (with_device_state
                   (<[device_id := excluded_row now site_id d]> (device_state tx)) tx)
        end
    end.

(** ** lambda_handler (lambda_function.py, lines 11-155) *)

(** [os.environ], restricted to the five variables the handler reads. *)
Record environ := {
  DB_HOST : option string;
  DB_PORT : option string;
  DB_NAME : option string;
  DB_USER : option string;
  DB_PASSWORD : option string
}.

Record connect_args := {
  host : string;
  port : string;
  dbname : string;
  user : string;
  password : string
}.

(** What one invocation runs against: the process environment, the server
    (which connections it accepts, its committed state, the value of [NOW()]
    in the invocation's transaction) and the handler's own clock. *)
Record world := {
  w_environ : environ;
  w_accepts : connect_args -> bool;
  w_db : database;
  w_now : timestamptz;
  w_utcnow : timestamptz
}.

Inductive log_record :=
| warning_skipping (device_data : heartbeat)
| info_updated (device_id : string)
| error_database (e : psycopg2_Error)
| error_updating (e : exception).

Inductive body :=
| body_error (error : string) (message : option exception)
| body_updated (count : nat) (updated_devices : list string) (timestamp : timestamptz).

Record response := {
  statusCode : Z;
  resp_body : body
}.

(** What an invocation leaves behind: the value returned, the committed
    state of the server and the records logged, oldest first. *)
Record outcome := {
  returned : response;
  committed : database;
  logged : list log_record
}.

(** [os.environ['K']] raises KeyError, [os.environ.get('DB_PORT', '5432')]
    does not (lines 38-42). *)
Definition read_environ (env : environ) : exception + connect_args :=
  match DB_HOST env with
  | None => inl (KeyError "DB_HOST")
  | Some db_host =>
      let db_port := default "5432" (DB_PORT env) in
      match DB_NAME env with
      | None => inl (KeyError "DB_NAME")
      | Some db_name =>
          match DB_USER env with
          | None => inl (KeyError "DB_USER")
          | Some db_user =>
              match DB_PASSWORD env with
              | None => inl (KeyError "DB_PASSWORD")
              | Some db_password =>
                  inr {| host := db_host; port := db_port; dbname := db_name;
                         user := db_user; password := db_password |}
              end
          end
      end
  end.

Definition validation_error : response :=
  {| statusCode := 400;
     resp_body := body_error "device_id and site_id are required" None |}.

(** Lines 47-63: the list of records to process, or the early return. *)
Definition devices_to_update (ev : event) : response + list heartbeat :=
  match ev_devices ev with
  | Some ds => inr ds
  | None =>
      if negb (truthy (hb_device_id (ev_record ev)))
         || negb (truthy (hb_site_id (ev_record ev)))
      then inl validation_error
      else inr [ev_record ev]
  end.

(** State of the loop of lines 76-122: the open transaction, the list
    [updated_devices] and the records logged so far. *)
Record cursor_state := {
  tx : database;
  updated : list string;
  cur_log : list log_record
}.

(** Line 82-83: log a warning and [continue]. *)
Definition skip (device_data : heartbeat) (st : cursor_state) : cursor_state :=
  {| tx := tx st; updated := updated st;
     cur_log := cur_log st ++ [warning_skipping device_data] |}.

(** The [for device_data in devices_to_update] loop.  A raising
    [cursor.execute] leaves the loop with the error and the log so far. *)
Fixpoint for_device_data (now : timestamptz) (ds : list heartbeat)
    (st : cursor_state) : (psycopg2_Error * list log_record) + cursor_state :=
  match ds with
  | [] => inr st
  | device_data :: rest =>
      if negb (truthy (hb_device_id device_data))
         || negb (truthy (hb_site_id device_data))
      then for_device_data now rest (skip device_data st)
      else
        match hb_device_id device_data, hb_site_id device_data with
        | Some device_id, Some site_id =>
            match upsert_sql now device_id site_id device_data (tx st) with
            | inl e => inl (e, cur_log st)
            | inr tx' =>
                for_device_data now rest
                  {| tx := tx';
                     updated := updated st ++ [device_id];
                     cur_log := cur_log st ++ [info_updated device_id] |}
            end
        | _, _ =>
            (* not reached: a truthy identifier is a string *)
            for_device_data now rest (skip device_data st)
        end
  end.

Definition database_error (e : psycopg2_Error) : response :=
  {| statusCode := 500;
     resp_body := body_error "Database error" (Some (Psycopg2 e)) |}.

Definition internal_server_error (e : exception) : response :=
  {| statusCode := 500;
     resp_body := body_error "Internal server error" (Some e) |}.

Definition heartbeat_updated (updated_devices : list string)
    (utcnow : timestamptz) : response :=
  {| statusCode := 200;
     resp_body := body_updated (length updated_devices) updated_devices utcnow |}.

(** The handler.  Only [conn.commit()] (line 124) changes the committed
    state; every other exit leaves the transaction uncommitted. *)
Definition lambda_handler (w : world) (ev : event) : outcome :=
  match read_environ (w_environ w) with
  | inl e =>
      {| returned := internal_server_error e; committed := w_db w;
         logged := [error_updating e] |}
  | inr args =>
      match devices_to_update ev with
      | inl early => {| returned := early; committed := w_db w; logged := [] |}
      | inr ds =>
          if w_accepts w args then
            match for_device_data (w_now w) ds
                    {| tx := w_db w; updated := []; cur_log := [] |} with
            | inl (e, log) =>
                {| returned := database_error e; committed := w_db w;
                   logged := log ++ [error_database e] |}
            | inr st =>
                {| returned := heartbeat_updated (updated st) (w_utcnow w);
                   committed := tx st; logged := cur_log st |}
            end
          else
            {| returned := database_error OperationalError; committed := w_db w;
               logged := [error_database OperationalError] |}
      end
  end.

(** ** Views (002_init_hvac_timescale.py, lines 124-151) *)

(** *** v_devices_stale *)

Record stale_row := {
  sr_device_id : string;
  sr_site_id : string;
  sr_last_seen_ts : timestamptz;
  sr_age : Z
}.

(** [interval '120 seconds'], in microseconds. *)
Definition interval_120_seconds : Z := 120 * 1000000.

(** [SELECT device_id, site_id, last_seen_ts, now() - last_seen_ts AS age
     FROM device_state WHERE now() - last_seen_ts > interval '120 seconds'].
    The view has no ORDER BY; its rows come in the order of the scan. *)
Definition v_devices_stale (now : timestamptz) (db : database) : list stale_row :=
  omap (fun kv : string * device_state_row =>
          if interval_120_seconds <? now - ds_last_seen_ts kv.2 then
            Some {| sr_device_id := kv.1;
                    sr_site_id := ds_site_id kv.2;
                    sr_last_seen_ts := ds_last_seen_ts kv.2;
                    sr_age := now - ds_last_seen_ts kv.2 |}
          else None)
       (map_to_list (device_state db)).

(** [ORDER BY age DESC]. *)
Definition age_desc (a b : stale_row) : Prop := sr_age b <= sr_age a.

#[global] Instance age_desc_dec : RelDecision age_desc.
Proof. intros a b. unfold age_desc. apply _. Defined.

(** The stale-devices listing of test_local.py (query_device_state, lines
    98-104): [SELECT device_id, site_id, last_seen_ts,
    now() - last_seen_ts AS age FROM v_devices_stale ORDER BY age DESC]. *)
Definition stale_devices_listing (now : timestamptz) (db : database) : list stale_row :=
  merge_sort age_desc
    ((fun r => {| sr_device_id := sr_device_id r;
                  sr_site_id := sr_site_id r;
                  sr_last_seen_ts := sr_last_seen_ts r;
                  sr_age := now - sr_last_seen_ts r |})
       <$> v_devices_stale now db).

(** *** v_point_latest *)

Record point_latest_row := {
  pl_point_id : string;
  pl_site_id : string;
  pl_point_name : option string;
  pl_unit : option string;
  pl_last_ts_utc : timestamptz;
  pl_value : option float;
  pl_quality : option Z
}.

Definition measurement : Type := measurement_key * measurement_row.

(** The select list of the view. *)
Definition point_latest_of (m : measurement) : point_latest_row :=
  {| pl_point_id := mk_point_id m.1;
     pl_site_id := mk_site_id m.1;
     pl_point_name := m_point_name m.2;
     pl_unit := m_unit m.2;
     pl_last_ts_utc := mk_ts_utc m.1;
     pl_value := m_value m.2;
     pl_quality := m_quality m.2 |}.

Definition text_lt (a b : string) : Prop := String.compare a b = Lt.

(** [ORDER BY m.point_id, m.ts_utc DESC]: when row [a] may come before
    row [b].  Nothing orders two rows of one point with one timestamp. *)
Definition point_id_ts_desc (a b : measurement) : Prop :=
  text_lt (mk_point_id a.1) (mk_point_id b.1)
  \/ (mk_point_id a.1 = mk_point_id b.1 /\ mk_ts_utc b.1 <= mk_ts_utc a.1).

#[global] Instance point_id_ts_desc_dec : RelDecision point_id_ts_desc.
Proof.
  intros a b. unfold point_id_ts_desc, text_lt.
  destruct (String.compare (mk_point_id a.1) (mk_point_id b.1)) eqn:Hcmp.
  - destruct (decide (mk_point_id a.1 = mk_point_id b.1 /\ mk_ts_utc b.1 <= mk_ts_utc a.1))
      as [Hyes | Hno]; [left; right; exact Hyes | right].
    intros [Hlt | Hsame]; [discriminate | contradiction].
  - left. left. reflexivity.
  - destruct (decide (mk_point_id a.1 = mk_point_id b.1 /\ mk_ts_utc b.1 <= mk_ts_utc a.1))
      as [Hyes | Hno]; [left; right; exact Hyes | right].
    intros [Hlt | Hsame]; [discriminate | contradiction].
Defined.

(** [DISTINCT ON (m.point_id)] over the ordered rows: a row is kept when its
    point_id differs from that of the row before it. *)
Fixpoint distinct_on_point_id (prev : option string) (rows : list measurement)
    : list measurement :=
  match rows with
  | [] => []
  | m :: rest =>
      if bool_decide (prev = Some (mk_point_id m.1))
      then distinct_on_point_id prev rest
      else m :: distinct_on_point_id (Some (mk_point_id m.1)) rest
  end.

(** One evaluation of the view's query: the rows of [measurements] in some
    order the ORDER BY clause allows, reduced by DISTINCT ON. *)
Definition v_point_latest (db : database) (result : list point_latest_row) : Prop :=
  exists ordered : list measurement,
    ordered ≡ₚ map_to_list (measurements db)
    /\ StronglySorted point_id_ts_desc ordered
    /\ result = point_latest_of <$> distinct_on_point_id None ordered.

(** ** Foreign keys and DELETE FROM sites *)

Inductive ondelete := CASCADE | NO_ACTION.

(** The [ondelete] of each ForeignKey of the migration. *)
Definition fk_devices_site_id : ondelete := CASCADE.       (* line 42 *)
Definition fk_points_site_id : ondelete := CASCADE.        (* line 53 *)
Definition fk_points_device_id : ondelete := CASCADE.      (* line 54 *)
Definition fk_measurements_site_id : ondelete := CASCADE.  (* line 69 *)
Definition fk_measurements_point_id : ondelete := CASCADE. (* line 70 *)
Definition fk_device_state_device_id : ondelete := CASCADE.  (* line 106 *)
Definition fk_device_state_site_id : ondelete := CASCADE.    (* line 107 *)

(** What a foreign key does to the referencing table when referenced rows
    are deleted: CASCADE deletes the referencing rows, NO ACTION refuses the
    statement if there is one. *)
Definition on_delete `{Countable K} {A : Type} (action : ondelete)
    (references_deleted : K * A -> bool) (child : gmap K A) : option (gmap K A) :=
  match action with
  | CASCADE => Some (filter (fun kv => references_deleted kv = false) child)
  | NO_ACTION =>
      if decide (filter (fun kv => references_deleted kv = true) child = ∅)
      then Some child else None
  end.

(** Whether key [k] is in [before] and no longer in [after]. *)
Definition deleted_from `{Countable K} {A : Type} (before after : gmap K A)
    (k : K) : bool :=
  bool_decide (is_Some (before !! k) /\ after !! k = None).

(** [DELETE FROM sites WHERE site_id = s], with the referential actions
    that follow from it.  [None] when a foreign key refuses the deletion. *)
Definition delete_site (s : string) (db : database) : option database :=
  match sites db !! s with
  | None => Some db
  | Some _ =>
      devices' ← on_delete fk_devices_site_id
                   (fun kv => String.eqb (dev_site_id kv.2) s) (devices db);
      let device_gone := deleted_from (devices db) devices' in
      points0 ← on_delete fk_points_site_id
                  (fun kv => String.eqb (pt_site_id kv.2) s) (points db);
      points' ← on_delete fk_points_device_id
                  (fun kv => from_option device_gone false (pt_device_id kv.2)) points0;
      let point_gone := deleted_from (points db) points' in
      measurements0 ← on_delete fk_measurements_site_id
                        (fun kv => String.eqb (mk_site_id kv.1) s) (measurements db);
      measurements' ← on_delete fk_measurements_point_id
                        (fun kv => point_gone (mk_point_id kv.1)) measurements0;
      device_state0 ← on_delete fk_device_state_device_id
                        (fun kv => device_gone kv.1) (device_state db);
      device_state' ← on_delete fk_device_state_site_id
                        (fun kv => String.eqb (ds_site_id kv.2) s) device_state0;
      Some {| sites := delete s (sites db);
              devices := devices';
              points := points';
              measurements := measurements';
              device_state := device_state' |}
  end.

(** ** Measurement write *)


(** ** Vocabulary of the statements *)

(** A record carries both identifiers: the negation of the test
    [not device_id or not site_id] of lines 55 and 81. *)
Definition well_formed (d : heartbeat) : bool :=
  truthy (hb_device_id d) && truthy (hb_site_id d).

(** The schema accepts the values of the record for their columns. *)
Definition storable (d : heartbeat) : bool :=
  int4_check (hb_queue_depth d) && int4_check (hb_poll_interval_s d)
  && status_check (hb_status d).

(** A present incoming value replaces the stored one, an absent one keeps it. *)
Definition overwrites_or_keeps {A : Type} (incoming stored result : option A) : Prop :=
  (forall v, incoming = Some v -> result = Some v)
  /\ (incoming = None -> result = stored).

(** The device ids of the records of a batch that carry both identifiers. *)
Definition well_formed_ids (ds : list heartbeat) : list string :=
  omap hb_device_id (filter (fun d => well_formed d = true) ds).

(** What the handler uses of the result of the loop, the log apart. *)
Definition loop_effect (r : (psycopg2_Error * list log_record) + cursor_state)
    : psycopg2_Error + (database * list string) :=
  match r with
  | inl (e, _) => inl e
  | inr st => inr (tx st, updated st)
  end.

(** The CHECK constraint as an invariant: no invocation commits a status
    outside the enumeration. *)
Definition statuses_checked (db : database) : Prop :=
  forall device_id row,
    device_state db !! device_id = Some row -> status_check (ds_status row) = true.

(** ** Sample data (test_local.py) *)

Definition test_building : site_row :=
  {| site_display_name := "Test Building"; site_tz := "UTC"; site_created_at := 0 |}.

Definition test_device : device_row :=
  {| dev_site_id := "test-building"; dev_model := Some "test-model";
     dev_created_at := 0 |}.

(** The catalog after [seed_site_and_devices]. *)
Definition seeded : database :=
  {| sites := {[ "test-building" := test_building ]};
     devices := list_to_map [("hvac-test-001", test_device);
                             ("hvac-test-002", test_device);
                             ("hvac-test-003", test_device)];
     points := ∅;
     measurements := ∅;
     device_state := ∅ |}.

Definition no_fields : heartbeat :=
  {| hb_device_id := None; hb_site_id := None; hb_status := None;
     hb_agent_version := None; hb_cpu_pct := None; hb_disk_free_gb := None;
     hb_queue_depth := None; hb_poll_interval_s := None;
     hb_last_upload_ts := None |}.

(** [single_event] of [run_tests]. *)
Definition single_record : heartbeat :=
  {| hb_device_id := Some "hvac-test-001"; hb_site_id := Some "test-building";
     hb_status := Some "ready"; hb_agent_version := Some "1.0.0";
     hb_cpu_pct := Some (QArith_base.Qmake 117 5);
     hb_disk_free_gb := Some (QArith_base.Qmake 991 10);
     hb_queue_depth := None; hb_poll_interval_s := None;
     hb_last_upload_ts := None |}.

Definition single_event : event :=
  {| ev_devices := None; ev_record := single_record |}.

(** A later heartbeat of the same device that reports its status only. *)
Definition degraded_record : heartbeat :=
  {| hb_device_id := Some "hvac-test-001"; hb_site_id := Some "test-building";
     hb_status := Some "degraded"; hb_agent_version := None;
     hb_cpu_pct := None; hb_disk_free_gb := None;
     hb_queue_depth := None; hb_poll_interval_s := None;
     hb_last_upload_ts := None |}.

Definition record_002 : heartbeat :=
  {| hb_device_id := Some "hvac-test-002"; hb_site_id := Some "test-building";
     hb_status := Some "ready"; hb_agent_version := None;
     hb_cpu_pct := Some (QArith_base.Qmake 61 5); hb_disk_free_gb := None;
     hb_queue_depth := None; hb_poll_interval_s := None;
     hb_last_upload_ts := None |}.

Definition record_003 : heartbeat :=
  {| hb_device_id := Some "hvac-test-003"; hb_site_id := Some "test-building";
     hb_status := Some "degraded"; hb_agent_version := None;
     hb_cpu_pct := Some (QArith_base.Qmake 887 10); hb_disk_free_gb := None;
     hb_queue_depth := None; hb_poll_interval_s := None;
     hb_last_upload_ts := None |}.

(** [batch_event] of [run_tests]. *)
Definition batch_event : event :=
  {| ev_devices := Some [record_002; record_003]; ev_record := no_fields |}.

(** A record without a device id, and a batch that holds it next to a
    complete record. *)
Definition no_device_id : heartbeat :=
  {| hb_device_id := None; hb_site_id := Some "test-building";
     hb_status := Some "ready"; hb_agent_version := None;
     hb_cpu_pct := None; hb_disk_free_gb := None;
     hb_queue_depth := None; hb_poll_interval_s := None;
     hb_last_upload_ts := None |}.

Definition partial_batch_event : event :=
  {| ev_devices := Some [record_002; no_device_id]; ev_record := no_fields |}.

(** A batch none of whose records carries both identifiers. *)
Definition malformed_batch_event : event :=
  {| ev_devices := Some [no_device_id; no_fields]; ev_record := no_fields |}.

(** A record whose status is outside the enumeration. *)
Definition offline_record : heartbeat :=
  {| hb_device_id := Some "hvac-test-003"; hb_site_id := Some "test-building";
     hb_status := Some "offline"; hb_agent_version := None;
     hb_cpu_pct := None; hb_disk_free_gb := None;
     hb_queue_depth := None; hb_poll_interval_s := None;
     hb_last_upload_ts := None |}.

Definition offline_event : event :=
  {| ev_devices := None; ev_record := offline_record |}.

(** A batch whose second upsert the database refuses. *)
Definition failing_batch_event : event :=
  {| ev_devices := Some [record_002; offline_record]; ev_record := no_fields |}.

(** A point of the test building and two readings of it with one key. *)
Definition supply_temp : point_row :=
  {| pt_site_id := "test-building"; pt_device_id := Some "hvac-test-001";
     pt_point_name := "supply_temp"; pt_point_type := "analog";
     pt_unit := Some "degC"; pt_tags := "{}"; pt_active := true;
     pt_created_at := 0 |}.

Definition with_point : database :=
  {| sites := sites seeded; devices := devices seeded;
     points := {[ "pt-supply-temp" := supply_temp ]};
     measurements := ∅; device_state := ∅ |}.

Definition reading (value : Z) : measurement_row :=
  {| m_point_name := Some "supply_temp"; m_unit := Some "degC";
     m_value := Some (QArith_base.Qmake value 1); m_quality := Some 0;
     m_schema_version := 1; m_meta_hash := None |}.

Definition reading_key : measurement_key :=
  ("test-building", "pt-supply-temp", 5000000).

(** Two readings of the point at different times. *)
Definition later_key : measurement_key :=
  ("test-building", "pt-supply-temp", 6000000).

Definition two_readings : database :=
  with_measurements {[ reading_key := reading 18; later_key := reading 21 ]}
    with_point.

(** Two readings of the point at one time, recorded under two sites. *)
Definition annex : site_row :=
  {| site_display_name := "Annex"; site_tz := "UTC"; site_created_at := 0 |}.

Definition annex_key : measurement_key :=
  ("annex", "pt-supply-temp", 5000000).

Definition tied_readings : database :=
  {| sites := {[ "test-building" := test_building; "annex" := annex ]};
     devices := devices seeded;
     points := {[ "pt-supply-temp" := supply_temp ]};
     measurements := {[ reading_key := reading 18; annex_key := reading 21 ]};
     device_state := ∅ |}.

(** Two devices seen 121 and 119 seconds before time 200000000. *)
Definition seen_at (ts : timestamptz) : device_state_row :=
  {| ds_site_id := "test-building"; ds_last_seen_ts := ts;
     ds_last_upload_ts := None; ds_queue_depth := None;
     ds_agent_version := None; ds_poll_interval_s := None;
     ds_cpu_pct := None; ds_disk_free_gb := None;
     ds_status := Some "ready"; ds_updated_at := ts |}.

Definition fleet : database :=
  with_device_state {[ "hvac-test-001" := seen_at 79000000;
                       "hvac-test-002" := seen_at 81000000 ]} seeded.

(** [set_env_from_alembic_defaults]. *)
Definition local_environ : environ :=
  {| DB_HOST := Some "localhost"; DB_PORT := Some "55432";
     DB_NAME := Some "hvacdb"; DB_USER := Some "postgres";
     DB_PASSWORD := Some "yourpassword" |}.

Definition local_world (db : database) (now : timestamptz) : world :=
  {| w_environ := local_environ; w_accepts := fun _ => true;
     w_db := db; w_now := now; w_utcnow := now |}.

(** The row of hvac-test-001 after [single_event] at time 1000000. *)
Definition first_row : device_state_row :=
  excluded_row 1000000 "test-building" single_record.

Definition after_single : database :=
  with_device_state {[ "hvac-test-001" := first_row ]} seeded.

(** ** v_site_latest_window (002_init_hvac_timescale.py, lines 134-144) *)

(** [interval '1 day'], in microseconds. *)
Definition interval_1_day : Z := 86400 * 1000000.

(** One row of the aggregation of the subquery [t]:
    [SELECT point_id, max(ts_utc) AS last_ts FROM measurements
     WHERE ts_utc > now() - interval '1 day' GROUP BY point_id]. *)
Definition last_ts_step (now : timestamptz) (m : measurement)
    (t : gmap string timestamptz) : gmap string timestamptz :=
  if now - interval_1_day <? mk_ts_utc m.1 then
    <[mk_point_id m.1 :=
        match t !! mk_point_id m.1 with
        | Some ts => Z.max ts (mk_ts_utc m.1)
        | None => mk_ts_utc m.1
        end]> t
  else t.

Definition last_ts_by_point (now : timestamptz) (rows : list measurement)
    : gmap string timestamptz :=
  foldr (last_ts_step now) ∅ rows.

(** [SELECT m.* FROM measurements m JOIN (...) t
     ON t.point_id = m.point_id AND t.last_ts = m.ts_utc]. *)
Definition v_site_latest_window (now : timestamptz) (db : database)
    : list measurement :=
  let t := last_ts_by_point now (map_to_list (measurements db)) in
  filter (fun m : measurement => t !! mk_point_id m.1 = Some (mk_ts_utc m.1))
    (map_to_list (measurements db)).

(** A measurement of the last day: [ts_utc > now() - interval '1 day']. *)
Definition in_window (now : timestamptz) (m : measurement) : Prop :=
  now - interval_1_day < mk_ts_utc m.1.

(** ** test_local.py *)

(** [os.environ.setdefault(key, value)]. *)
Definition setdefault (current : option string) (value : string) : option string :=
  match current with
  | Some v => Some v
  | None => Some value
  end.

(** [set_env_from_alembic_defaults] (lines 17-23). *)
Definition set_env_from_alembic_defaults (env : environ) : environ :=
  {| DB_HOST := setdefault (DB_HOST env) "localhost";
     DB_PORT := setdefault (DB_PORT env) "55432";
     DB_NAME := setdefault (DB_NAME env) "hvacdb";
     DB_USER := setdefault (DB_USER env) "postgres";
     DB_PASSWORD := setdefault (DB_PASSWORD env) "yourpassword" |}.

(** The arguments of [psycopg2.connect] in test_local.py: every variable is
    read with [os.environ[...]], the port included (lines 28-34, 122-128). *)
Definition environ_args (env : environ) : exception + connect_args :=
  match DB_HOST env with
  | None => inl (KeyError "DB_HOST")
  | Some db_host =>
      match DB_PORT env with
      | None => inl (KeyError "DB_PORT")
      | Some db_port =>
          match DB_NAME env with
          | None => inl (KeyError "DB_NAME")
          | Some db_name =>
              match DB_USER env with
              | None => inl (KeyError "DB_USER")
              | Some db_user =>
                  match DB_PASSWORD env with
                  | None => inl (KeyError "DB_PASSWORD")
                  | Some db_password =>
                      inr {| host := db_host; port := db_port; dbname := db_name;
                             user := db_user; password := db_password |}
                  end
              end
          end
      end
  end.

(** [check_connection] (lines 26-43): any exception gives [False]. *)
Definition check_connection (w : world) : bool :=
  match environ_args (w_environ w) with
  | inl _ => false
  | inr args => w_accepts w args
  end.

Definition with_sites (t : gmap string site_row) (db : database) : database :=
  {| sites := t; devices := devices db; points := points db;
     measurements := measurements db; device_state := device_state db |}.

Definition with_devices (t : gmap string device_row) (db : database) : database :=
  {| sites := sites db; devices := t; points := points db;
     measurements := measurements db; device_state := device_state db |}.

(** [INSERT INTO sites (site_id, display_name) VALUES (%s, %s)
     ON CONFLICT (site_id) DO NOTHING] (lines 131-138); [tz] and [created_at]
    take their server defaults. *)
Definition insert_site (now : timestamptz) (site_id display_name : string)
    (tx : database) : database :=
  match sites tx !! site_id with
  | Some _ => tx
  | None =>
      with_sites (<[site_id := {| site_display_name := display_name;
                                  site_tz := "UTC";
                                  site_created_at := now |}]> (sites tx)) tx
  end.

(** [INSERT INTO devices (device_id, site_id, model) VALUES (%s, %s, %s)
     ON CONFLICT (device_id) DO NOTHING] (lines 142-149); an inserted row is
    subject to the foreign key on [site_id]. *)
Definition insert_device (now : timestamptz) (device_id site_id model : string)
    (tx : database) : psycopg2_Error + database :=
  match devices tx !! device_id with
  | Some _ => inr tx
  | None =>
      match sites tx !! site_id with
      | None => inl (ForeignKeyViolation "site_id")
      | Some _ =>
          inr (with_devices (<[device_id := {| dev_site_id := site_id;
                                               dev_model := Some model;
                                               dev_created_at := now |}]>
                               (devices tx)) tx)
      end
  end.

(** The loop of lines 141-149. *)
Fixpoint insert_devices (now : timestamptz) (device_ids : list string)
    (tx : database) : psycopg2_Error + database :=
  match device_ids with
  | [] => inr tx
  | device_id :: rest =>
      match insert_device now device_id "test-building" "test-model" tx with
      | inl e => inl e
      | inr tx' => insert_devices now rest tx'
      end
  end.

Definition seeded_devices : list string :=
  ["hvac-test-001"; "hvac-test-002"; "hvac-test-003"].

(** What [seed_site_and_devices] prints. *)
Inductive seed_print :=
| Seeded_required
| Seeding_failed (e : exception).

(** [seed_site_and_devices] (lines 119-154): the committed state and the line
    printed.  Any exception is caught and nothing is committed. *)
Definition seed_site_and_devices (w : world) : database * seed_print :=
  match environ_args (w_environ w) with
  | inl e => (w_db w, Seeding_failed e)
  | inr args =>
      if w_accepts w args then
        match insert_devices (w_now w) seeded_devices
                (insert_site (w_now w) "test-building" "Test Building" (w_db w)) with
        | inl e => (w_db w, Seeding_failed (Psycopg2 e))
        | inr tx' => (tx', Seeded_required)
        end
      else (w_db w, Seeding_failed (Psycopg2 OperationalError))
  end.

(** The same process and server at a later time, with another committed
    state. *)
Definition later (w : world) (db : database) (now utcnow : timestamptz) : world :=
  {| w_environ := w_environ w; w_accepts := w_accepts w;
     w_db := db; w_now := now; w_utcnow := utcnow |}.

(** [run_tests] (lines 157-178): the two invocations, the second at its own
    time against what the first committed. *)
Definition run_tests (w : world) (now' utcnow' : timestamptz) : outcome * outcome :=
  let single := lambda_handler w single_event in
  (single, lambda_handler (later w (committed single) now' utcnow') batch_event).

(** ** Further vocabulary *)

(** The two foreign keys of [device_state] hold. *)
Definition device_state_references (db : database) : Prop :=
  forall device_id row,
    device_state db !! device_id = Some row ->
    is_Some (devices db !! device_id) /\ is_Some (sites db !! ds_site_id row).

(** The record that carries the fields of [later_hb] and, where it has
    none, those of [earlier_hb]. *)
Definition merge_heartbeat (later_hb earlier_hb : heartbeat) : heartbeat :=
  {| hb_device_id := hb_device_id later_hb;
     hb_site_id := hb_site_id earlier_hb;
     hb_status := COALESCE (hb_status later_hb) (hb_status earlier_hb);
     hb_agent_version := COALESCE (hb_agent_version later_hb) (hb_agent_version earlier_hb);
     hb_cpu_pct := COALESCE (hb_cpu_pct later_hb) (hb_cpu_pct earlier_hb);
     hb_disk_free_gb := COALESCE (hb_disk_free_gb later_hb) (hb_disk_free_gb earlier_hb);
     hb_queue_depth := COALESCE (hb_queue_depth later_hb) (hb_queue_depth earlier_hb);
     hb_poll_interval_s := COALESCE (hb_poll_interval_s later_hb) (hb_poll_interval_s earlier_hb);
     hb_last_upload_ts := COALESCE (hb_last_upload_ts later_hb) (hb_last_upload_ts earlier_hb) |}.

(** The record the loop logs for one record of the batch. *)
Definition log_entry (device_data : heartbeat) : log_record :=
  match hb_device_id device_data with
  | Some device_id =>
      if well_formed device_data then info_updated device_id
      else warning_skipping device_data
  | None => warning_skipping device_data
  end.

(** A row with its two timestamps set to [now]. *)
Definition touched_at (now : timestamptz) (row : device_state_row) : device_state_row :=
  {| ds_site_id := ds_site_id row;
     ds_last_seen_ts := now;
     ds_last_upload_ts := ds_last_upload_ts row;
     ds_queue_depth := ds_queue_depth row;
     ds_agent_version := ds_agent_version row;
     ds_poll_interval_s := ds_poll_interval_s row;
     ds_cpu_pct := ds_cpu_pct row;
     ds_disk_free_gb := ds_disk_free_gb row;
     ds_status := ds_status row;
     ds_updated_at := now |}.

(** ** Further sample data *)

Definition local_args : connect_args :=
  {| host := "localhost"; port := "55432"; dbname := "hvacdb";
     user := "postgres"; password := "yourpassword" |}.

(** A server that refuses the connection. *)
Definition unreachable_world (db : database) (now : timestamptz) : world :=
  {| w_environ := local_environ; w_accepts := fun _ => false;
     w_db := db; w_now := now; w_utcnow := now |}.

(** A heartbeat of hvac-test-001 that names another, unregistered site. *)
Definition moved_record : heartbeat :=
  {| hb_device_id := Some "hvac-test-001"; hb_site_id := Some "elsewhere";
     hb_status := Some "error"; hb_agent_version := None;
     hb_cpu_pct := None; hb_disk_free_gb := None;
     hb_queue_depth := Some 7; hb_poll_interval_s := None;
     hb_last_upload_ts := None |}.

(** A heartbeat of a device that is not in [devices]. *)
Definition ghost_record : heartbeat :=
  {| hb_device_id := Some "hvac-ghost"; hb_site_id := Some "test-building";
     hb_status := Some "ready"; hb_agent_version := None;
     hb_cpu_pct := None; hb_disk_free_gb := None;
     hb_queue_depth := None; hb_poll_interval_s := None;
     hb_last_upload_ts := None |}.

Definition ghost_batch_event : event :=
  {| ev_devices := Some [record_002; ghost_record]; ev_record := no_fields |}.

(** ** The migration as a sequence of statements
       (002_init_hvac_timescale.py, upgrade and downgrade) *)

(** What a name of the schema stands for.  Tables, indexes and views
    share one namespace; a table carries the tables its foreign keys
    reference, an index the relation it is on, a view the relations it
    selects from. *)
Inductive relkind :=
| Table (references : list string)
| Index (on : string)
| View (sources : list string)
| MaterializedView (sources : list string).

#[global] Instance relkind_eq_dec : EqDecision relkind.
Proof. solve_decision. Defined.

(** The settings of a hypertable: the arguments of [create_hypertable],
    the compression option and the two policies, in days. *)
Record hypertable := {
  ht_time_column : string;
  ht_partitioning_column : string;
  ht_number_partitions : Z;
  ht_compress : bool;
  ht_compression_policy : option Z;
  ht_retention_policy : option Z
}.

Record catalog := {
  extensions : gset string;
  relations : gmap string relkind;
  hypertables : gmap string hypertable
}.

Inductive ddl_error :=
| DuplicateTable (name : string)
| UndefinedTable (name : string)
| UndefinedFunction (name : string)
| WrongObjectType (name : string)
| DependentObjectsStillExist (name : string)
| FeatureNotSupported (name : string).

Definition statement : Type := catalog -> ddl_error + catalog.

(** Statements run in order; the first error ends the run. *)
Fixpoint run (script : list statement) (c : catalog) : ddl_error + catalog :=
  match script with
  | [] => inr c
  | s :: rest =>
      match s c with
      | inl e => inl e
      | inr c' => run rest c'
      end
  end.

Definition with_relations (r : gmap string relkind) (c : catalog) : catalog :=
  {| extensions := extensions c; relations := r; hypertables := hypertables c |}.

Definition with_hypertables (h : gmap string hypertable) (c : catalog) : catalog :=
  {| extensions := extensions c; relations := relations c; hypertables := h |}.

Definition is_table (c : catalog) (name : string) : bool :=
  match relations c !! name with
  | Some (Table _) => true
  | _ => false
  end.

(** The first of [names] that is not a table, if any. *)
Fixpoint missing_table (c : catalog) (names : list string) : option string :=
  match names with
  | [] => None
  | name :: rest => if is_table c name then missing_table c rest else Some name
  end.

Definition depends_on (r : relkind) (name : string) : Prop :=
  match r with
  | Table references => name ∈ references
  | Index _ => False
  | View sources => name ∈ sources
  | MaterializedView sources => name ∈ sources
  end.

#[global] Instance depends_on_dec r name : Decision (depends_on r name).
Proof. destruct r; simpl; apply _. Defined.

(** No other table references [name] and no view selects from it. *)
Definition no_dependents (c : catalog) (name : string) : Prop :=
  map_Forall (fun n r => n = name \/ ~ depends_on r name) (relations c).

(** The relations left when [name] goes, with the indexes on it. *)
Definition without (name : string) (r : gmap string relkind) : gmap string relkind :=
  filter (fun kv => kv.2 <> Index name) (delete name r).

(** [CREATE EXTENSION IF NOT EXISTS timescaledb] (line 23), on a server that
    has the extension available. *)
Definition create_extension_if_not_exists (name : string) : statement :=
  fun c =>
    inr {| extensions := {[ name ]} ∪ extensions c;
           relations := relations c; hypertables := hypertables c |}.

(** [op.create_table(name, ...)]: the columns matter here through their
    foreign keys and through the named unique constraints, each of which
    makes an index of that name. *)
Definition create_table (name : string) (references unique_constraints : list string)
    : statement :=
  fun c =>
    match relations c !! name with
    | Some _ => inl (DuplicateTable name)
    | None =>
        match missing_table c references with
        | Some t => inl (UndefinedTable t)
        | None =>
            match filter (fun u => is_Some (relations c !! u)) unique_constraints with
            | u :: _ => inl (DuplicateTable u)
            | [] =>
                inr (with_relations
                       (foldr (fun u r => <[u := Index name]> r)
                          (<[name := Table references]> (relations c))
                          unique_constraints) c)
            end
        end
    end.

(** [SELECT create_hypertable(name, time_column, partitioning_column => ...,
     number_partitions => ..., if_not_exists => TRUE)] (lines 82-90). *)
Definition create_hypertable (name time_column partitioning_column : string)
    (number_partitions : Z) : statement :=
  fun c =>
    if bool_decide ("timescaledb" ∈ extensions c) then
      if is_table c name then
        match hypertables c !! name with
        | Some _ => inr c
        | None =>
            inr (with_hypertables
                   (<[name := {| ht_time_column := time_column;
                                 ht_partitioning_column := partitioning_column;
                                 ht_number_partitions := number_partitions;
                                 ht_compress := false;
                                 ht_compression_policy := None;
                                 ht_retention_policy := None |}]>
                      (hypertables c)) c)
        end
      else inl (UndefinedTable name)
    else inl (UndefinedFunction "create_hypertable").

(** [op.create_index(name, table, ...)]. *)
Definition create_index (name table : string) : statement :=
  fun c =>
    match relations c !! name with
    | Some _ => inl (DuplicateTable name)
    | None =>
        if is_table c table
        then inr (with_relations (<[name := Index table]> (relations c)) c)
        else inl (UndefinedTable table)
    end.

(** A change of the settings of a hypertable; the statement fails on a
    table that is not one. *)
Definition alter_hypertable (function name : string)
    (change : hypertable -> ddl_error + hypertable) : statement :=
  fun c =>
    if bool_decide ("timescaledb" ∈ extensions c) then
      match hypertables c !! name with
      | None => inl (FeatureNotSupported name)
      | Some h =>
          match change h with
          | inl e => inl e
          | inr h' => inr (with_hypertables (<[name := h']> (hypertables c)) c)
          end
      end
    else inl (UndefinedFunction function).

(** [ALTER TABLE name SET (timescaledb.compress = 'true')] (line 97). *)
Definition set_compress (name : string) : statement :=
  alter_hypertable "timescaledb.compress" name
    (fun h => inr {| ht_time_column := ht_time_column h;
                     ht_partitioning_column := ht_partitioning_column h;
                     ht_number_partitions := ht_number_partitions h;
                     ht_compress := true;
                     ht_compression_policy := ht_compression_policy h;
                     ht_retention_policy := ht_retention_policy h |}).

(** [SELECT add_compression_policy(name, interval 'n days',
     if_not_exists => TRUE)] (line 98): compression must be enabled. *)
Definition add_compression_policy (name : string) (days : Z) : statement :=
  alter_hypertable "add_compression_policy" name
    (fun h =>
       if ht_compress h then
         inr {| ht_time_column := ht_time_column h;
                ht_partitioning_column := ht_partitioning_column h;
                ht_number_partitions := ht_number_partitions h;
                ht_compress := true;
                ht_compression_policy :=
                  Some (default days (ht_compression_policy h));
                ht_retention_policy := ht_retention_policy h |}
       else inl (FeatureNotSupported name)).

(** [SELECT add_retention_policy(name, interval 'n days',
     if_not_exists => TRUE)] (line 99). *)
Definition add_retention_policy (name : string) (days : Z) : statement :=
  alter_hypertable "add_retention_policy" name
    (fun h => inr {| ht_time_column := ht_time_column h;
                     ht_partitioning_column := ht_partitioning_column h;
                     ht_number_partitions := ht_number_partitions h;
                     ht_compress := ht_compress h;
                     ht_compression_policy := ht_compression_policy h;
                     ht_retention_policy :=
                       Some (default days (ht_retention_policy h)) |}).

(** The first of [names] that is not a table or a view, if any. *)
Fixpoint missing_source (c : catalog) (names : list string) : option string :=
  match names with
  | [] => None
  | name :: rest =>
      match relations c !! name with
      | Some (Table _) | Some (View _) | Some (MaterializedView _) =>
          missing_source c rest
      | _ => Some name
      end
  end.

(** [CREATE MATERIALIZED VIEW IF NOT EXISTS name AS SELECT ... FROM sources]
    (lines 124-131): skipped when a relation of that name exists. *)
Definition create_materialized_view_if_not_exists (name : string)
    (sources : list string) : statement :=
  fun c =>
    match relations c !! name with
    | Some _ => inr c
    | None =>
        match missing_source c sources with
        | Some t => inl (UndefinedTable t)
        | None =>
            inr (with_relations
                   (<[name := MaterializedView sources]> (relations c)) c)
        end
    end.

(** [CREATE UNIQUE INDEX IF NOT EXISTS name ON relation(...)] (line 132):
    skipped when a relation of that name exists; an index can be built on a
    table or a materialized view. *)
Definition create_unique_index_if_not_exists (name relation : string) : statement :=
  fun c =>
    match relations c !! name with
    | Some _ => inr c
    | None =>
        match relations c !! relation with
        | Some (Table _) | Some (MaterializedView _) =>
            inr (with_relations (<[name := Index relation]> (relations c)) c)
        | Some _ => inl (WrongObjectType relation)
        | None => inl (UndefinedTable relation)
        end
    end.

(** [CREATE OR REPLACE VIEW name AS SELECT ... FROM sources] (lines 134-151). *)
Definition create_or_replace_view (name : string) (sources : list string)
    : statement :=
  fun c =>
    match relations c !! name with
    | Some (View _) | None =>
        match missing_source c sources with
        | Some t => inl (UndefinedTable t)
        | None => inr (with_relations (<[name := View sources]> (relations c)) c)
        end
    | Some _ => inl (WrongObjectType name)
    end.

(** [upgrade()] (lines 19-151). *)
Definition upgrade : list statement :=
  [ create_extension_if_not_exists "timescaledb";
    create_table "sites" [] [];
    create_table "devices" ["sites"] [];
    create_table "points" ["sites"; "devices"] ["uq_points_site_name"];
    create_table "measurements" ["sites"; "points"] [];
    create_hypertable "measurements" "ts_utc" "site_id" 8;
    create_index "ix_meas_point_time_desc" "measurements";
    create_index "ix_meas_site_time" "measurements";
    set_compress "measurements";
    add_compression_policy "measurements" 7;
    add_retention_policy "measurements" 365;
    create_table "device_state" ["devices"; "sites"] [];
    create_index "ix_devstate_site" "device_state";
    create_index "ix_devstate_last_seen" "device_state";
    create_materialized_view_if_not_exists "v_point_latest" ["measurements"];
    create_unique_index_if_not_exists "uq_v_point_latest" "v_point_latest";
    create_or_replace_view "v_site_latest_window" ["measurements"];
    create_or_replace_view "v_devices_stale" ["device_state"] ].

(** [DROP VIEW IF EXISTS name] (lines 155-156). *)
Definition drop_view_if_exists (name : string) : statement :=
  fun c =>
    match relations c !! name with
    | None => inr c
    | Some (View _) =>
        if decide (no_dependents c name)
        then inr (with_relations (delete name (relations c)) c)
        else inl (DependentObjectsStillExist name)
    | Some _ => inl (WrongObjectType name)
    end.

(** [DROP MATERIALIZED VIEW IF EXISTS name] (line 157); its indexes go
    with it. *)
Definition drop_materialized_view_if_exists (name : string) : statement :=
  fun c =>
    match relations c !! name with
    | None => inr c
    | Some (MaterializedView _) =>
        if decide (no_dependents c name)
        then inr (with_relations (without name (relations c)) c)
        else inl (DependentObjectsStillExist name)
    | Some _ => inl (WrongObjectType name)
    end.

(** [op.drop_index(name, table_name=...)]. *)
Definition drop_index (name : string) : statement :=
  fun c =>
    match relations c !! name with
    | Some (Index _) => inr (with_relations (delete name (relations c)) c)
    | Some _ => inl (WrongObjectType name)
    | None => inl (UndefinedTable name)
    end.

(** [op.drop_table(name)]: refused while a view or a foreign key of another
    table depends on the table; its indexes and its hypertable settings go
    with it. *)
Definition drop_table (name : string) : statement :=
  fun c =>
    match relations c !! name with
    | Some (Table _) =>
        if decide (no_dependents c name)
        then inr {| extensions := extensions c;
                    relations := without name (relations c);
                    hypertables := delete name (hypertables c) |}
        else inl (DependentObjectsStillExist name)
    | Some _ => inl (WrongObjectType name)
    | None => inl (UndefinedTable name)
    end.

(** [DROP EXTENSION IF EXISTS name CASCADE] (line 171); the hypertable
    settings belong to the extension. *)
Definition drop_extension_if_exists_cascade (name : string) : statement :=
  fun c =>
    if bool_decide (name ∈ extensions c) then
      inr {| extensions := extensions c ∖ {[ name ]};
             relations := relations c; hypertables := ∅ |}
    else inr c.

(** [downgrade()] (lines 154-171). *)
Definition downgrade : list statement :=
  [ drop_view_if_exists "v_devices_stale";
    drop_view_if_exists "v_site_latest_window";
    drop_materialized_view_if_exists "v_point_latest";
    drop_index "ix_devstate_last_seen";
    drop_index "ix_devstate_site";
    drop_table "device_state";
    drop_index "ix_meas_site_time";
    drop_index "ix_meas_point_time_desc";
    drop_table "measurements";
    drop_table "points";
    drop_table "devices";
    drop_table "sites";
    drop_extension_if_exists_cascade "timescaledb" ].

(** The names the migration creates. *)
Definition migration_names : list string :=
  [ "sites"; "devices"; "points"; "uq_points_site_name"; "measurements";
    "ix_meas_point_time_desc"; "ix_meas_site_time"; "device_state";
    "ix_devstate_site"; "ix_devstate_last_seen"; "v_point_latest";
    "uq_v_point_latest"; "v_site_latest_window"; "v_devices_stale" ].

(** A schema the migration has not touched: none of its names is taken,
    TimescaleDB is not installed (so there is no hypertable), and nothing
    refers to a relation that does not exist. *)
Definition untouched (c : catalog) : Prop :=
  (forall name, name ∈ migration_names -> relations c !! name = None)
  /\ ("timescaledb" ∉ extensions c)
  /\ (hypertables c = ∅)
  /\ (forall n r t, relations c !! n = Some r -> depends_on r t ->
        is_Some (relations c !! t))
  /\ (forall n t, relations c !! n = Some (Index t) -> is_Some (relations c !! t)).

(** [ensure_tables_present] of test_local.py (lines 46-72): whether
    [information_schema.tables] lists 'device_state', which it does for a
    table or a plain view of that name; any exception gives [False]. *)
Definition ensure_tables_present (w : world) (c : catalog) : bool :=
  match environ_args (w_environ w) with
  | inl _ => false
  | inr args =>
      w_accepts w args
      && match relations c !! "device_state" with
         | Some (Table _) | Some (View _) => true
         | _ => false
         end
  end.

(** An empty schema, and one with a table and an index of its own. *)
Definition empty_catalog : catalog :=
  {| extensions := ∅; relations := ∅; hypertables := ∅ |}.

Definition legacy_catalog : catalog :=
  {| extensions := {[ "plpgsql" ]};
     relations := {[ "audit_log" := Table []; "ix_audit_ts" := Index "audit_log" ]};
     hypertables := ∅ |}.

(** The relations after [upgrade], over the relations [r] there were. *)
Definition upgraded_relations (r : gmap string relkind) : gmap string relkind :=
  <["v_devices_stale" := View ["device_state"]]>
  (<["v_site_latest_window" := View ["measurements"]]>
  (<["uq_v_point_latest" := Index "v_point_latest"]>
  (<["v_point_latest" := MaterializedView ["measurements"]]>
  (<["ix_devstate_last_seen" := Index "device_state"]>
  (<["ix_devstate_site" := Index "device_state"]>
  (<["device_state" := Table ["devices"; "sites"]]>
  (<["ix_meas_site_time" := Index "measurements"]>
  (<["ix_meas_point_time_desc" := Index "measurements"]>
  (<["measurements" := Table ["sites"; "points"]]>
  (<["uq_points_site_name" := Index "points"]>
  (<["points" := Table ["sites"; "devices"]]>
  (<["devices" := Table ["sites"]]>
  (<["sites" := Table []]> r))))))))))))).

(** The settings [upgrade] gives the measurements hypertable. *)
Definition measurements_hypertable : hypertable :=
  {| ht_time_column := "ts_utc"; ht_partitioning_column := "site_id";
     ht_number_partitions := 8; ht_compress := true;
     ht_compression_policy := Some 7; ht_retention_policy := Some 365 |}.

(** Nothing in [r] has the name [name], depends on it or is an index on it. *)
Definition unknown (r : gmap string relkind) (name : string) : Prop :=
  r !! name = None
  /\ map_Forall (fun _ k => ~ depends_on k name /\ k <> Index name) r.


(** What is left of [after_single] when the test building is deleted. *)
Definition emptied : database :=
  {| sites := ∅; devices := ∅; points := ∅; measurements := ∅;
     device_state := ∅ |}.

(** * Properties *)

(** ** The upsert statement *)

Lemma COALESCE_overwrites_or_keeps {A : Type} (incoming stored : option A) :
  overwrites_or_keeps incoming stored (COALESCE incoming stored).
Proof.
  split; intros; subst; reflexivity.
Qed.

Lemma storable_checks (d : heartbeat) :
  storable d = true ->
  int4_check (hb_queue_depth d) = true
  /\ int4_check (hb_poll_interval_s d) = true
  /\ status_check (hb_status d) = true.
Proof.
  unfold storable. rewrite !andb_true_iff. tauto.
Qed.

Lemma upsert_sql_conflict now device_id site_id d tx stored :
  storable d = true ->
  device_state tx !! device_id = Some stored ->
  upsert_sql now device_id site_id d tx
  = inr (with_device_state
           (<[device_id := do_update_set now (excluded_row now site_id d) stored]>
              (device_state tx)) tx).
Proof.
  intros Hs Hl. apply storable_checks in Hs as (Hq & Hp & Hc).
  unfold upsert_sql. rewrite Hq, Hp, Hc, Hl. reflexivity.
Qed.

Lemma upsert_sql_insert now device_id site_id d tx dev site :
  storable d = true ->
  device_state tx !! device_id = None ->
  devices tx !! device_id = Some dev ->
  sites tx !! site_id = Some site ->
  upsert_sql now device_id site_id d tx
  = inr (with_device_state
           (<[device_id := excluded_row now site_id d]> (device_state tx)) tx).
Proof.
  intros Hs Hl Hd Hsite. apply storable_checks in Hs as (Hq & Hp & Hc).
  unfold upsert_sql. rewrite Hq, Hp, Hc, Hl, Hd, Hsite. reflexivity.
Qed.

Lemma upsert_sql_rejects now device_id site_id d tx :
  storable d = false ->
  exists e, upsert_sql now device_id site_id d tx = inl e.
Proof.
  unfold storable, upsert_sql. intros Hs.
  destruct (int4_check (hb_queue_depth d)); simpl; [| eauto].
  destruct (int4_check (hb_poll_interval_s d)); simpl; [| eauto].
  simpl in Hs. rewrite Hs. simpl. eauto.
Qed.

(** C1. A heartbeat applied to a device that has a [device_state] row: the
    statement succeeds whenever the schema accepts the values; in the row
    it leaves, each of the seven optional fields holds the incoming value
    when the heartbeat has one and its previous value otherwise;
    [last_seen_ts] and [updated_at] are the current time whatever the
    payload holds; no other row changes. *)
Theorem reconcile_existing_device
    (now : timestamptz) (device_id site_id : string) (d : heartbeat)
    (tx : database) (stored : device_state_row) :
  device_state tx !! device_id = Some stored ->
  storable d = true ->
  exists tx' row,
    upsert_sql now device_id site_id d tx = inr tx'
    /\ device_state tx' !! device_id = Some row
    /\ overwrites_or_keeps (hb_status d) (ds_status stored) (ds_status row)
    /\ overwrites_or_keeps (hb_agent_version d) (ds_agent_version stored)
         (ds_agent_version row)
    /\ overwrites_or_keeps (hb_cpu_pct d) (ds_cpu_pct stored) (ds_cpu_pct row)
    /\ overwrites_or_keeps (hb_disk_free_gb d) (ds_disk_free_gb stored)
         (ds_disk_free_gb row)
    /\ overwrites_or_keeps (hb_queue_depth d) (ds_queue_depth stored)
         (ds_queue_depth row)
    /\ overwrites_or_keeps (hb_poll_interval_s d) (ds_poll_interval_s stored)
         (ds_poll_interval_s row)
    /\ overwrites_or_keeps (hb_last_upload_ts d) (ds_last_upload_ts stored)
         (ds_last_upload_ts row)
    /\ ds_last_seen_ts row = now
    /\ ds_updated_at row = now
    /\ (forall other, other <> device_id ->
          device_state tx' !! other = device_state tx !! other).
Proof.
  intros Hl Hs.
  eexists _, _. split; [apply upsert_sql_conflict; eassumption |].
  simpl. split; [apply lookup_insert_eq |].
  repeat (split; [apply COALESCE_overwrites_or_keeps |]).
  repeat (split; [reflexivity |]).
  intros other Hne. apply lookup_insert_ne. congruence.
Qed.

(** The merge of section 8 of the specification: a heartbeat with only a
    status, after one that set the agent version. *)
Lemma reconcile_existing_device_witness :
  exists tx' row,
    upsert_sql 2000000 "hvac-test-001" "test-building" degraded_record after_single
    = inr tx'
    /\ device_state tx' !! "hvac-test-001" = Some row
    /\ ds_status row = Some "degraded"
    /\ ds_agent_version row = Some "1.0.0"
    /\ ds_last_seen_ts row = 2000000.
Proof.
  destruct (reconcile_existing_device 2000000 "hvac-test-001" "test-building"
              degraded_record after_single first_row)
    as (tx' & row & Hrun & Hrow & Hstatus & Hversion & _ & _ & _ & _ & _ & Hseen & _).
  - reflexivity.
  - reflexivity.
  - exists tx', row.
    split; [exact Hrun |]. split; [exact Hrow |].
    split; [apply (proj1 Hstatus); reflexivity |].
    split; [apply (proj2 Hversion); reflexivity |].
    exact Hseen.
Defined.




(** ** The loop over the records *)

Lemma truthy_Some (v : option string) :
  truthy v = true -> exists s, v = Some s /\ s <> "".
Proof.
  destruct v as [s |]; simpl; [| discriminate].
  intros Hs. exists s. split; [reflexivity |].
  intros ->. discriminate.
Qed.

Lemma well_formed_ids_of (d : heartbeat) :
  well_formed d = true ->
  exists device_id site_id,
    hb_device_id d = Some device_id /\ hb_site_id d = Some site_id.
Proof.
  unfold well_formed. rewrite andb_true_iff. intros [Hd Hs].
  apply truthy_Some in Hd as (device_id & -> & _).
  apply truthy_Some in Hs as (site_id & -> & _).
  eauto.
Qed.

Lemma skip_test (d : heartbeat) :
  negb (truthy (hb_device_id d)) || negb (truthy (hb_site_id d))
  = negb (well_formed d).
Proof.
  unfold well_formed. symmetry. apply negb_andb.
Qed.

Lemma for_device_data_skip now d rest st :
  well_formed d = false ->
  for_device_data now (d :: rest) st = for_device_data now rest (skip d st).
Proof.
  intros Hwf. simpl. rewrite skip_test, Hwf. reflexivity.
Qed.

Lemma for_device_data_execute now d rest st device_id site_id :
  well_formed d = true ->
  hb_device_id d = Some device_id ->
  hb_site_id d = Some site_id ->
  for_device_data now (d :: rest) st
  = match upsert_sql now device_id site_id d (tx st) with
    | inl e => inl (e, cur_log st)
    | inr tx' =>
        for_device_data now rest
          {| tx := tx'; updated := updated st ++ [device_id];
             cur_log := cur_log st ++ [info_updated device_id] |}
    end.
Proof.
  intros Hwf Hd Hs. simpl. rewrite skip_test, Hwf, Hd, Hs. reflexivity.
Qed.

(** Records that lack an identifier have no effect but on the log. *)
Lemma for_device_data_filter now ds : forall st st',
  tx st = tx st' -> updated st = updated st' ->
  loop_effect (for_device_data now ds st)
  = loop_effect (for_device_data now (filter (fun d => well_formed d = true) ds) st').
Proof.
  induction ds as [| d rest IH]; intros st st' Htx Hup.
  - simpl. rewrite Htx, Hup. reflexivity.
  - destruct (well_formed d) eqn:Hwf.
    + rewrite filter_cons_True by assumption.
      destruct (well_formed_ids_of d Hwf) as (device_id & site_id & Hd & Hs).
      rewrite !(for_device_data_execute now d _ _ device_id site_id) by assumption.
      rewrite <- Htx.
      destruct (upsert_sql now device_id site_id d (tx st)) as [e | tx'];
        [reflexivity |].
      apply IH; simpl; [reflexivity | rewrite Hup; reflexivity].
    + rewrite filter_cons_False by (rewrite Hwf; discriminate).
      rewrite for_device_data_skip by assumption.
      apply IH; assumption.
Qed.

Lemma upsert_sql_tables now device_id site_id d tx0 tx' :
  upsert_sql now device_id site_id d tx0 = inr tx' ->
  sites tx' = sites tx0 /\ devices tx' = devices tx0
  /\ points tx' = points tx0 /\ measurements tx' = measurements tx0
  /\ dom (device_state tx') = {[ device_id ]} ∪ dom (device_state tx0).
Proof.
  unfold upsert_sql. intros Hrun.
  repeat match type of Hrun with
         | (if ?b then _ else _) = _ => destruct b; [discriminate |]
         end.
  destruct (device_state tx0 !! device_id) as [stored |] eqn:Hrow.
  - inversion Hrun; subst; simpl. repeat split; try reflexivity.
    apply dom_insert_L.
  - destruct (devices tx0 !! device_id); [| discriminate].
    destruct (sites tx0 !! site_id); [| discriminate].
    inversion Hrun; subst; simpl. repeat split; try reflexivity.
    apply dom_insert_L.
Qed.

(** A completed loop has recorded the device id of every record that
    carries both identifiers, in order, has a row for each of them, has
    touched no other table and has logged every record it skipped. *)
Lemma for_device_data_completed now ds : forall st st',
  for_device_data now ds st = inr st' ->
  updated st' = (updated st ++ well_formed_ids ds)%list
  /\ dom (device_state (tx st'))
     = list_to_set (well_formed_ids ds) ∪ dom (device_state (tx st))
  /\ sites (tx st') = sites (tx st) /\ devices (tx st') = devices (tx st)
  /\ points (tx st') = points (tx st)
  /\ measurements (tx st') = measurements (tx st)
  /\ (forall r, r ∈ cur_log st -> r ∈ cur_log st')
  /\ (forall d, d ∈ ds -> well_formed d = false ->
        warning_skipping d ∈ cur_log st').
Proof.
  unfold well_formed_ids.
  induction ds as [| d rest IH]; intros st st' Hrun.
  - simpl in Hrun. inversion Hrun; subst. simpl.
    rewrite app_nil_r. repeat split; try reflexivity.
    + set_solver.
    + auto.
    + intros d Hd. inversion Hd.
  - destruct (well_formed d) eqn:Hwf.
    + rewrite filter_cons_True by assumption.
      destruct (well_formed_ids_of d Hwf) as (device_id & site_id & Hd & Hs).
      rewrite (for_device_data_execute now d _ _ device_id site_id) in Hrun
        by assumption.
      destruct (upsert_sql now device_id site_id d (tx st)) as [e | tx'] eqn:Hup;
        [discriminate |].
      apply upsert_sql_tables in Hup as (Hsites & Hdevs & Hpts & Hms & Hdom).
      apply IH in Hrun as (Hupd & Hdom' & Hs' & Hd' & Hp' & Hm' & Hlog & Hskip).
      simpl in *. rewrite Hd. simpl.
      split; [rewrite Hupd, <- app_assoc; reflexivity |].
      split; [rewrite Hdom', Hdom; set_solver |].
      repeat (split; [congruence |]).
      split.
      * intros r Hr. apply Hlog. set_solver.
      * intros d' Hin Hwf'. apply elem_of_cons in Hin as [-> | Hin];
          [congruence | auto].
    + rewrite filter_cons_False by (rewrite Hwf; discriminate).
      rewrite for_device_data_skip in Hrun by assumption.
      apply IH in Hrun as (Hupd & Hdom' & Hs' & Hd' & Hp' & Hm' & Hlog & Hskip).
      simpl in *.
      repeat (split; [assumption |]).
      split.
      * intros r Hr. apply Hlog. set_solver.
      * intros d' Hin Hwf'. apply elem_of_cons in Hin as [-> | Hin]; [| auto].
        apply Hlog. set_solver.
Qed.

(** The loop raises as soon as the schema refuses the values of a record
    that carries both identifiers. *)
Lemma for_device_data_rejects now ds : forall st d,
  d ∈ ds -> well_formed d = true -> storable d = false ->
  exists e log, for_device_data now ds st = inl (e, log).
Proof.
  induction ds as [| d0 rest IH]; intros st d Hin Hwf Hst; [inversion Hin |].
  destruct (well_formed d0) eqn:Hwf0.
  - destruct (well_formed_ids_of d0 Hwf0) as (device_id & site_id & Hd & Hs).
    rewrite (for_device_data_execute now d0 _ _ device_id site_id) by assumption.
    destruct (upsert_sql now device_id site_id d0 (tx st)) as [e | tx'] eqn:Hup;
      [eauto |].
    apply elem_of_cons in Hin as [-> | Hin]; [| eauto].
    destruct (upsert_sql_rejects now device_id site_id d0 (tx st) Hst) as [e He].
    congruence.
  - rewrite for_device_data_skip by assumption.
    apply elem_of_cons in Hin as [-> | Hin]; [congruence | eauto].
Qed.

(** The loop completes when every record that carries both identifiers
    holds values the schema accepts and names a registered device and site. *)
Lemma for_device_data_completes now ds : forall st,
  (forall d device_id site_id, d ∈ ds -> well_formed d = true ->
     hb_device_id d = Some device_id -> hb_site_id d = Some site_id ->
     storable d = true
     /\ is_Some (devices (tx st) !! device_id)
     /\ is_Some (sites (tx st) !! site_id)) ->
  exists st', for_device_data now ds st = inr st'.
Proof.
  induction ds as [| d rest IH]; intros st Hok; [simpl; eauto |].
  destruct (well_formed d) eqn:Hwf.
  - destruct (well_formed_ids_of d Hwf) as (device_id & site_id & Hd & Hs).
    rewrite (for_device_data_execute now d _ _ device_id site_id) by assumption.
    destruct (Hok d device_id site_id) as (Hst & [dev Hdev] & [site Hsite]);
      [set_solver | assumption.. |].
    assert (exists tx', upsert_sql now device_id site_id d (tx st) = inr tx')
      as [tx' Hup].
    { destruct (device_state (tx st) !! device_id) as [stored |] eqn:Hrow.
      - eexists. eapply upsert_sql_conflict; eassumption.
      - eexists. eapply upsert_sql_insert; eassumption. }
    rewrite Hup.
    apply upsert_sql_tables in Hup as (Hsites & Hdevs & _).
    apply IH. simpl. intros d' dev' site' Hin Hwf' Hd' Hs'.
    rewrite Hsites, Hdevs. apply Hok; [set_solver | assumption..].
  - rewrite for_device_data_skip by assumption.
    apply IH. simpl. intros d' dev' site' Hin. apply Hok. set_solver.
Qed.

(** ** lambda_handler *)

Lemma devices_to_update_batch ev ds :
  ev_devices ev = Some ds -> devices_to_update ev = inr ds.
Proof.
  unfold devices_to_update. intros ->. reflexivity.
Qed.

Lemma devices_to_update_single ev :
  ev_devices ev = None ->
  devices_to_update ev
  = if well_formed (ev_record ev) then inr [ev_record ev] else inl validation_error.
Proof.
  unfold devices_to_update. intros ->. rewrite skip_test.
  destruct (well_formed (ev_record ev)); reflexivity.
Qed.

(** The handler once the environment is read, the records are chosen and
    the connection is open. *)
Lemma lambda_handler_connected w ev args ds :
  read_environ (w_environ w) = inr args ->
  devices_to_update ev = inr ds ->
  w_accepts w args = true ->
  lambda_handler w ev
  = match for_device_data (w_now w) ds
            {| tx := w_db w; updated := []; cur_log := [] |} with
    | inl (e, log) =>
        {| returned := database_error e; committed := w_db w;
           logged := log ++ [error_database e] |}
    | inr st =>
        {| returned := heartbeat_updated (updated st) (w_utcnow w);
           committed := tx st; logged := cur_log st |}
    end.
Proof.
  intros Henv Hds Hacc. unfold lambda_handler. rewrite Henv, Hds, Hacc.
  reflexivity.
Qed.

(** The response and the committed state are functions of the effect of
    the loop. *)
Lemma lambda_handler_loop_effect w ev ev' args ds ds' :
  read_environ (w_environ w) = inr args ->
  devices_to_update ev = inr ds ->
  devices_to_update ev' = inr ds' ->
  (forall st, loop_effect (for_device_data (w_now w) ds st)
              = loop_effect (for_device_data (w_now w) ds' st)) ->
  returned (lambda_handler w ev) = returned (lambda_handler w ev')
  /\ committed (lambda_handler w ev) = committed (lambda_handler w ev').
Proof.
  intros Henv Hds Hds' Heff. unfold lambda_handler.
  rewrite Henv, Hds, Hds'.
  destruct (w_accepts w args); [| split; reflexivity].
  specialize (Heff {| tx := w_db w; updated := []; cur_log := [] |}).
  destruct (for_device_data (w_now w) ds _) as [[e log] | st];
    destruct (for_device_data (w_now w) ds' _) as [[e' log'] | st'];
    simpl in Heff; try discriminate; inversion Heff; subst; simpl.
  - split; reflexivity.
  - split; congruence.
Qed.

(** Every exit but the commit leaves the server as it was. *)
Lemma lambda_handler_commits_on_200_only w ev :
  statusCode (returned (lambda_handler w ev)) <> 200 ->
  committed (lambda_handler w ev) = w_db w.
Proof.
  unfold lambda_handler.
  destruct (read_environ (w_environ w)) as [e | args]; [reflexivity |].
  destruct (devices_to_update ev) as [early | ds]; [reflexivity |].
  destruct (w_accepts w args); [| reflexivity].
  destruct (for_device_data _ _ _) as [[e log] | st]; [reflexivity |].
  simpl. congruence.
Qed.

(** A single record that carries both identifiers: the call is its upsert,
    committed when it succeeds. *)
Lemma lambda_handler_single_record w ev args device_id site_id :
  read_environ (w_environ w) = inr args ->
  w_accepts w args = true ->
  ev_devices ev = None ->
  well_formed (ev_record ev) = true ->
  hb_device_id (ev_record ev) = Some device_id ->
  hb_site_id (ev_record ev) = Some site_id ->
  lambda_handler w ev
  = match upsert_sql (w_now w) device_id site_id (ev_record ev) (w_db w) with
    | inl e =>
        {| returned := database_error e; committed := w_db w;
           logged := [error_database e] |}
    | inr tx' =>
        {| returned := heartbeat_updated [device_id] (w_utcnow w);
           committed := tx'; logged := [info_updated device_id] |}
    end.
Proof.
  intros Henv Hacc Hev Hwf Hd Hs.
  assert (devices_to_update ev = inr [ev_record ev]) as Hds.
  { rewrite (devices_to_update_single ev Hev), Hwf. reflexivity. }
  rewrite (lambda_handler_connected w ev args _ Henv Hds Hacc).
  rewrite (for_device_data_execute _ _ _ _ device_id site_id) by assumption.
  simpl. destruct (upsert_sql _ _ _ _ _); reflexivity.
Qed.

(** C2. With the environment configured, the call answers with the
    validation-error response (status 400) exactly when the event is a
    single record, without a 'devices' key, that lacks a device id or a
    site id.  For a batch, the records that lack an identifier change
    neither the response nor the committed state (both are those of the
    batch without them); when the call succeeds, each skipped record is
    logged, the response lists exactly the device ids of the records that
    carry both identifiers, with their count, and these are the rows the
    call added to [device_state]; and the call does succeed when the
    connection opens and every record that carries both identifiers holds
    storable values for a registered device and site. *)
Theorem validation_error_iff_single_missing_ids
    (w : world) (ev : event) (args : connect_args) :
  read_environ (w_environ w) = inr args ->
  (statusCode (returned (lambda_handler w ev)) = 400
   <-> ev_devices ev = None /\ well_formed (ev_record ev) = false)
  /\ (forall ds, ev_devices ev = Some ds ->
        let kept :=
          {| ev_devices := Some (filter (fun d => well_formed d = true) ds);
             ev_record := ev_record ev |} in
        returned (lambda_handler w ev) = returned (lambda_handler w kept)
        /\ committed (lambda_handler w ev) = committed (lambda_handler w kept)
        /\ (statusCode (returned (lambda_handler w ev)) = 200 ->
              returned (lambda_handler w ev)
              = {| statusCode := 200;
                   resp_body := body_updated (length (well_formed_ids ds))
                                  (well_formed_ids ds) (w_utcnow w) |}
              /\ dom (device_state (committed (lambda_handler w ev)))
                 = list_to_set (well_formed_ids ds) ∪ dom (device_state (w_db w))
              /\ (forall d, d ∈ ds -> well_formed d = false ->
                    warning_skipping d ∈ logged (lambda_handler w ev)))
        /\ (w_accepts w args = true ->
            (forall d device_id site_id, d ∈ ds -> well_formed d = true ->
               hb_device_id d = Some device_id -> hb_site_id d = Some site_id ->
               storable d = true
               /\ is_Some (devices (w_db w) !! device_id)
               /\ is_Some (sites (w_db w) !! site_id)) ->
            statusCode (returned (lambda_handler w ev)) = 200)).
Proof.
  intros Henv. split.
  - unfold lambda_handler. rewrite Henv.
    destruct (ev_devices ev) as [ds |] eqn:Hev.
    + rewrite (devices_to_update_batch ev ds Hev).
      split; [| intros [? _]; discriminate].
      destruct (w_accepts w args); [| discriminate].
      destruct (for_device_data _ _ _) as [[e log] | st]; discriminate.
    + rewrite (devices_to_update_single ev Hev).
      destruct (well_formed (ev_record ev)).
      * split; [| intros [_ ?]; discriminate].
        destruct (w_accepts w args); [| discriminate].
        destruct (for_device_data _ _ _) as [[e log] | st]; discriminate.
      * split; [intros _; split; reflexivity | reflexivity].
  - intros ds Hev kept.
    pose proof (devices_to_update_batch ev ds Hev) as Hds.
    assert (devices_to_update kept
            = inr (filter (fun d => well_formed d = true) ds)) as Hkept
      by reflexivity.
    destruct (lambda_handler_loop_effect w ev kept args _ _ Henv Hds Hkept)
      as [Hret Hcom].
    { intros st. apply for_device_data_filter; reflexivity. }
    split; [exact Hret |]. split; [exact Hcom |]. split.
    + unfold lambda_handler. rewrite Henv, Hds.
      destruct (w_accepts w args); [| discriminate].
      destruct (for_device_data _ _ _) as [[e log] | st] eqn:Hrun;
        [discriminate |].
      intros _. simpl.
      apply for_device_data_completed in Hrun
        as (Hupd & Hdom & _ & _ & _ & _ & _ & Hskip).
      simpl in Hupd, Hdom. rewrite Hupd.
      split; [reflexivity |]. split; assumption.
    + intros Hacc Hok.
      rewrite (lambda_handler_connected w ev args ds Henv Hds Hacc).
      destruct (for_device_data_completes (w_now w) ds
                  {| tx := w_db w; updated := []; cur_log := [] |} Hok)
        as [st ->].
      reflexivity.
Qed.

(** The batch of section 8 of the specification: one complete record and
    one without a device id. *)
Lemma validation_error_iff_single_missing_ids_witness :
  statusCode (returned (lambda_handler (local_world seeded 1000000)
                          partial_batch_event)) <> 400
  /\ returned (lambda_handler (local_world seeded 1000000) partial_batch_event)
     = {| statusCode := 200;
          resp_body := body_updated 1 ["hvac-test-002"] 1000000 |}
  /\ warning_skipping no_device_id
       ∈ logged (lambda_handler (local_world seeded 1000000) partial_batch_event).
Proof.
  destruct (validation_error_iff_single_missing_ids
              (local_world seeded 1000000) partial_batch_event
              {| host := "localhost"; port := "55432"; dbname := "hvacdb";
                 user := "postgres"; password := "yourpassword" |})
    as [Hiff Hbatch].
  - reflexivity.
  - destruct (Hbatch [record_002; no_device_id]) as (_ & _ & Hok & _);
      [reflexivity |].
    destruct Hok as (Hresp & _ & Hlog); [reflexivity |].
    split.
    + intros H400. apply Hiff in H400 as [Hnone _]. discriminate.
    + split; [exact Hresp |].
      apply Hlog; [| reflexivity].
      apply list_elem_of_In. simpl. auto.
Defined.

Lemma filter_well_formed_none (ds : list heartbeat) :
  (forall d, d ∈ ds -> well_formed d = false) ->
  filter (fun d => well_formed d = true) ds = [].
Proof.
  induction ds as [| d rest IH]; intros Hall; [reflexivity |].
  rewrite filter_cons_False.
  - apply IH. intros d' Hin. apply Hall. set_solver.
  - rewrite (Hall d); [discriminate | set_solver].
Qed.

(** C9. An event with a 'devices' key never gets the validation-error
    response; when none of its records carries both identifiers (the
    environment being configured and the connection open), the call returns
    status 200 with no updated device, a count of 0, and commits nothing. *)
Theorem batch_bypasses_validation (w : world) (ev : event) (ds : list heartbeat) :
  ev_devices ev = Some ds ->
  statusCode (returned (lambda_handler w ev)) <> 400
  /\ (forall args,
        read_environ (w_environ w) = inr args ->
        w_accepts w args = true ->
        (forall d, d ∈ ds -> well_formed d = false) ->
        returned (lambda_handler w ev)
        = {| statusCode := 200; resp_body := body_updated 0 [] (w_utcnow w) |}
        /\ committed (lambda_handler w ev) = w_db w).
Proof.
  intros Hev. pose proof (devices_to_update_batch ev ds Hev) as Hds. split.
  - unfold lambda_handler.
    destruct (read_environ (w_environ w)) as [e | args]; [discriminate |].
    rewrite Hds.
    destruct (w_accepts w args); [| discriminate].
    destruct (for_device_data _ _ _) as [[e log] | st]; discriminate.
  - intros args Henv Hacc Hall.
    rewrite (lambda_handler_connected w ev args ds Henv Hds Hacc).
    pose proof (for_device_data_filter (w_now w) ds
                  {| tx := w_db w; updated := []; cur_log := [] |}
                  {| tx := w_db w; updated := []; cur_log := [] |}
                  eq_refl eq_refl) as Heff.
    rewrite (filter_well_formed_none ds Hall) in Heff. simpl in Heff.
    destruct (for_device_data _ _ _) as [[e log] | st]; [discriminate |].
    simpl in Heff. inversion Heff as [[Htx Hup]]. simpl.
    unfold heartbeat_updated. rewrite Hup. split; reflexivity.
Qed.

Lemma batch_bypasses_validation_witness :
  returned (lambda_handler (local_world after_single 2000000) malformed_batch_event)
  = {| statusCode := 200; resp_body := body_updated 0 [] 2000000 |}
  /\ committed (lambda_handler (local_world after_single 2000000)
                  malformed_batch_event) = after_single.
Proof.
  destruct (batch_bypasses_validation (local_world after_single 2000000)
              malformed_batch_event [no_device_id; no_fields])
    as [_ Hempty]; [reflexivity |].
  apply (Hempty {| host := "localhost"; port := "55432"; dbname := "hvacdb";
                   user := "postgres"; password := "yourpassword" |});
    [reflexivity | reflexivity |].
  intros d Hin. apply list_elem_of_In in Hin. simpl in Hin.
  destruct Hin as [<- | [<- | []]]; reflexivity.
Defined.

Lemma for_device_data_app now pre : forall post st,
  for_device_data now (pre ++ post) st
  = match for_device_data now pre st with
    | inl raised => inl raised
    | inr st' => for_device_data now post st'
    end.
Proof.
  induction pre as [| d rest IH]; intros post st; [reflexivity |].
  rewrite <- app_comm_cons.
  destruct (well_formed d) eqn:Hwf.
  - destruct (well_formed_ids_of d Hwf) as (device_id & site_id & Hd & Hs).
    rewrite !(for_device_data_execute now d _ _ device_id site_id) by assumption.
    destruct (upsert_sql now device_id site_id d (tx st)); [reflexivity |].
    apply IH.
  - rewrite !for_device_data_skip by assumption. apply IH.
Qed.

(** C10. The upserts of an invocation run in one transaction that is
    committed once, after the loop: either the loop completes, the call
    answers 200 and the committed state is the state after the last upsert,
    or an upsert raises, the call answers with the database-error response
    and the committed state is the one before the call.  In particular an
    upsert that raises after earlier records of the batch were processed
    discards their updates too. *)
Theorem batch_is_all_or_nothing
    (w : world) (ev : event) (args : connect_args) (ds : list heartbeat) :
  read_environ (w_environ w) = inr args ->
  devices_to_update ev = inr ds ->
  w_accepts w args = true ->
  ((exists st,
      for_device_data (w_now w) ds
        {| tx := w_db w; updated := []; cur_log := [] |} = inr st
      /\ statusCode (returned (lambda_handler w ev)) = 200
      /\ committed (lambda_handler w ev) = tx st)
   \/ (exists e log,
         for_device_data (w_now w) ds
           {| tx := w_db w; updated := []; cur_log := [] |} = inl (e, log)
         /\ returned (lambda_handler w ev) = database_error e
         /\ committed (lambda_handler w ev) = w_db w))
  /\ (forall pre d post device_id site_id st e,
        ds = (pre ++ d :: post)%list ->
        for_device_data (w_now w) pre
          {| tx := w_db w; updated := []; cur_log := [] |} = inr st ->
        well_formed d = true ->
        hb_device_id d = Some device_id ->
        hb_site_id d = Some site_id ->
        upsert_sql (w_now w) device_id site_id d (tx st) = inl e ->
        returned (lambda_handler w ev) = database_error e
        /\ committed (lambda_handler w ev) = w_db w).
Proof.
  intros Henv Hds Hacc.
  rewrite (lambda_handler_connected w ev args ds Henv Hds Hacc). split.
  - destruct (for_device_data _ _ _) as [[e log] | st].
    + right. exists e, log. repeat split; reflexivity.
    + left. exists st. repeat split; reflexivity.
  - intros pre d post device_id site_id st e -> Hpre Hwf Hd Hs Hup.
    rewrite for_device_data_app, Hpre.
    rewrite (for_device_data_execute _ d _ _ device_id site_id) by assumption.
    rewrite Hup. split; reflexivity.
Qed.

(** hvac-test-002 is upserted, then the status of hvac-test-003 is refused:
    nothing of the batch is committed. *)
Lemma batch_is_all_or_nothing_witness :
  returned (lambda_handler (local_world seeded 1000000) failing_batch_event)
  = database_error (CheckViolation "status")
  /\ committed (lambda_handler (local_world seeded 1000000) failing_batch_event)
     = seeded.
Proof.
  destruct (batch_is_all_or_nothing (local_world seeded 1000000)
              failing_batch_event
              {| host := "localhost"; port := "55432"; dbname := "hvacdb";
                 user := "postgres"; password := "yourpassword" |}
              [record_002; offline_record])
    as [_ Hmid]; [reflexivity | reflexivity | reflexivity |].
  apply (Hmid [record_002] offline_record [] "hvac-test-003" "test-building"
           {| tx := with_device_state
                      {[ "hvac-test-002" :=
                           excluded_row 1000000 "test-building" record_002 ]}
                      seeded;
              updated := ["hvac-test-002"];
              cur_log := [info_updated "hvac-test-002"] |});
    reflexivity.
Defined.

(** ** Status values outside the enumeration *)

Lemma status_check_storable (d : heartbeat) :
  status_check (hb_status d) = false -> storable d = false.
Proof.
  unfold storable. intros ->. apply andb_false_r.
Qed.

(** C3, as the code has it.  A record that carries both identifiers and a
    status outside {ready, degraded, error} is refused by the CHECK
    constraint of the table when its upsert runs: the call answers with the
    database-error response, status 500, and commits nothing, neither of
    that record nor of the other records of the invocation. *)
Theorem invalid_status_is_database_error
    (w : world) (ev : event) (args : connect_args) (ds : list heartbeat)
    (d : heartbeat) :
  read_environ (w_environ w) = inr args ->
  w_accepts w args = true ->
  devices_to_update ev = inr ds ->
  d ∈ ds ->
  well_formed d = true ->
  status_check (hb_status d) = false ->
  exists e,
    returned (lambda_handler w ev) = database_error e
    /\ statusCode (returned (lambda_handler w ev)) = 500
    /\ committed (lambda_handler w ev) = w_db w.
Proof.
  intros Henv Hacc Hds Hin Hwf Hstatus.
  rewrite (lambda_handler_connected w ev args ds Henv Hds Hacc).
  destruct (for_device_data_rejects (w_now w) ds
              {| tx := w_db w; updated := []; cur_log := [] |} d Hin Hwf
              (status_check_storable d Hstatus)) as (e & log & ->).
  exists e. repeat split; reflexivity.
Qed.

Lemma invalid_status_is_database_error_witness :
  exists e,
    returned (lambda_handler (local_world seeded 1000000) offline_event)
    = database_error e
    /\ statusCode (returned (lambda_handler (local_world seeded 1000000)
                               offline_event)) = 500
    /\ committed (lambda_handler (local_world seeded 1000000) offline_event)
       = seeded.
Proof.
  apply (invalid_status_is_database_error (local_world seeded 1000000)
           offline_event
           {| host := "localhost"; port := "55432"; dbname := "hvacdb";
              user := "postgres"; password := "yourpassword" |}
           [offline_record] offline_record);
    try reflexivity.
  apply list_elem_of_In. simpl. auto.
Defined.

(** C3, as stated, fails: for the single record [offline_event], whose
    status "offline" is outside the enumeration, the call does not answer
    with the validation-error response (status 400) but with the
    database-error response (status 500). *)
Lemma invalid_status_not_validation_error :
  hb_status (ev_record offline_event) = Some "offline"
  /\ status_check (hb_status (ev_record offline_event)) = false
  /\ returned (lambda_handler (local_world seeded 1000000) offline_event)
     = database_error (CheckViolation "status")
  /\ returned (lambda_handler (local_world seeded 1000000) offline_event)
     <> validation_error
  /\ statusCode (returned (lambda_handler (local_world seeded 1000000)
                             offline_event)) <> 400.
Proof.
  repeat split; try reflexivity; discriminate.
Qed.

(** The CHECK constraint is kept by every invocation. *)

Lemma upsert_sql_statuses_checked now device_id site_id d tx0 tx' :
  statuses_checked tx0 ->
  upsert_sql now device_id site_id d tx0 = inr tx' ->
  statuses_checked tx'.
Proof.
  unfold upsert_sql, statuses_checked. intros Hinv Hrun.
  destruct (negb (int4_check (hb_queue_depth d))); [discriminate |].
  destruct (negb (int4_check (hb_poll_interval_s d))); [discriminate |].
  destruct (status_check (hb_status d)) eqn:Hcheck; [| discriminate].
  simpl in Hrun.
  destruct (device_state tx0 !! device_id) as [stored |] eqn:Hrow.
  - inversion Hrun; subst; simpl. intros id row.
    destruct (decide (id = device_id)) as [-> | Hne].
    + rewrite lookup_insert_eq. intros [= <-]. simpl.
      destruct (hb_status d); [exact Hcheck | eapply Hinv; eassumption].
    + rewrite lookup_insert_ne by congruence. apply Hinv.
  - destruct (devices tx0 !! device_id); [| discriminate].
    destruct (sites tx0 !! site_id); [| discriminate].
    inversion Hrun; subst; simpl. intros id row.
    destruct (decide (id = device_id)) as [-> | Hne].
    + rewrite lookup_insert_eq. intros [= <-]. exact Hcheck.
    + rewrite lookup_insert_ne by congruence. apply Hinv.
Qed.

Lemma for_device_data_statuses_checked now ds : forall st st',
  statuses_checked (tx st) ->
  for_device_data now ds st = inr st' ->
  statuses_checked (tx st').
Proof.
  induction ds as [| d rest IH]; intros st st' Hinv Hrun.
  - simpl in Hrun. inversion Hrun; subst. exact Hinv.
  - destruct (well_formed d) eqn:Hwf.
    + destruct (well_formed_ids_of d Hwf) as (device_id & site_id & Hd & Hs).
      rewrite (for_device_data_execute now d _ _ device_id site_id) in Hrun
        by assumption.
      destruct (upsert_sql now device_id site_id d (tx st)) as [e | tx'] eqn:Hup;
        [discriminate |].
      eapply IH; [| exact Hrun]. simpl.
      eapply upsert_sql_statuses_checked; eassumption.
    + rewrite for_device_data_skip in Hrun by assumption.
      eapply IH; [| exact Hrun]. exact Hinv.
Qed.

Lemma lambda_handler_statuses_checked w ev :
  statuses_checked (w_db w) ->
  statuses_checked (committed (lambda_handler w ev)).
Proof.
  intros Hinv. unfold lambda_handler.
  destruct (read_environ (w_environ w)) as [e | args]; [exact Hinv |].
  destruct (devices_to_update ev) as [early | ds]; [exact Hinv |].
  destruct (w_accepts w args); [| exact Hinv].
  destruct (for_device_data _ _ _) as [[e log] | st] eqn:Hrun; [exact Hinv |].
  simpl. eapply for_device_data_statuses_checked; [| exact Hrun]. exact Hinv.
Qed.

(** ** Measurement writes *)

Lemma filter_nothing {A : Type} (P : A -> Prop) `{forall x, Decision (P x)}
    (l : list A) :
  (forall x, x ∈ l -> ~ P x) -> filter P l = [].
Proof.
  induction l as [| a rest IH]; intros Hnone; [reflexivity |].
  rewrite filter_cons_False by (apply Hnone; set_solver).
  apply IH. intros x Hin. apply Hnone. set_solver.
Qed.





(** ** Stale devices *)

Lemma age_desc_transitive : Transitive age_desc.
Proof. unfold age_desc. intros a b c Hab Hbc. lia. Qed.

Lemma age_desc_total : Total age_desc.
Proof. unfold age_desc. intros a b. lia. Qed.

(** The rows of the view: one for each row of [device_state] whose age
    exceeds 120 seconds, with the columns of the select list. *)
Lemma elem_of_v_devices_stale now db r :
  r ∈ v_devices_stale now db
  <-> exists row,
        device_state db !! sr_device_id r = Some row
        /\ interval_120_seconds < now - ds_last_seen_ts row
        /\ r = {| sr_device_id := sr_device_id r;
                  sr_site_id := ds_site_id row;
                  sr_last_seen_ts := ds_last_seen_ts row;
                  sr_age := now - ds_last_seen_ts row |}.
Proof.
  unfold v_devices_stale. rewrite list_elem_of_omap. split.
  - intros ([device_id row] & Hin & Hsel). simpl in Hsel.
    apply elem_of_map_to_list in Hin.
    destruct (interval_120_seconds <? now - ds_last_seen_ts row) eqn:Hage;
      [| discriminate].
    inversion Hsel; subst; simpl. exists row.
    split; [assumption |]. split; [lia | reflexivity].
  - intros (row & Hrow & Hage & ->). simpl in *.
    exists (sr_device_id r, row). split; [apply elem_of_map_to_list; assumption |].
    simpl. apply Z.ltb_lt in Hage. rewrite Hage. reflexivity.
Qed.

Lemma elem_of_stale_devices_listing now db r :
  r ∈ stale_devices_listing now db <-> r ∈ v_devices_stale now db.
Proof.
  unfold stale_devices_listing. rewrite merge_sort_Permutation.
  rewrite list_elem_of_fmap. split.
  - intros (r0 & -> & Hin).
    pose proof Hin as Hin'.
    apply elem_of_v_devices_stale in Hin' as (row & _ & _ & Hr0).
    rewrite Hr0 in Hin |- *. simpl. exact Hin.
  - intros Hin. exists r. split; [| assumption].
    apply elem_of_v_devices_stale in Hin as (row & _ & _ & Hr).
    rewrite Hr. reflexivity.
Qed.

(** C5. A device with a [device_state] row is in the stale-devices listing
    exactly when the current time minus its [last_seen_ts] exceeds 120
    seconds: it is listed at 121 seconds and not at 119.  Each listed row
    carries the device's site, its [last_seen_ts] and that difference as
    [age], and the rows of the listing are in descending order of [age]. *)
Theorem stale_devices_listing_spec (now : timestamptz) (db : database) :
  (forall device_id row,
     device_state db !! device_id = Some row ->
     ((exists r, r ∈ stale_devices_listing now db /\ sr_device_id r = device_id)
      <-> 120 * 1000000 < now - ds_last_seen_ts row)
     /\ (ds_last_seen_ts row = now - 121 * 1000000 ->
         exists r, r ∈ stale_devices_listing now db
                   /\ sr_device_id r = device_id /\ 120 * 1000000 < sr_age r)
     /\ (ds_last_seen_ts row = now - 119 * 1000000 ->
         ~ exists r, r ∈ stale_devices_listing now db /\ sr_device_id r = device_id))
  /\ (forall r,
        r ∈ stale_devices_listing now db ->
        exists row,
          device_state db !! sr_device_id r = Some row
          /\ sr_site_id r = ds_site_id row
          /\ sr_last_seen_ts r = ds_last_seen_ts row
          /\ sr_age r = now - ds_last_seen_ts row
          /\ 120 * 1000000 < sr_age r)
  /\ StronglySorted (fun a b => sr_age b <= sr_age a) (stale_devices_listing now db).
Proof.
  assert (forall device_id row,
            device_state db !! device_id = Some row ->
            ((exists r, r ∈ stale_devices_listing now db /\ sr_device_id r = device_id)
             <-> 120 * 1000000 < now - ds_last_seen_ts row)) as Hiff.
  { intros device_id row Hrow. split.
    - intros (r & Hin & <-).
      apply elem_of_stale_devices_listing, elem_of_v_devices_stale in Hin
        as (row' & Hrow' & Hage & _).
      rewrite Hrow in Hrow'. inversion Hrow'; subst. exact Hage.
    - intros Hage.
      exists {| sr_device_id := device_id; sr_site_id := ds_site_id row;
                sr_last_seen_ts := ds_last_seen_ts row;
                sr_age := now - ds_last_seen_ts row |}.
      split; [| reflexivity].
      apply elem_of_stale_devices_listing, elem_of_v_devices_stale.
      exists row. simpl. repeat split; assumption. }
  split; [| split].
  - intros device_id row Hrow. split; [apply Hiff; assumption |]. split.
    + intros Hseen.
      destruct (proj2 (Hiff device_id row Hrow)) as (r & Hin & Hid);
        [rewrite Hseen; lia |].
      exists r. split; [assumption |]. split; [assumption |].
      apply elem_of_stale_devices_listing, elem_of_v_devices_stale in Hin
        as (row' & Hrow' & Hage & ->). simpl in *.
      subst device_id. rewrite Hrow in Hrow'. inversion Hrow'; subst.
      exact Hage.
    + intros Hseen Hlisted. apply (Hiff device_id row Hrow) in Hlisted.
      rewrite Hseen in Hlisted. lia.
  - intros r Hin.
    apply elem_of_stale_devices_listing, elem_of_v_devices_stale in Hin
      as (row & Hrow & Hage & ->). simpl in *.
    exists row. repeat split; assumption.
  - apply (@StronglySorted_merge_sort _ age_desc _
             age_desc_transitive age_desc_total).
Qed.

(** ** The latest value of each point *)

Lemma text_lt_irrefl (a : string) : ~ text_lt a a.
Proof.
  unfold text_lt. intros Hlt.
  apply OrderedTypeEx.String_as_OT.cmp_lt in Hlt.
  exact (OrderedTypeEx.String_as_OT.lt_not_eq _ _ Hlt eq_refl).
Qed.

Lemma text_lt_trans (a b c : string) : text_lt a b -> text_lt b c -> text_lt a c.
Proof.
  unfold text_lt. intros Hab Hbc.
  apply OrderedTypeEx.String_as_OT.cmp_lt.
  apply OrderedTypeEx.String_as_OT.cmp_lt in Hab, Hbc.
  eapply OrderedTypeEx.String_as_OT.lt_trans; eassumption.
Qed.

(** Behind a row of point [q], in ordered rows none of which precedes [q],
    DISTINCT ON keeps only rows of later points. *)
Lemma distinct_on_point_id_later rows : forall q,
  StronglySorted point_id_ts_desc rows ->
  (forall y, y ∈ rows -> q = mk_point_id y.1 \/ text_lt q (mk_point_id y.1)) ->
  forall x, x ∈ distinct_on_point_id (Some q) rows -> text_lt q (mk_point_id x.1).
Proof.
  induction rows as [| a rest IH]; intros q Hsorted Hfrom x Hin;
    [inversion Hin |].
  apply StronglySorted_inv in Hsorted as [Hrest Ha].
  simpl in Hin. case_bool_decide as Hprev.
  - apply (IH q); [assumption | | assumption].
    intros y Hy. apply Hfrom. set_solver.
  - assert (text_lt q (mk_point_id a.1)) as Hqa.
    { destruct (Hfrom a) as [-> | Hlt]; [set_solver | congruence | assumption]. }
    apply elem_of_cons in Hin as [-> | Hin]; [assumption |].
    apply (text_lt_trans _ (mk_point_id a.1)); [assumption |].
    apply (IH (mk_point_id a.1)); [assumption | | assumption].
    intros y Hy. rewrite Forall_forall in Ha.
    destruct (Ha y Hy) as [Hlt | [Heq _]]; auto.
Qed.

Lemma sorted_head_from a rest :
  Forall (point_id_ts_desc a) rest ->
  forall y, y ∈ rest ->
    mk_point_id a.1 = mk_point_id y.1 \/ text_lt (mk_point_id a.1) (mk_point_id y.1).
Proof.
  rewrite Forall_forall. intros Ha y Hy.
  destruct (Ha y Hy) as [Hlt | [Heq _]]; auto.
Qed.

(** The row kept for a point has the greatest timestamp of the point. *)
Lemma distinct_on_point_id_latest rows : forall prev x,
  StronglySorted point_id_ts_desc rows ->
  x ∈ distinct_on_point_id prev rows ->
  x ∈ rows
  /\ forall y, y ∈ rows -> mk_point_id y.1 = mk_point_id x.1 ->
       mk_ts_utc y.1 <= mk_ts_utc x.1.
Proof.
  induction rows as [| a rest IH]; intros prev x Hsorted Hin;
    [inversion Hin |].
  apply StronglySorted_inv in Hsorted as [Hrest Ha].
  pose proof (sorted_head_from a rest Ha) as Hfrom.
  simpl in Hin. case_bool_decide as Hprev.
  - destruct (IH prev x Hrest Hin) as [Hx Hmax].
    split; [set_solver |].
    intros y Hy Hpt. apply elem_of_cons in Hy as [-> | Hy]; [| auto].
    exfalso. subst prev.
    pose proof (distinct_on_point_id_later rest _ Hrest Hfrom x Hin) as Hlt.
    rewrite Hpt in Hlt. exact (text_lt_irrefl _ Hlt).
  - apply elem_of_cons in Hin as [-> | Hin].
    + split; [set_solver |].
      intros y Hy Hpt. apply elem_of_cons in Hy as [-> | Hy]; [lia |].
      rewrite Forall_forall in Ha.
      destruct (Ha y Hy) as [Hlt | [_ Hts]]; [| assumption].
      rewrite Hpt in Hlt. destruct (text_lt_irrefl _ Hlt).
    + destruct (IH _ x Hrest Hin) as [Hx Hmax].
      split; [set_solver |].
      intros y Hy Hpt. apply elem_of_cons in Hy as [-> | Hy]; [| auto].
      exfalso.
      pose proof (distinct_on_point_id_later rest _ Hrest Hfrom x Hin) as Hlt.
      rewrite Hpt in Hlt. exact (text_lt_irrefl _ Hlt).
Qed.

(** Every point with a row has a row kept. *)
Lemma distinct_on_point_id_covers rows : forall prev y,
  y ∈ rows -> prev <> Some (mk_point_id y.1) ->
  exists x, x ∈ distinct_on_point_id prev rows /\ mk_point_id x.1 = mk_point_id y.1.
Proof.
  induction rows as [| a rest IH]; intros prev y Hy Hprev; [inversion Hy |].
  simpl. case_bool_decide as Ha.
  - apply elem_of_cons in Hy as [-> | Hy]; [congruence |].
    apply IH; assumption.
  - apply elem_of_cons in Hy as [-> | Hy].
    + exists a. split; [set_solver | reflexivity].
    + destruct (decide (mk_point_id a.1 = mk_point_id y.1)) as [Heq | Hne].
      * exists a. split; [set_solver | assumption].
      * destruct (IH (Some (mk_point_id a.1)) y Hy) as (x & Hx & Hpt);
          [congruence |].
        exists x. split; [set_solver | assumption].
Qed.

(** One row is kept for each point. *)
Lemma distinct_on_point_id_NoDup rows : forall prev,
  StronglySorted point_id_ts_desc rows ->
  NoDup ((fun m : measurement => mk_point_id m.1) <$> distinct_on_point_id prev rows).
Proof.
  induction rows as [| a rest IH]; intros prev Hsorted; [constructor |].
  apply StronglySorted_inv in Hsorted as [Hrest Ha].
  simpl. case_bool_decide as Hprev; [apply IH; assumption |].
  rewrite fmap_cons. constructor; [| apply IH; assumption].
  rewrite list_elem_of_fmap. intros (x & Hpt & Hin).
  pose proof (distinct_on_point_id_later rest _ Hrest
                (sorted_head_from a rest Ha) x Hin) as Hlt.
  rewrite <- Hpt in Hlt. exact (text_lt_irrefl _ Hlt).
Qed.

Lemma filter_NoDup_key {A B : Type} `{EqDecision B} (g : A -> B) (l : list A) (x : A) :
  NoDup (g <$> l) -> x ∈ l -> filter (fun y => g y = g x) l = [x].
Proof.
  induction l as [| a rest IH]; intros Hnd Hin; [inversion Hin |].
  rewrite fmap_cons in Hnd. apply NoDup_cons in Hnd as [Ha Hnd].
  apply elem_of_cons in Hin as [-> | Hin].
  - rewrite filter_cons_True by reflexivity. f_equal.
    apply filter_nothing. intros y Hy Hg. apply Ha.
    rewrite <- Hg. apply list_elem_of_fmap. eauto.
  - rewrite filter_cons_False; [apply IH; assumption |].
    intros Hg. apply Ha. rewrite Hg. apply list_elem_of_fmap. eauto.
Qed.

(** Whatever order the rows come in, an evaluation of the view holds one
    row for each point that has measurements, and it is a measurement of
    the point with the greatest timestamp. *)
Lemma v_point_latest_rows (db : database) (result : list point_latest_row) :
  v_point_latest db result ->
  NoDup (pl_point_id <$> result)
  /\ (forall row, row ∈ result ->
        exists k r,
          measurements db !! k = Some r
          /\ row = point_latest_of (k, r)
          /\ forall k' r', measurements db !! k' = Some r' ->
               mk_point_id k' = mk_point_id k -> mk_ts_utc k' <= mk_ts_utc k)
  /\ (forall k r, measurements db !! k = Some r ->
        exists row, row ∈ result /\ pl_point_id row = mk_point_id k).
Proof.
  intros (ordered & Hperm & Hsorted & ->). split; [| split].
  - rewrite <- list_fmap_compose.
    apply (distinct_on_point_id_NoDup ordered None Hsorted).
  - intros row Hrow. apply list_elem_of_fmap in Hrow as ([k r] & -> & Hin).
    destruct (distinct_on_point_id_latest ordered None _ Hsorted Hin)
      as [Hmem Hmax].
    exists k, r. split; [| split; [reflexivity |]].
    + rewrite Hperm in Hmem. apply elem_of_map_to_list in Hmem. exact Hmem.
    + intros k' r' Hrow' Hpt.
      apply (Hmax (k', r')); [| exact Hpt].
      rewrite Hperm. apply elem_of_map_to_list. exact Hrow'.
  - intros k r Hrow.
    destruct (distinct_on_point_id_covers ordered None (k, r)) as (x & Hx & Hpt);
      [rewrite Hperm; apply elem_of_map_to_list; exact Hrow | discriminate |].
    exists (point_latest_of x). split; [| exact Hpt].
    apply list_elem_of_fmap. eauto.
Qed.

Lemma v_point_latest_sole_maximum_one (db : database)
    (result : list point_latest_row) (k : measurement_key) (r : measurement_row) :
  v_point_latest db result ->
  measurements db !! k = Some r ->
  (forall k' r', measurements db !! k' = Some r' ->
     mk_point_id k' = mk_point_id k -> k' <> k -> mk_ts_utc k' < mk_ts_utc k) ->
  filter (fun row => pl_point_id row = mk_point_id k) result
  = [point_latest_of (k, r)].
Proof.
  intros Hview Hrow Hsole.
  destruct (v_point_latest_rows db result Hview) as (Hnd & Hmax & Hcov).
  destruct (Hcov k r Hrow) as (row & Hin & Hpt).
  destruct (Hmax row Hin) as (k' & r' & Hrow' & -> & Hle).
  simpl in Hpt.
  assert (k' = k) as ->.
  { destruct (decide (k' = k)) as [| Hne]; [assumption |].
    pose proof (Hsole k' r' Hrow' Hpt Hne).
    pose proof (Hle k r Hrow (eq_sym Hpt)). lia. }
  rewrite Hrow in Hrow'. inversion Hrow'; subst r'.
  apply (filter_NoDup_key pl_point_id result (point_latest_of (k, r)));
    assumption.
Qed.

(** C6, as the code has it.  The query of the view orders the rows by
    point id and descending timestamp only.  For a point whose greatest
    timestamp belongs to a single measurement, every evaluation of the view
    over the same stored measurements returns that measurement, and only
    it, for the point: two evaluations agree on the point. *)
Theorem v_point_latest_sole_maximum (db : database)
    (result result' : list point_latest_row)
    (k : measurement_key) (r : measurement_row) :
  v_point_latest db result ->
  v_point_latest db result' ->
  measurements db !! k = Some r ->
  (forall k' r', measurements db !! k' = Some r' ->
     mk_point_id k' = mk_point_id k -> k' <> k -> mk_ts_utc k' < mk_ts_utc k) ->
  filter (fun row => pl_point_id row = mk_point_id k) result
  = [point_latest_of (k, r)]
  /\ filter (fun row => pl_point_id row = mk_point_id k) result'
     = filter (fun row => pl_point_id row = mk_point_id k) result.
Proof.
  intros Hview Hview' Hrow Hsole.
  rewrite (v_point_latest_sole_maximum_one db result k r) by assumption.
  rewrite (v_point_latest_sole_maximum_one db result' k r) by assumption.
  split; reflexivity.
Qed.

(** The rows of a two-row table, in either order. *)
Lemma two_rows_scan (t : gmap measurement_key measurement_row) (a b : measurement) :
  map_to_list t = [a; b] \/ map_to_list t = [b; a] ->
  [a; b] ≡ₚ map_to_list t /\ [b; a] ≡ₚ map_to_list t.
Proof.
  intros [-> | ->]; split; first [reflexivity | apply Permutation_swap].
Qed.

Lemma tied_readings_scan :
  [(reading_key, reading 18); (annex_key, reading 21)]
    ≡ₚ map_to_list (measurements tied_readings)
  /\ [(annex_key, reading 21); (reading_key, reading 18)]
       ≡ₚ map_to_list (measurements tied_readings).
Proof.
  apply two_rows_scan. vm_compute. auto.
Qed.

(** C6, as stated, fails: [tied_readings] holds two measurements of one
    point with one timestamp and different values, and both the row with
    value 18 and the row with value 21 are results of evaluating the view
    over it. *)
Lemma v_point_latest_tie_undetermined :
  v_point_latest tied_readings [point_latest_of (reading_key, reading 18)]
  /\ v_point_latest tied_readings [point_latest_of (annex_key, reading 21)]
  /\ mk_point_id reading_key = mk_point_id annex_key
  /\ mk_ts_utc reading_key = mk_ts_utc annex_key
  /\ [point_latest_of (reading_key, reading 18)]
     <> [point_latest_of (annex_key, reading 21)].
Proof.
  destruct tied_readings_scan as [Hscan Hscan'].
  split; [| split; [| split; [reflexivity | split; [reflexivity | discriminate]]]].
  - exists [(reading_key, reading 18); (annex_key, reading 21)].
    split; [exact Hscan |]. split; [| reflexivity].
    apply SSorted_cons; [repeat constructor |].
    constructor; [| constructor]. right. split; [reflexivity |]. simpl. lia.
  - exists [(annex_key, reading 21); (reading_key, reading 18)].
    split; [exact Hscan' |]. split; [| reflexivity].
    apply SSorted_cons; [repeat constructor |].
    constructor; [| constructor]. right. split; [reflexivity |]. simpl. lia.
Qed.

Lemma two_readings_scan :
  [(later_key, reading 21); (reading_key, reading 18)]
    ≡ₚ map_to_list (measurements two_readings).
Proof.
  apply two_rows_scan. vm_compute. auto.
Qed.

Lemma two_readings_view :
  v_point_latest two_readings [point_latest_of (later_key, reading 21)].
Proof.
  exists [(later_key, reading 21); (reading_key, reading 18)].
  split; [exact two_readings_scan |]. split; [| reflexivity].
  apply SSorted_cons; [repeat constructor |].
  constructor; [| constructor]. right. split; [reflexivity |]. simpl. lia.
Qed.

Lemma two_readings_sole_maximum :
  forall k' r', measurements two_readings !! k' = Some r' ->
    mk_point_id k' = mk_point_id later_key -> k' <> later_key ->
    mk_ts_utc k' < mk_ts_utc later_key.
Proof.
  intros k' r' Hrow _ Hne.
  apply elem_of_map_to_list in Hrow. rewrite <- two_readings_scan in Hrow.
  apply list_elem_of_In in Hrow. simpl in Hrow.
  destruct Hrow as [Heq | [Heq | []]]; inversion Heq; subst.
  - congruence.
  - simpl. lia.
Qed.

Lemma v_point_latest_sole_maximum_witness :
  filter (fun row => pl_point_id row = "pt-supply-temp")
    [point_latest_of (later_key, reading 21)]
  = [point_latest_of (later_key, reading 21)].
Proof.
  apply (v_point_latest_sole_maximum two_readings
           [point_latest_of (later_key, reading 21)]
           [point_latest_of (later_key, reading 21)]
           later_key (reading 21)
           two_readings_view two_readings_view eq_refl
           two_readings_sole_maximum).
Defined.

Lemma point_id_ts_desc_transitive : Transitive point_id_ts_desc.
Proof.
  unfold point_id_ts_desc.
  intros a b c [Hab | [Hab Hts]] [Hbc | [Hbc Hts']].
  - left. eapply text_lt_trans; eassumption.
  - left. rewrite <- Hbc. assumption.
  - left. rewrite Hab. assumption.
  - right. split; [congruence | lia].
Qed.

Lemma point_id_ts_desc_total : Total point_id_ts_desc.
Proof.
  unfold point_id_ts_desc, text_lt. intros a b.
  destruct (String.compare (mk_point_id a.1) (mk_point_id b.1)) eqn:Hcmp.
  - apply OrderedTypeEx.String_as_OT.cmp_eq in Hcmp.
    destruct (Z.le_ge_cases (mk_ts_utc a.1) (mk_ts_utc b.1)); [right | left];
      right; split; solve [congruence | lia].
  - left. left. reflexivity.
  - right. left.
    pose proof (OrderedTypeEx.String_as_OT.cmp_antisym
                  (mk_point_id b.1) (mk_point_id a.1)) as Hanti.
    unfold OrderedTypeEx.String_as_OT.cmp in Hanti.
    rewrite Hanti, Hcmp. reflexivity.
Qed.

(** The view can always be evaluated. *)
Lemma v_point_latest_evaluates (db : database) :
  exists result, v_point_latest db result.
Proof.
  eexists. exists (merge_sort point_id_ts_desc (map_to_list (measurements db))).
  split; [apply merge_sort_Permutation |].
  split; [| reflexivity].
  apply (@StronglySorted_merge_sort _ point_id_ts_desc _
           point_id_ts_desc_transitive point_id_ts_desc_total).
Qed.

(** ** Deleting a site *)

Lemma on_delete_cascade `{Countable K} {A : Type}
    (references_deleted : K * A -> bool) (child : gmap K A) :
  on_delete CASCADE references_deleted child
  = Some (filter (fun kv => references_deleted kv = false) child).
Proof. reflexivity. Qed.

Lemma deleted_from_false `{Countable K} {A : Type} (before after : gmap K A) (k : K) :
  deleted_from before after k = false ->
  is_Some (before !! k) -> is_Some (after !! k).
Proof.
  unfold deleted_from. intros Hgone Hbefore.
  apply bool_decide_eq_false in Hgone.
  destruct (after !! k) eqn:Hafter; [eauto |].
  destruct Hgone. split; [assumption | reflexivity].
Qed.

(** C8. Deleting a registered site succeeds through the CASCADE actions of
    the foreign keys alone and leaves no site row for it and no row of
    [devices], [points], [measurements] or [device_state] with its site id;
    no remaining point or device-state row refers to a device that was
    deleted, and no remaining measurement to a point that was deleted.
    Rows are only removed, and the devices of other sites are kept. *)
Theorem delete_site_cascades (s : string) (db : database) (site : site_row) :
  sites db !! s = Some site ->
  exists db',
    delete_site s db = Some db'
    /\ sites db' !! s = None
    /\ (forall id row, devices db' !! id = Some row -> dev_site_id row <> s)
    /\ (forall id row, points db' !! id = Some row -> pt_site_id row <> s)
    /\ (forall k row, measurements db' !! k = Some row -> mk_site_id k <> s)
    /\ (forall id row, device_state db' !! id = Some row -> ds_site_id row <> s)
    /\ (forall id row d, points db' !! id = Some row -> pt_device_id row = Some d ->
          is_Some (devices db !! d) -> is_Some (devices db' !! d))
    /\ (forall id row, device_state db' !! id = Some row ->
          is_Some (devices db !! id) -> is_Some (devices db' !! id))
    /\ (forall k row, measurements db' !! k = Some row ->
          is_Some (points db !! mk_point_id k) ->
          is_Some (points db' !! mk_point_id k))
    /\ (sites db' ⊆ sites db /\ devices db' ⊆ devices db /\ points db' ⊆ points db
        /\ measurements db' ⊆ measurements db
        /\ device_state db' ⊆ device_state db)
    /\ (forall s' row, s' <> s -> sites db !! s' = Some row ->
          sites db' !! s' = Some row)
    /\ (forall id row, devices db !! id = Some row -> dev_site_id row <> s ->
          devices db' !! id = Some row).
Proof.
  intros Hsite. unfold delete_site. rewrite Hsite.
  unfold fk_devices_site_id, fk_points_site_id, fk_points_device_id,
    fk_measurements_site_id, fk_measurements_point_id,
    fk_device_state_device_id, fk_device_state_site_id.
  rewrite !on_delete_cascade. simpl.
  eexists. split; [reflexivity |]. simpl.
  split; [apply lookup_delete_eq |].
  split.
  { intros id row Hrow. apply map_lookup_filter_Some in Hrow as [_ Hkeep].
    simpl in Hkeep. apply String.eqb_neq. exact Hkeep. }
  split.
  { intros id row Hrow. apply map_lookup_filter_Some in Hrow as [Hrow _].
    apply map_lookup_filter_Some in Hrow as [_ Hkeep].
    simpl in Hkeep. apply String.eqb_neq. exact Hkeep. }
  split.
  { intros k row Hrow. apply map_lookup_filter_Some in Hrow as [Hrow _].
    apply map_lookup_filter_Some in Hrow as [_ Hkeep].
    simpl in Hkeep. apply String.eqb_neq. exact Hkeep. }
  split.
  { intros id row Hrow. apply map_lookup_filter_Some in Hrow as [_ Hkeep].
    simpl in Hkeep. apply String.eqb_neq. exact Hkeep. }
  split.
  { intros id row d Hrow Hdev Hbefore.
    apply map_lookup_filter_Some in Hrow as [_ Hkeep].
    simpl in Hkeep. rewrite Hdev in Hkeep. simpl in Hkeep.
    eapply deleted_from_false; eassumption. }
  split.
  { intros id row Hrow Hbefore.
    apply map_lookup_filter_Some in Hrow as [Hrow _].
    apply map_lookup_filter_Some in Hrow as [_ Hkeep]. simpl in Hkeep.
    eapply deleted_from_false; eassumption. }
  split.
  { intros k row Hrow Hbefore.
    apply map_lookup_filter_Some in Hrow as [_ Hkeep]. simpl in Hkeep.
    eapply deleted_from_false; eassumption. }
  split.
  { split; [apply delete_subseteq |].
    split; [apply map_filter_subseteq |].
    split; [etrans; apply map_filter_subseteq |].
    split; etrans; apply map_filter_subseteq. }
  split.
  { intros s' row Hne Hrow. rewrite lookup_delete_ne by congruence. exact Hrow. }
  intros id row Hrow Hne. apply map_lookup_filter_Some.
  split; [exact Hrow |]. simpl. apply String.eqb_neq. exact Hne.
Qed.

(** Deleting the test building from [tied_readings]. *)
Lemma delete_site_cascades_witness :
  exists db',
    delete_site "test-building" tied_readings = Some db'
    /\ sites db' !! "test-building" = None
    /\ (forall id row, devices db' !! id = Some row ->
          dev_site_id row <> "test-building")
    /\ (forall k row, measurements db' !! k = Some row ->
          mk_site_id k <> "test-building").
Proof.
  destruct (delete_site_cascades "test-building" tied_readings test_building)
    as (db' & Hrun & Hsite & Hdevs & _ & Hms & _).
  - reflexivity.
  - exists db'. repeat split; assumption.
Defined.

Lemma stale_devices_listing_spec_witness :
  (exists r, r ∈ stale_devices_listing 200000000 fleet
             /\ sr_device_id r = "hvac-test-001" /\ 120 * 1000000 < sr_age r)
  /\ ~ (exists r, r ∈ stale_devices_listing 200000000 fleet
                  /\ sr_device_id r = "hvac-test-002").
Proof.
  destruct (stale_devices_listing_spec 200000000 fleet) as [Hdevice _].
  split.
  - apply (Hdevice "hvac-test-001" (seen_at 79000000)); reflexivity.
  - apply (Hdevice "hvac-test-002" (seen_at 81000000)); reflexivity.
Defined.

(** * Further properties *)

(** ** The environment and the connection *)

(** X1. The handler reads its configuration before it looks at the event:
    when one of DB_HOST, DB_NAME, DB_USER, DB_PASSWORD is unset, it answers
    every event with the internal-server-error response, also a single
    record without identifiers, which gets no validation error then.  The
    message is the KeyError of the first unset variable in the order
    DB_HOST, DB_NAME, DB_USER, DB_PASSWORD; one error record is logged and
    nothing is committed.  DB_PORT plays no part: set or unset, the
    response is the same. *)
Theorem unconfigured_is_internal_error (w : world) (ev : event) :
  DB_HOST (w_environ w) = None \/ DB_NAME (w_environ w) = None
  \/ DB_USER (w_environ w) = None \/ DB_PASSWORD (w_environ w) = None ->
  exists key,
    returned (lambda_handler w ev) = internal_server_error (KeyError key)
    /\ returned (lambda_handler w ev) <> validation_error
    /\ committed (lambda_handler w ev) = w_db w
    /\ logged (lambda_handler w ev) = [error_updating (KeyError key)]
    /\ (DB_HOST (w_environ w) = None -> key = "DB_HOST")
    /\ (DB_HOST (w_environ w) <> None -> DB_NAME (w_environ w) = None ->
        key = "DB_NAME")
    /\ (DB_HOST (w_environ w) <> None -> DB_NAME (w_environ w) <> None ->
        DB_USER (w_environ w) = None -> key = "DB_USER")
    /\ (DB_HOST (w_environ w) <> None -> DB_NAME (w_environ w) <> None ->
        DB_USER (w_environ w) <> None -> key = "DB_PASSWORD")
    /\ (forall db_port,
          lambda_handler
            {| w_environ :=
                 {| DB_HOST := DB_HOST (w_environ w); DB_PORT := db_port;
                    DB_NAME := DB_NAME (w_environ w);
                    DB_USER := DB_USER (w_environ w);
                    DB_PASSWORD := DB_PASSWORD (w_environ w) |};
               w_accepts := w_accepts w; w_db := w_db w; w_now := w_now w;
               w_utcnow := w_utcnow w |} ev
          = lambda_handler w ev).
Proof.
  intros Hunset. unfold lambda_handler, read_environ. simpl.
  destruct (DB_HOST (w_environ w)) as [db_host |] eqn:Hhost;
    [| exists "DB_HOST"; simpl; repeat split; (congruence || discriminate)].
  destruct (DB_NAME (w_environ w)) as [db_name |] eqn:Hname;
    [| exists "DB_NAME"; simpl; repeat split; (congruence || discriminate)].
  destruct (DB_USER (w_environ w)) as [db_user |] eqn:Huser;
    [| exists "DB_USER"; simpl; repeat split; (congruence || discriminate)].
  destruct (DB_PASSWORD (w_environ w)) as [db_password |] eqn:Hpassword;
    [| exists "DB_PASSWORD"; simpl; repeat split; (congruence || discriminate)].
  destruct Hunset as [H | [H | [H | H]]]; discriminate.
Qed.

Lemma unconfigured_is_internal_error_witness :
  exists key,
    returned
      (lambda_handler
         {| w_environ :=
              {| DB_HOST := Some "localhost"; DB_PORT := None;
                 DB_NAME := Some "hvacdb"; DB_USER := None;
                 DB_PASSWORD := None |};
            w_accepts := fun _ => true; w_db := seeded; w_now := 1000000;
            w_utcnow := 1000000 |}
         {| ev_devices := None; ev_record := no_device_id |})
    = internal_server_error (KeyError key)
    /\ key = "DB_USER".
Proof.
  destruct (unconfigured_is_internal_error
              {| w_environ :=
                   {| DB_HOST := Some "localhost"; DB_PORT := None;
                      DB_NAME := Some "hvacdb"; DB_USER := None;
                      DB_PASSWORD := None |};
                 w_accepts := fun _ => true; w_db := seeded;
                 w_now := 1000000; w_utcnow := 1000000 |}
              {| ev_devices := None; ev_record := no_device_id |})
    as (key & Hret & _ & _ & _ & _ & _ & Huser & _).
  - right. right. left. reflexivity.
  - exists key. split; [exact Hret |].
    apply Huser; [discriminate | discriminate | reflexivity].
Defined.

(** X2. When the server refuses the connection, a single record without a
    device id or a site id still gets the validation-error response, since
    that check comes before the connection; every other event gets the
    database-error response with the OperationalError.  Nothing is
    committed either way. *)
Theorem refused_connection (w : world) (ev : event) (args : connect_args) :
  read_environ (w_environ w) = inr args ->
  w_accepts w args = false ->
  returned (lambda_handler w ev)
  = (match ev_devices ev with
     | None =>
         if well_formed (ev_record ev) then database_error OperationalError
         else validation_error
     | Some _ => database_error OperationalError
     end)
  /\ committed (lambda_handler w ev) = w_db w.
Proof.
  intros Henv Hacc. unfold lambda_handler. rewrite Henv.
  destruct (ev_devices ev) as [ds |] eqn:Hev.
  - rewrite (devices_to_update_batch ev ds Hev), Hacc. split; reflexivity.
  - rewrite (devices_to_update_single ev Hev).
    destruct (well_formed (ev_record ev)); [rewrite Hacc |]; split; reflexivity.
Qed.

(** ** What an upsert and an invocation leave alone *)

Lemma upsert_sql_frame now device_id site_id d tx0 tx' :
  upsert_sql now device_id site_id d tx0 = inr tx' ->
  forall other, other <> device_id ->
    device_state tx' !! other = device_state tx0 !! other.
Proof.
  unfold upsert_sql. intros Hrun other Hne.
  repeat match type of Hrun with
         | (if ?b then _ else _) = _ => destruct b; [discriminate |]
         end.
  destruct (device_state tx0 !! device_id) as [stored |].
  - inversion Hrun; subst; simpl. apply lookup_insert_ne. congruence.
  - destruct (devices tx0 !! device_id); [| discriminate].
    destruct (sites tx0 !! site_id); [| discriminate].
    inversion Hrun; subst; simpl. apply lookup_insert_ne. congruence.
Qed.

(** The row an upsert leaves under its device id. *)
Lemma upsert_sql_row now device_id site_id d tx0 tx' :
  upsert_sql now device_id site_id d tx0 = inr tx' ->
  storable d = true
  /\ device_state tx' !! device_id
     = Some (match device_state tx0 !! device_id with
             | Some stored => do_update_set now (excluded_row now site_id d) stored
             | None => excluded_row now site_id d
             end)
  /\ (device_state tx0 !! device_id = None ->
      is_Some (devices tx0 !! device_id) /\ is_Some (sites tx0 !! site_id)).
Proof.
  unfold upsert_sql, storable. intros Hrun.
  destruct (int4_check (hb_queue_depth d)); [| discriminate].
  destruct (int4_check (hb_poll_interval_s d)); [| discriminate].
  destruct (status_check (hb_status d)); [| discriminate].
  simpl in Hrun. split; [reflexivity |].
  destruct (device_state tx0 !! device_id) as [stored |].
  - inversion Hrun; subst; simpl. split; [apply lookup_insert_eq | discriminate].
  - destruct (devices tx0 !! device_id); [| discriminate].
    destruct (sites tx0 !! site_id); [| discriminate].
    inversion Hrun; subst; simpl. split; [apply lookup_insert_eq | eauto].
Qed.

Lemma well_formed_ids_cons_True d rest device_id :
  well_formed d = true -> hb_device_id d = Some device_id ->
  well_formed_ids (d :: rest) = device_id :: well_formed_ids rest.
Proof.
  intros Hwf Hd. unfold well_formed_ids.
  rewrite filter_cons_True by assumption. simpl. rewrite Hd. reflexivity.
Qed.

Lemma well_formed_ids_cons_False d rest :
  well_formed d = false -> well_formed_ids (d :: rest) = well_formed_ids rest.
Proof.
  intros Hwf. unfold well_formed_ids.
  rewrite filter_cons_False by (rewrite Hwf; discriminate). reflexivity.
Qed.

Lemma for_device_data_frame now ds : forall st st' other,
  for_device_data now ds st = inr st' ->
  other ∉ well_formed_ids ds ->
  device_state (tx st') !! other = device_state (tx st) !! other.
Proof.
  induction ds as [| d rest IH]; intros st st' other Hrun Hother.
  - simpl in Hrun. inversion Hrun; subst. reflexivity.
  - destruct (well_formed d) eqn:Hwf.
    + destruct (well_formed_ids_of d Hwf) as (device_id & site_id & Hd & Hs).
      rewrite (well_formed_ids_cons_True d rest device_id Hwf Hd) in Hother.
      rewrite (for_device_data_execute now d _ _ device_id site_id) in Hrun
        by assumption.
      destruct (upsert_sql now device_id site_id d (tx st)) as [e | tx'] eqn:Hup;
        [discriminate |].
      rewrite (IH _ _ other Hrun) by set_solver. simpl.
      eapply upsert_sql_frame; [exact Hup | set_solver].
    + rewrite (well_formed_ids_cons_False d rest Hwf) in Hother.
      rewrite for_device_data_skip in Hrun by assumption.
      apply (IH _ _ other Hrun Hother).
Qed.

(** X3. Whatever the event and however the call ends, an invocation changes
    no row of [sites], [devices], [points] or [measurements], deletes no row
    of [device_state], and leaves the row of every device that no processed
    record names with both identifiers exactly as it was. *)
Theorem lambda_handler_frame (w : world) (ev : event) :
  sites (committed (lambda_handler w ev)) = sites (w_db w)
  /\ devices (committed (lambda_handler w ev)) = devices (w_db w)
  /\ points (committed (lambda_handler w ev)) = points (w_db w)
  /\ measurements (committed (lambda_handler w ev)) = measurements (w_db w)
  /\ dom (device_state (w_db w)) ⊆ dom (device_state (committed (lambda_handler w ev)))
  /\ (forall device_id,
        (forall ds, devices_to_update ev = inr ds -> device_id ∉ well_formed_ids ds) ->
        device_state (committed (lambda_handler w ev)) !! device_id
        = device_state (w_db w) !! device_id).
Proof.
  unfold lambda_handler.
  destruct (read_environ (w_environ w)) as [e | args];
    [simpl; repeat split; reflexivity |].
  destruct (devices_to_update ev) as [early | ds] eqn:Hds;
    [simpl; repeat split; reflexivity |].
  destruct (w_accepts w args); [| simpl; repeat split; reflexivity].
  destruct (for_device_data _ _ _) as [[e log] | st] eqn:Hrun;
    [simpl; repeat split; reflexivity |].
  simpl.
  pose proof (for_device_data_completed _ _ _ _ Hrun)
    as (_ & Hdom & Hsites & Hdevs & Hpts & Hms & _).
  simpl in *. repeat (split; [assumption |]).
  split; [rewrite Hdom; set_solver |].
  intros device_id Hother.
  apply (for_device_data_frame _ _ _ _ device_id Hrun). auto.
Qed.

(** ** The constraints of device_state as invariants *)

Lemma upsert_sql_references now device_id site_id d tx0 tx' :
  device_state_references tx0 ->
  upsert_sql now device_id site_id d tx0 = inr tx' ->
  device_state_references tx'.
Proof.
  intros Hinv Hrun id row Hrow.
  pose proof (upsert_sql_tables _ _ _ _ _ _ Hrun) as (Hsites & Hdevs & _).
  rewrite Hsites, Hdevs.
  destruct (decide (id = device_id)) as [-> | Hne].
  - pose proof (upsert_sql_row _ _ _ _ _ _ Hrun) as (_ & Hnew & Hfk).
    rewrite Hnew in Hrow. inversion Hrow as [Heq]. clear Hrow.
    destruct (device_state tx0 !! device_id) as [stored |] eqn:Hold.
    + simpl. apply (Hinv device_id stored Hold).
    + simpl. apply Hfk. reflexivity.
  - rewrite (upsert_sql_frame _ _ _ _ _ _ Hrun id Hne) in Hrow.
    apply (Hinv id row Hrow).
Qed.

Lemma for_device_data_references now ds : forall st st',
  device_state_references (tx st) ->
  for_device_data now ds st = inr st' ->
  device_state_references (tx st').
Proof.
  induction ds as [| d rest IH]; intros st st' Hinv Hrun.
  - simpl in Hrun. inversion Hrun; subst. exact Hinv.
  - destruct (well_formed d) eqn:Hwf.
    + destruct (well_formed_ids_of d Hwf) as (device_id & site_id & Hd & Hs).
      rewrite (for_device_data_execute now d _ _ device_id site_id) in Hrun
        by assumption.
      destruct (upsert_sql now device_id site_id d (tx st)) as [e | tx'] eqn:Hup;
        [discriminate |].
      eapply IH; [| exact Hrun]. simpl.
      eapply upsert_sql_references; eassumption.
    + rewrite for_device_data_skip in Hrun by assumption.
      eapply IH; [| exact Hrun]. exact Hinv.
Qed.

(** X4. The two foreign keys of [device_state] are kept by every
    invocation: if each row names a registered device and a registered site
    before the call, so does each row of the committed state. *)
Theorem lambda_handler_keeps_references (w : world) (ev : event) :
  device_state_references (w_db w) ->
  forall device_id row,
    device_state (committed (lambda_handler w ev)) !! device_id = Some row ->
    is_Some (devices (committed (lambda_handler w ev)) !! device_id)
    /\ is_Some (sites (committed (lambda_handler w ev)) !! ds_site_id row).
Proof.
  intros Hinv. change (device_state_references (committed (lambda_handler w ev))).
  unfold lambda_handler.
  destruct (read_environ (w_environ w)) as [e | args]; [exact Hinv |].
  destruct (devices_to_update ev) as [early | ds]; [exact Hinv |].
  destruct (w_accepts w args); [| exact Hinv].
  destruct (for_device_data _ _ _) as [[e log] | st] eqn:Hrun; [exact Hinv |].
  simpl. eapply for_device_data_references; [| exact Hrun]. exact Hinv.
Qed.

(** X5. The CHECK constraint on [status] is kept by every invocation: if
    every stored status is NULL or one of 'ready', 'degraded', 'error' before
    the call, the same holds of the committed state, whatever statuses the
    event carries. *)
Theorem lambda_handler_keeps_status_enumeration (w : world) (ev : event) :
  statuses_checked (w_db w) ->
  forall device_id row,
    device_state (committed (lambda_handler w ev)) !! device_id = Some row ->
    ds_status row = None \/ ds_status row = Some "ready"
    \/ ds_status row = Some "degraded" \/ ds_status row = Some "error".
Proof.
  intros Hinv device_id row Hrow.
  pose proof (lambda_handler_statuses_checked w ev Hinv device_id row Hrow) as Hcheck.
  destruct (ds_status row) as [s |]; [| auto]. simpl in Hcheck.
  apply orb_true_iff in Hcheck as [Hcheck | Hcheck];
    [apply orb_true_iff in Hcheck as [Hcheck | Hcheck] |];
    apply String.eqb_eq in Hcheck; subst; auto.
Qed.

(** ** More on the upsert statement *)

(** X6. For a device that has a row, the site id of the heartbeat is not
    used: the upsert succeeds whatever site the heartbeat names, registered
    or not, and the row keeps the site id it had. *)
Theorem conflict_keeps_site_id
    (now : timestamptz) (device_id site_id : string) (d : heartbeat)
    (tx0 : database) (stored : device_state_row) :
  device_state tx0 !! device_id = Some stored ->
  storable d = true ->
  exists tx' row,
    upsert_sql now device_id site_id d tx0 = inr tx'
    /\ device_state tx' !! device_id = Some row
    /\ ds_site_id row = ds_site_id stored
    /\ sites tx' = sites tx0.
Proof.
  intros Hrow Hst. eexists _, _.
  split; [apply upsert_sql_conflict; eassumption |].
  simpl. split; [apply lookup_insert_eq |]. split; reflexivity.
Qed.

Lemma COALESCE_assoc {A : Type} (x y z : option A) :
  COALESCE (COALESCE x y) z = COALESCE x (COALESCE y z).
Proof. destruct x; reflexivity. Qed.

Lemma COALESCE_idemp {A : Type} (x y : option A) :
  COALESCE x (COALESCE x y) = COALESCE x y.
Proof. destruct x; reflexivity. Qed.

Lemma int4_check_COALESCE (x y : option Z) :
  int4_check x = true -> int4_check y = true -> int4_check (COALESCE x y) = true.
Proof. destruct x; simpl; auto. Qed.

Lemma status_check_COALESCE (x y : option string) :
  status_check x = true -> status_check y = true ->
  status_check (COALESCE x y) = true.
Proof. destruct x; simpl; auto. Qed.

Lemma storable_merge_heartbeat (later_hb earlier_hb : heartbeat) :
  storable later_hb = true -> storable earlier_hb = true ->
  storable (merge_heartbeat later_hb earlier_hb) = true.
Proof.
  intros Hl He.
  apply storable_checks in Hl as (Hq & Hp & Hc).
  apply storable_checks in He as (Hq' & Hp' & Hc').
  unfold storable, merge_heartbeat. simpl.
  rewrite int4_check_COALESCE, int4_check_COALESCE, status_check_COALESCE
    by assumption.
  reflexivity.
Qed.

(** X7. Two heartbeats of a device in sequence amount to one: if the upsert
    of [d1] at time [now1] succeeds, the upsert of a storable [d2] at time
    [now2] on its result gives what a single upsert at [now2] gives on the
    original state for the record that takes each field from [d2] when [d2]
    has it and from [d1] otherwise (and the site id of the first). *)
Theorem upserts_merge
    (now1 now2 : timestamptz) (device_id site1 site2 : string)
    (d1 d2 : heartbeat) (tx0 tx1 : database) :
  upsert_sql now1 device_id site1 d1 tx0 = inr tx1 ->
  storable d2 = true ->
  upsert_sql now2 device_id site2 d2 tx1
  = upsert_sql now2 device_id site1 (merge_heartbeat d2 d1) tx0.
Proof.
  intros Hfirst Hst2.
  pose proof (upsert_sql_row _ _ _ _ _ _ Hfirst) as (Hst1 & Hrow1 & Hfk).
  pose proof (upsert_sql_tables _ _ _ _ _ _ Hfirst) as (Hsites & Hdevs & Hpts & Hms & _).
  rewrite (upsert_sql_conflict now2 device_id site2 d2 tx1 _ Hst2 Hrow1).
  pose proof (storable_merge_heartbeat d2 d1 Hst2 Hst1) as Hst.
  assert (forall t, with_device_state t tx1 = with_device_state t tx0) as Hwith.
  { intros t. unfold with_device_state. rewrite Hsites, Hdevs, Hpts, Hms.
    reflexivity. }
  assert (forall row, <[device_id := row]> (device_state tx1)
                      = <[device_id := row]> (device_state tx0)) as Hins.
  { intros row. apply map_eq. intros id.
    destruct (decide (id = device_id)) as [-> | Hne].
    - rewrite !lookup_insert_eq. reflexivity.
    - rewrite !lookup_insert_ne by congruence.
      eapply upsert_sql_frame; eassumption. }
  rewrite Hwith, Hins.
  destruct (device_state tx0 !! device_id) as [stored |] eqn:Hold.
  - rewrite (upsert_sql_conflict now2 device_id site1 _ tx0 stored Hst Hold).
    do 3 f_equal. unfold do_update_set, excluded_row, merge_heartbeat. simpl.
    rewrite !COALESCE_assoc. reflexivity.
  - destruct (Hfk eq_refl) as [[dev Hdev] [site Hsite]].
    rewrite (upsert_sql_insert now2 device_id site1 _ tx0 dev site Hst Hold Hdev Hsite).
    reflexivity.
Qed.

(** X8. Delivering the same heartbeat again only moves the two timestamps:
    after a successful upsert, a second upsert of the same record succeeds
    and leaves the row of the first with [last_seen_ts] and [updated_at] set
    to the new time; at the same time it changes nothing. *)
Theorem redelivery_moves_timestamps_only
    (now1 now2 : timestamptz) (device_id site_id : string) (d : heartbeat)
    (tx0 tx1 : database) :
  upsert_sql now1 device_id site_id d tx0 = inr tx1 ->
  exists row1,
    device_state tx1 !! device_id = Some row1
    /\ upsert_sql now2 device_id site_id d tx1
       = inr (with_device_state
                (<[device_id := touched_at now2 row1]> (device_state tx1)) tx1)
    /\ upsert_sql now1 device_id site_id d tx1 = inr tx1.
Proof.
  intros Hfirst.
  pose proof (upsert_sql_row _ _ _ _ _ _ Hfirst) as (Hst & Hrow1 & _).
  eexists. split; [exact Hrow1 |].
  assert (forall now,
            upsert_sql now device_id site_id d tx1
            = inr (with_device_state
                     (<[device_id :=
                          touched_at now
                            match device_state tx0 !! device_id with
                            | Some stored =>
                                do_update_set now1 (excluded_row now1 site_id d) stored
                            | None => excluded_row now1 site_id d
                            end]> (device_state tx1)) tx1)) as Hagain.
  { intros now.
    rewrite (upsert_sql_conflict now device_id site_id d tx1 _ Hst Hrow1).
    do 3 f_equal.
    destruct (device_state tx0 !! device_id) as [stored |];
      unfold touched_at, do_update_set, excluded_row; simpl;
      rewrite ?COALESCE_idemp; f_equal;
      match goal with |- COALESCE ?x ?x = ?x => destruct x; reflexivity end. }
  split; [apply Hagain |].
  rewrite Hagain. f_equal.
  assert (touched_at now1
            match device_state tx0 !! device_id with
            | Some stored => do_update_set now1 (excluded_row now1 site_id d) stored
            | None => excluded_row now1 site_id d
            end
          = match device_state tx0 !! device_id with
            | Some stored => do_update_set now1 (excluded_row now1 site_id d) stored
            | None => excluded_row now1 site_id d
            end) as ->.
  { destruct (device_state tx0 !! device_id); reflexivity. }
  rewrite (insert_id _ _ _ Hrow1).
  destruct tx1; reflexivity.
Qed.

(** ** Unregistered devices *)

Lemma upsert_sql_unregistered now device_id site_id d tx0 :
  device_state tx0 !! device_id = None ->
  devices tx0 !! device_id = None ->
  exists e, upsert_sql now device_id site_id d tx0 = inl e.
Proof.
  intros Hrow Hdev. unfold upsert_sql.
  destruct (negb (int4_check (hb_queue_depth d))); [eauto |].
  destruct (negb (int4_check (hb_poll_interval_s d))); [eauto |].
  destruct (negb (status_check (hb_status d))); [eauto |].
  rewrite Hrow, Hdev. eauto.
Qed.

Lemma for_device_data_unregistered now ds : forall st d device_id,
  d ∈ ds -> well_formed d = true -> hb_device_id d = Some device_id ->
  device_state (tx st) !! device_id = None ->
  devices (tx st) !! device_id = None ->
  exists e log, for_device_data now ds st = inl (e, log).
Proof.
  induction ds as [| d0 rest IH]; intros st d device_id Hin Hwf Hd Hrow Hdev;
    [inversion Hin |].
  destruct (well_formed d0) eqn:Hwf0.
  - destruct (well_formed_ids_of d0 Hwf0) as (id0 & site0 & Hd0 & Hs0).
    rewrite (for_device_data_execute now d0 _ _ id0 site0) by assumption.
    destruct (upsert_sql now id0 site0 d0 (tx st)) as [e | tx'] eqn:Hup;
      [eauto |].
    assert (id0 <> device_id) as Hne.
    { intros ->.
      destruct (upsert_sql_unregistered now device_id site0 d0 (tx st) Hrow Hdev)
        as [e He].
      congruence. }
    apply elem_of_cons in Hin as [-> | Hin]; [congruence |].
    apply (IH _ d device_id Hin Hwf Hd); simpl.
    + rewrite (upsert_sql_frame _ _ _ _ _ _ Hup device_id) by congruence.
      exact Hrow.
    + pose proof (upsert_sql_tables _ _ _ _ _ _ Hup) as (_ & Hdevs & _).
      rewrite Hdevs. exact Hdev.
  - rewrite for_device_data_skip by assumption.
    apply elem_of_cons in Hin as [-> | Hin]; [congruence |].
    apply (IH _ d device_id Hin Hwf Hd); assumption.
Qed.

(** X9. A heartbeat for a device that is not in [devices] (and so has no
    [device_state] row) cannot be stored: if any record of the event carries
    both identifiers and names such a device, the call answers with the
    database-error response and commits nothing, the records of registered
    devices in the same batch included. *)
Theorem unregistered_device_fails_the_call
    (w : world) (ev : event) (args : connect_args) (ds : list heartbeat)
    (d : heartbeat) (device_id : string) :
  read_environ (w_environ w) = inr args ->
  w_accepts w args = true ->
  devices_to_update ev = inr ds ->
  d ∈ ds ->
  well_formed d = true ->
  hb_device_id d = Some device_id ->
  devices (w_db w) !! device_id = None ->
  device_state (w_db w) !! device_id = None ->
  exists e,
    returned (lambda_handler w ev) = database_error e
    /\ committed (lambda_handler w ev) = w_db w.
Proof.
  intros Henv Hacc Hds Hin Hwf Hd Hdev Hrow.
  rewrite (lambda_handler_connected w ev args ds Henv Hds Hacc).
  destruct (for_device_data_unregistered (w_now w) ds
              {| tx := w_db w; updated := []; cur_log := [] |}
              d device_id Hin Hwf Hd Hrow Hdev) as (e & log & ->).
  exists e. split; reflexivity.
Qed.

(** ** The log and the timestamps of a successful call *)

Lemma log_entry_well_formed d device_id :
  well_formed d = true -> hb_device_id d = Some device_id ->
  log_entry d = info_updated device_id.
Proof.
  intros Hwf Hd. unfold log_entry. rewrite Hd, Hwf. reflexivity.
Qed.

Lemma log_entry_skipped d :
  well_formed d = false -> log_entry d = warning_skipping d.
Proof.
  intros Hwf. unfold log_entry. rewrite Hwf.
  destruct (hb_device_id d); reflexivity.
Qed.

Lemma for_device_data_log now ds : forall st st',
  for_device_data now ds st = inr st' ->
  cur_log st' = (cur_log st ++ (log_entry <$> ds))%list.
Proof.
  induction ds as [| d rest IH]; intros st st' Hrun.
  - simpl in Hrun. inversion Hrun; subst. simpl. rewrite app_nil_r. reflexivity.
  - rewrite fmap_cons. destruct (well_formed d) eqn:Hwf.
    + destruct (well_formed_ids_of d Hwf) as (device_id & site_id & Hd & Hs).
      rewrite (for_device_data_execute now d _ _ device_id site_id) in Hrun
        by assumption.
      destruct (upsert_sql now device_id site_id d (tx st)) as [e | tx'];
        [discriminate |].
      rewrite (IH _ _ Hrun). simpl.
      rewrite (log_entry_well_formed d device_id Hwf Hd), <- app_assoc.
      reflexivity.
    + rewrite for_device_data_skip in Hrun by assumption.
      rewrite (IH _ _ Hrun). simpl.
      rewrite (log_entry_skipped d Hwf), <- app_assoc. reflexivity.
Qed.

(** X10. A call that answers 200 has logged exactly one record for each
    record it was given, in the order of the batch: the "updated" line with
    the device id for a record that carries both identifiers, the "skipping"
    warning with the record itself otherwise; so the count of the response
    and the number of warnings add up to the size of the batch. *)
Theorem successful_call_logs_every_record
    (w : world) (ev : event) (ds : list heartbeat) :
  devices_to_update ev = inr ds ->
  statusCode (returned (lambda_handler w ev)) = 200 ->
  logged (lambda_handler w ev) = log_entry <$> ds
  /\ (length (well_formed_ids ds)
      + length (filter (fun d => well_formed d = false) ds))%nat = length ds.
Proof.
  intros Hds Hok. split.
  - revert Hok. unfold lambda_handler.
    destruct (read_environ (w_environ w)) as [e | args]; [discriminate |].
    rewrite Hds.
    destruct (w_accepts w args); [| discriminate].
    destruct (for_device_data _ _ _) as [[e log] | st] eqn:Hrun; [discriminate |].
    intros _. simpl. apply (for_device_data_log _ _ _ _ Hrun).
  - clear. induction ds as [| d rest IH]; [reflexivity |].
    destruct (well_formed d) eqn:Hwf.
    + destruct (well_formed_ids_of d Hwf) as (device_id & site_id & Hd & Hs).
      rewrite (well_formed_ids_cons_True d rest device_id Hwf Hd).
      rewrite filter_cons_False by (rewrite Hwf; discriminate).
      simpl. rewrite IH. reflexivity.
    + rewrite (well_formed_ids_cons_False d rest Hwf).
      rewrite filter_cons_True by assumption.
      simpl. rewrite <- IH. lia.
Qed.

Lemma for_device_data_last_seen now ds : forall st st',
  (forall device_id, device_id ∈ updated st ->
     exists row, device_state (tx st) !! device_id = Some row
                 /\ ds_last_seen_ts row = now /\ ds_updated_at row = now) ->
  for_device_data now ds st = inr st' ->
  forall device_id, device_id ∈ updated st' ->
    exists row, device_state (tx st') !! device_id = Some row
                /\ ds_last_seen_ts row = now /\ ds_updated_at row = now.
Proof.
  induction ds as [| d rest IH]; intros st st' Hinv Hrun.
  - simpl in Hrun. inversion Hrun; subst. exact Hinv.
  - destruct (well_formed d) eqn:Hwf.
    + destruct (well_formed_ids_of d Hwf) as (id0 & site0 & Hd & Hs).
      rewrite (for_device_data_execute now d _ _ id0 site0) in Hrun by assumption.
      destruct (upsert_sql now id0 site0 d (tx st)) as [e | tx'] eqn:Hup;
        [discriminate |].
      eapply IH; [| exact Hrun]. simpl. clear IH Hrun.
      intros device_id Hin.
      destruct (decide (device_id = id0)) as [-> | Hne].
      * pose proof (upsert_sql_row _ _ _ _ _ _ Hup) as (_ & Hrow & _).
        eexists. split; [exact Hrow |].
        destruct (device_state (tx st) !! id0); split; reflexivity.
      * rewrite (upsert_sql_frame _ _ _ _ _ _ Hup device_id Hne).
        apply Hinv. set_solver.
    + rewrite for_device_data_skip in Hrun by assumption.
      eapply IH; [| exact Hrun]. exact Hinv.
Qed.

(** X11. After a call that answers 200, every device listed in
    [updated_devices] has a row whose [last_seen_ts] and [updated_at] are the
    time of the call, and so is absent from the stale-devices listing at
    every time up to 120 seconds after the call. *)
Theorem updated_devices_are_fresh
    (w : world) (ev : event) (n : nat) (updated_devices : list string)
    (ts : timestamptz) (device_id : string) :
  returned (lambda_handler w ev)
  = {| statusCode := 200; resp_body := body_updated n updated_devices ts |} ->
  device_id ∈ updated_devices ->
  (exists row,
     device_state (committed (lambda_handler w ev)) !! device_id = Some row
     /\ ds_last_seen_ts row = w_now w /\ ds_updated_at row = w_now w)
  /\ (forall t, t <= w_now w + 120 * 1000000 ->
        ~ exists r, r ∈ stale_devices_listing t (committed (lambda_handler w ev))
                    /\ sr_device_id r = device_id).
Proof.
  intros Hret Hin.
  assert (exists row,
            device_state (committed (lambda_handler w ev)) !! device_id = Some row
            /\ ds_last_seen_ts row = w_now w /\ ds_updated_at row = w_now w)
    as (row & Hrow & Hseen & Hupd).
  { revert Hret. unfold lambda_handler.
    destruct (read_environ (w_environ w)) as [e | args]; [discriminate |].
    destruct (devices_to_update ev) as [early | ds] eqn:Hds.
    { unfold devices_to_update in Hds.
      destruct (ev_devices ev); [discriminate |].
      destruct (_ || _); inversion Hds; subst. discriminate. }
    destruct (w_accepts w args); [| discriminate].
    destruct (for_device_data _ _ _) as [[e log] | st] eqn:Hrun; [discriminate |].
    simpl. unfold heartbeat_updated. intros [= _ <- _].
    eapply for_device_data_last_seen; [| exact Hrun | exact Hin].
    simpl. intros id Hid. inversion Hid. }
  split; [eauto |].
  intros t Ht (r & Hr & Hid).
  apply elem_of_stale_devices_listing, elem_of_v_devices_stale in Hr
    as (row' & Hrow' & Hage & _).
  rewrite Hid, Hrow in Hrow'. inversion Hrow'; subst row'.
  unfold interval_120_seconds in Hage. lia.
Qed.

(** ** Instances on the sample data *)

Lemma refused_connection_witness :
  returned (lambda_handler (unreachable_world seeded 1000000) single_event)
  = database_error OperationalError
  /\ committed (lambda_handler (unreachable_world seeded 1000000) single_event)
     = seeded.
Proof.
  apply (refused_connection (unreachable_world seeded 1000000) single_event
           local_args eq_refl eq_refl).
Defined.

Lemma after_single_rows device_id row :
  device_state after_single !! device_id = Some row ->
  device_id = "hvac-test-001" /\ row = first_row.
Proof.
  intros Hrow. unfold after_single in Hrow. simpl in Hrow.
  apply lookup_singleton_Some in Hrow as [<- <-].
  split; reflexivity.
Qed.

Lemma after_single_references : device_state_references after_single.
Proof.
  intros device_id row Hrow. apply after_single_rows in Hrow as [-> ->].
  split; eexists; reflexivity.
Qed.

Lemma after_single_statuses_checked : statuses_checked after_single.
Proof.
  intros device_id row Hrow. apply after_single_rows in Hrow as [-> ->].
  reflexivity.
Qed.

Lemma lambda_handler_keeps_references_witness :
  is_Some (devices (committed (lambda_handler (local_world after_single 2000000)
                                 batch_event)) !! "hvac-test-002")
  /\ is_Some (sites (committed (lambda_handler (local_world after_single 2000000)
                                  batch_event)) !! "test-building").
Proof.
  apply (lambda_handler_keeps_references (local_world after_single 2000000)
           batch_event after_single_references "hvac-test-002"
           (excluded_row 2000000 "test-building" record_002)).
  reflexivity.
Defined.

Lemma lambda_handler_keeps_status_enumeration_witness :
  Some "degraded" = None \/ Some "degraded" = Some "ready"
  \/ Some "degraded" = Some "degraded" \/ Some "degraded" = Some "error".
Proof.
  apply (lambda_handler_keeps_status_enumeration
           (local_world after_single 2000000) batch_event
           after_single_statuses_checked "hvac-test-003"
           (excluded_row 2000000 "test-building" record_003)).
  reflexivity.
Defined.

Lemma conflict_keeps_site_id_witness :
  exists tx' row,
    upsert_sql 2000000 "hvac-test-001" "elsewhere" moved_record after_single
    = inr tx'
    /\ device_state tx' !! "hvac-test-001" = Some row
    /\ ds_site_id row = "test-building"
    /\ sites tx' = sites after_single.
Proof.
  apply (conflict_keeps_site_id 2000000 "hvac-test-001" "elsewhere" moved_record
           after_single first_row eq_refl eq_refl).
Defined.

Lemma upserts_merge_witness :
  upsert_sql 2000000 "hvac-test-001" "elsewhere" moved_record after_single
  = upsert_sql 2000000 "hvac-test-001" "test-building"
      (merge_heartbeat moved_record single_record) seeded.
Proof.
  apply (upserts_merge 1000000 2000000 "hvac-test-001" "test-building"
           "elsewhere" single_record moved_record seeded after_single
           eq_refl eq_refl).
Defined.

Lemma redelivery_moves_timestamps_only_witness :
  exists row1,
    device_state after_single !! "hvac-test-001" = Some row1
    /\ upsert_sql 2000000 "hvac-test-001" "test-building" single_record after_single
       = inr (with_device_state
                (<["hvac-test-001" := touched_at 2000000 row1]>
                   (device_state after_single)) after_single)
    /\ upsert_sql 1000000 "hvac-test-001" "test-building" single_record after_single
       = inr after_single.
Proof.
  apply (redelivery_moves_timestamps_only 1000000 2000000 "hvac-test-001"
           "test-building" single_record seeded after_single eq_refl).
Defined.

Lemma unregistered_device_fails_the_call_witness :
  exists e,
    returned (lambda_handler (local_world seeded 1000000) ghost_batch_event)
    = database_error e
    /\ committed (lambda_handler (local_world seeded 1000000) ghost_batch_event)
       = seeded.
Proof.
  apply (unregistered_device_fails_the_call (local_world seeded 1000000)
           ghost_batch_event local_args [record_002; ghost_record]
           ghost_record "hvac-ghost");
    try reflexivity.
  apply list_elem_of_In. simpl. auto.
Defined.

Lemma successful_call_logs_every_record_witness :
  logged (lambda_handler (local_world seeded 1000000) partial_batch_event)
  = [info_updated "hvac-test-002"; warning_skipping no_device_id].
Proof.
  apply (successful_call_logs_every_record (local_world seeded 1000000)
           partial_batch_event [record_002; no_device_id] eq_refl eq_refl).
Defined.

Lemma updated_devices_are_fresh_witness :
  (exists row,
     device_state (committed (lambda_handler (local_world seeded 1000000)
                                batch_event)) !! "hvac-test-003" = Some row
     /\ ds_last_seen_ts row = 1000000 /\ ds_updated_at row = 1000000)
  /\ (forall t, t <= 1000000 + 120 * 1000000 ->
        ~ exists r,
            r ∈ stale_devices_listing t
                  (committed (lambda_handler (local_world seeded 1000000)
                                batch_event))
            /\ sr_device_id r = "hvac-test-003").
Proof.
  apply (updated_devices_are_fresh (local_world seeded 1000000) batch_event
           2 ["hvac-test-002"; "hvac-test-003"] 1000000 "hvac-test-003" eq_refl).
  apply list_elem_of_In. simpl. auto.
Defined.

(** ** More on the views *)

(** DISTINCT ON leaves the kept rows in strictly ascending order of their
    point id. *)
Lemma distinct_on_point_id_sorted rows : forall prev,
  StronglySorted point_id_ts_desc rows ->
  StronglySorted (fun a b : measurement => text_lt (mk_point_id a.1) (mk_point_id b.1))
    (distinct_on_point_id prev rows).
Proof.
  induction rows as [| a rest IH]; intros prev Hsorted; [constructor |].
  pose proof Hsorted as Hsorted'.
  apply StronglySorted_inv in Hsorted' as [Hrest Ha].
  simpl. case_bool_decide as Hprev; [apply IH; assumption |].
  constructor; [apply IH; assumption |].
  apply Forall_forall. intros x Hx.
  apply (distinct_on_point_id_later rest _ Hrest (sorted_head_from a rest Ha) x Hx).
Qed.

(** X12. Every evaluation of v_point_latest, whichever order the rows were
    read in, holds exactly one row for each point that has measurements (so
    the unique index on its point_id can be built), each row is a stored
    measurement with the greatest timestamp of its point, and the rows are
    in strictly ascending order of point id; over an empty [measurements]
    table, as when the migration creates the materialized view, the result
    is empty. *)
Theorem v_point_latest_shape (db : database) (result : list point_latest_row) :
  v_point_latest db result ->
  NoDup (pl_point_id <$> result)
  /\ StronglySorted (fun a b => text_lt (pl_point_id a) (pl_point_id b)) result
  /\ (forall row, row ∈ result ->
        exists k r,
          measurements db !! k = Some r
          /\ row = point_latest_of (k, r)
          /\ forall k' r', measurements db !! k' = Some r' ->
               mk_point_id k' = mk_point_id k -> mk_ts_utc k' <= mk_ts_utc k)
  /\ (forall point_id,
        (exists row, row ∈ result /\ pl_point_id row = point_id)
        <-> (exists k r, measurements db !! k = Some r /\ mk_point_id k = point_id))
  /\ (measurements db = ∅ -> result = []).
Proof.
  intros Hview.
  destruct (v_point_latest_rows db result Hview) as (Hnd & Hmax & Hcov).
  split; [exact Hnd |]. split; [| split; [exact Hmax | split]].
  - destruct Hview as (ordered & _ & Hsorted & ->).
    apply (StronglySorted_fmap point_latest_of
             (fun a b : measurement => text_lt (mk_point_id a.1) (mk_point_id b.1)));
      [auto |].
    apply distinct_on_point_id_sorted. exact Hsorted.
  - intros point_id. split.
    + intros (row & Hrow & <-).
      destruct (Hmax row Hrow) as (k & r & Hkr & -> & _). eauto.
    + intros (k & r & Hkr & <-). eauto.
  - intros Hempty. destruct Hview as (ordered & Hperm & _ & ->).
    rewrite Hempty, map_to_list_empty in Hperm.
    apply Permutation_nil_r in Hperm. subst ordered. reflexivity.
Qed.

Lemma v_point_latest_shape_witness :
  NoDup (pl_point_id <$> [point_latest_of (later_key, reading 21)])
  /\ forall point_id,
       (exists row, row ∈ [point_latest_of (later_key, reading 21)]
                    /\ pl_point_id row = point_id)
       <-> (exists k r, measurements two_readings !! k = Some r
                        /\ mk_point_id k = point_id).
Proof.
  destruct (v_point_latest_shape two_readings
              [point_latest_of (later_key, reading 21)] two_readings_view)
    as (Hnd & _ & _ & Hpoints & _).
  split; assumption.
Defined.

(** *** v_site_latest_window *)

(** The aggregation holds, for each point, the greatest timestamp among
    the rows of the point that are in the window. *)
Lemma last_ts_by_point_spec now rows : forall point_id,
  (forall ts, last_ts_by_point now rows !! point_id = Some ts ->
     (exists m, m ∈ rows /\ mk_point_id m.1 = point_id /\ in_window now m
                /\ mk_ts_utc m.1 = ts)
     /\ (forall m, m ∈ rows -> mk_point_id m.1 = point_id -> in_window now m ->
           mk_ts_utc m.1 <= ts))
  /\ (last_ts_by_point now rows !! point_id = None ->
      forall m, m ∈ rows -> mk_point_id m.1 = point_id -> ~ in_window now m).
Proof.
  unfold in_window.
  induction rows as [| a rest IH]; intros point_id.
  - simpl. split.
    + intros ts Hts. rewrite lookup_empty in Hts. discriminate.
    + intros _ m Hm. inversion Hm.
  - simpl. fold (last_ts_by_point now rest). unfold last_ts_step.
    destruct (IH point_id) as [IHsome IHnone].
    destruct (now - interval_1_day <? mk_ts_utc a.1) eqn:Hwin.
    + apply Z.ltb_lt in Hwin.
      destruct (decide (mk_point_id a.1 = point_id)) as [Hpt | Hpt].
      * subst point_id. split;
          [| intros Hnone; rewrite lookup_insert_eq in Hnone; discriminate].
        rewrite lookup_insert_eq. intros ts [= <-].
        destruct (last_ts_by_point now rest !! mk_point_id a.1) as [ts0 |] eqn:Hrest.
        -- destruct (IHsome ts0 eq_refl) as [(m0 & Hm0 & Hp0 & Hw0 & Ht0) Hmax].
           split.
           ++ destruct (Z.max_spec ts0 (mk_ts_utc a.1)) as [[_ ->] | [_ ->]].
              ** exists a. split; [set_solver | auto].
              ** exists m0. split; [set_solver | auto].
           ++ intros m Hm Hp Hw. apply elem_of_cons in Hm as [-> | Hm]; [lia |].
              specialize (Hmax m Hm Hp Hw). lia.
        -- split.
           ++ exists a. split; [set_solver | auto].
           ++ intros m Hm Hp Hw. apply elem_of_cons in Hm as [-> | Hm]; [lia |].
              destruct (IHnone eq_refl m Hm Hp Hw).
      * rewrite lookup_insert_ne by assumption. split.
        -- intros ts Hts.
           destruct (IHsome ts Hts) as [(m0 & Hm0 & Hrest0) Hmax].
           split; [exists m0; split; [set_solver | exact Hrest0] |].
           intros m Hm Hp Hw. apply elem_of_cons in Hm as [-> | Hm];
             [congruence | auto].
        -- intros Hnone m Hm Hp. apply elem_of_cons in Hm as [-> | Hm];
             [congruence | auto].
    + apply Z.ltb_ge in Hwin. split.
      * intros ts Hts.
        destruct (IHsome ts Hts) as [(m0 & Hm0 & Hrest0) Hmax].
        split; [exists m0; split; [set_solver | exact Hrest0] |].
        intros m Hm Hp Hw. apply elem_of_cons in Hm as [-> | Hm]; [lia | auto].
      * intros Hnone m Hm Hp. apply elem_of_cons in Hm as [-> | Hm];
          [lia | auto].
Qed.

(** The rows of the view. *)
Lemma elem_of_v_site_latest_window now db m :
  m ∈ v_site_latest_window now db
  <-> measurements db !! m.1 = Some m.2
      /\ in_window now m
      /\ forall k' r', measurements db !! k' = Some r' ->
           mk_point_id k' = mk_point_id m.1 -> in_window now (k', r') ->
           mk_ts_utc k' <= mk_ts_utc m.1.
Proof.
  unfold v_site_latest_window. rewrite list_elem_of_filter.
  destruct (last_ts_by_point_spec now (map_to_list (measurements db))
              (mk_point_id m.1)) as [Hsome Hnone].
  destruct m as [k r]. simpl in *. rewrite elem_of_map_to_list. split.
  - intros [Hts Hrow]. split; [exact Hrow |].
    destruct (Hsome _ Hts) as [(m0 & Hm0 & Hp0 & Hw0 & Ht0) Hmax].
    split; [unfold in_window in *; simpl; lia |].
    intros k' r' Hrow' Hp Hw.
    apply (Hmax (k', r')); [apply elem_of_map_to_list; exact Hrow' | exact Hp | exact Hw].
  - intros (Hrow & Hwin & Hmax). split; [| exact Hrow].
    destruct (last_ts_by_point now (map_to_list (measurements db)) !! mk_point_id k)
      as [ts |] eqn:Hts.
    + destruct (Hsome ts eq_refl) as [([k0 r0] & Hm0 & Hp0 & Hw0 & Ht0) Hle].
      simpl in *. apply elem_of_map_to_list in Hm0.
      pose proof (Hmax k0 r0 Hm0 Hp0 Hw0).
      pose proof (Hle (k, r) ltac:(apply elem_of_map_to_list; exact Hrow)
                    eq_refl Hwin).
      simpl in *. f_equal. lia.
    + destruct (Hnone eq_refl (k, r));
        [apply elem_of_map_to_list; exact Hrow | reflexivity | exact Hwin].
Qed.

(** X13. The rows of v_site_latest_window are exactly the stored
    measurements of the last day that hold the greatest timestamp among the
    last day's measurements of their point, each once.  Unlike
    v_point_latest it keeps every measurement that ties for that timestamp,
    and a point whose measurements are all older than a day has no row. *)
Theorem v_site_latest_window_spec (now : timestamptz) (db : database) :
  (forall m, m ∈ v_site_latest_window now db
     <-> measurements db !! m.1 = Some m.2
         /\ now - 86400 * 1000000 < mk_ts_utc m.1
         /\ forall k' r', measurements db !! k' = Some r' ->
              mk_point_id k' = mk_point_id m.1 ->
              now - 86400 * 1000000 < mk_ts_utc k' ->
              mk_ts_utc k' <= mk_ts_utc m.1)
  /\ NoDup (v_site_latest_window now db)
  /\ (forall m m', m ∈ v_site_latest_window now db ->
        measurements db !! m'.1 = Some m'.2 ->
        mk_point_id m'.1 = mk_point_id m.1 -> mk_ts_utc m'.1 = mk_ts_utc m.1 ->
        m' ∈ v_site_latest_window now db)
  /\ (forall point_id,
        (forall k r, measurements db !! k = Some r -> mk_point_id k = point_id ->
           mk_ts_utc k <= now - 86400 * 1000000) ->
        forall m, m ∈ v_site_latest_window now db -> mk_point_id m.1 <> point_id).
Proof.
  split; [| split; [| split]].
  - intros m. apply elem_of_v_site_latest_window.
  - unfold v_site_latest_window. apply NoDup_filter, NoDup_map_to_list.
  - intros m m' Hm Hrow' Hp Ht.
    apply elem_of_v_site_latest_window in Hm as (Hrow & Hwin & Hmax).
    apply elem_of_v_site_latest_window. unfold in_window in *.
    split; [exact Hrow' |]. split; [lia |].
    intros k' r' Hk' Hpk' Hwk'. rewrite Ht. apply (Hmax k' r' Hk'); [congruence | exact Hwk'].
  - intros point_id Hold m Hm Hp.
    apply elem_of_v_site_latest_window in Hm as (Hrow & Hwin & _).
    unfold in_window, interval_1_day in Hwin.
    specialize (Hold _ _ Hrow Hp). lia.
Qed.

(** X14. The two latest-value views agree where both apply: every row of
    v_site_latest_window carries the timestamp of the row that an evaluation
    of v_point_latest holds for its point, and every row of v_point_latest
    whose timestamp lies in the last day is one of the rows of
    v_site_latest_window. *)
Theorem latest_views_agree (now : timestamptz) (db : database)
    (result : list point_latest_row) :
  v_point_latest db result ->
  (forall m, m ∈ v_site_latest_window now db ->
     exists row, row ∈ result /\ pl_point_id row = mk_point_id m.1
                 /\ pl_last_ts_utc row = mk_ts_utc m.1)
  /\ (forall row, row ∈ result ->
        now - 86400 * 1000000 < pl_last_ts_utc row ->
        exists m, m ∈ v_site_latest_window now db /\ point_latest_of m = row).
Proof.
  intros Hview.
  destruct (v_point_latest_rows db result Hview) as (_ & Hmax & Hcov).
  split.
  - intros [k r] Hm.
    apply elem_of_v_site_latest_window in Hm as (Hrow & Hwin & Hwmax).
    simpl in *.
    destruct (Hcov k r Hrow) as (row & Hin & Hpt).
    exists row. split; [exact Hin |]. split; [exact Hpt |].
    destruct (Hmax row Hin) as (k0 & r0 & Hrow0 & -> & Hle). simpl in *.
    pose proof (Hle k r Hrow (eq_sym Hpt)).
    assert (in_window now (k0, r0)) as Hwin0
      by (unfold in_window in *; simpl in *; lia).
    pose proof (Hwmax k0 r0 Hrow0 Hpt Hwin0). lia.
  - intros row Hin Hrecent.
    destruct (Hmax row Hin) as (k & r & Hrow & -> & Hle).
    exists (k, r). split; [| reflexivity].
    apply elem_of_v_site_latest_window. simpl in *.
    split; [exact Hrow |]. split; [exact Hrecent |].
    intros k' r' Hrow' Hp _. apply (Hle k' r' Hrow' Hp).
Qed.

Lemma latest_views_agree_witness :
  (forall m, m ∈ v_site_latest_window 7000000 two_readings ->
     exists row, row ∈ [point_latest_of (later_key, reading 21)]
                 /\ pl_point_id row = mk_point_id m.1
                 /\ pl_last_ts_utc row = mk_ts_utc m.1)
  /\ (forall row, row ∈ [point_latest_of (later_key, reading 21)] ->
        7000000 - 86400 * 1000000 < pl_last_ts_utc row ->
        exists m, m ∈ v_site_latest_window 7000000 two_readings
                  /\ point_latest_of m = row).
Proof.
  apply (latest_views_agree 7000000 two_readings
           [point_latest_of (later_key, reading 21)] two_readings_view).
Defined.

(** *** v_devices_stale over time *)

Lemma v_devices_stale_ids now db :
  (sr_device_id <$> v_devices_stale now db)
    `sublist_of` (map_to_list (device_state db)).*1.
Proof.
  unfold v_devices_stale.
  induction (map_to_list (device_state db)) as [| kv rest IH]; [constructor |].
  simpl. destruct (interval_120_seconds <? now - ds_last_seen_ts kv.2).
  - simpl. apply sublist_skip. exact IH.
  - apply sublist_cons. exact IH.
Qed.

Lemma stale_devices_listing_ids now db :
  (sr_device_id <$> stale_devices_listing now db)
    ≡ₚ (sr_device_id <$> v_devices_stale now db).
Proof.
  unfold stale_devices_listing. rewrite merge_sort_Permutation.
  rewrite <- list_fmap_compose. reflexivity.
Qed.

(** X15. Over an unchanged [device_state], staleness only grows with time:
    a device listed as stale at one time is listed at every later time, its
    age larger by the time elapsed.  A device appears at most once in the
    listing, a device last seen exactly 120 seconds ago is not listed yet,
    and neither is one whose [last_seen_ts] lies in the future. *)
Theorem stale_devices_listing_over_time
    (now now' : timestamptz) (db : database) :
  now <= now' ->
  (forall r, r ∈ stale_devices_listing now db ->
     exists r', r' ∈ stale_devices_listing now' db
                /\ sr_device_id r' = sr_device_id r
                /\ sr_age r' = sr_age r + (now' - now))
  /\ NoDup (sr_device_id <$> stale_devices_listing now db)
  /\ (length (stale_devices_listing now db) <= size (device_state db))%nat
  /\ (forall device_id row,
        device_state db !! device_id = Some row ->
        now - 120 * 1000000 <= ds_last_seen_ts row ->
        ~ exists r, r ∈ stale_devices_listing now db /\ sr_device_id r = device_id).
Proof.
  intros Hlater. split; [| split; [| split]].
  - intros r Hr.
    apply elem_of_stale_devices_listing, elem_of_v_devices_stale in Hr
      as (row & Hrow & Hage & Hr).
    exists {| sr_device_id := sr_device_id r; sr_site_id := ds_site_id row;
              sr_last_seen_ts := ds_last_seen_ts row;
              sr_age := now' - ds_last_seen_ts row |}.
    split; [| split; [reflexivity |]].
    + apply elem_of_stale_devices_listing, elem_of_v_devices_stale.
      exists row. simpl. split; [exact Hrow |]. split; [lia | reflexivity].
    + rewrite Hr. simpl. lia.
  - rewrite stale_devices_listing_ids.
    apply (sublist_NoDup _ _ (NoDup_fst_map_to_list (device_state db))).
    apply v_devices_stale_ids.
  - rewrite <- (length_fmap sr_device_id), stale_devices_listing_ids.
    rewrite <- length_map_to_list, <- (length_fmap fst).
    apply sublist_length, v_devices_stale_ids.
  - intros device_id row Hrow Hseen (r & Hr & Hid).
    apply elem_of_stale_devices_listing, elem_of_v_devices_stale in Hr
      as (row' & Hrow' & Hage & _).
    rewrite Hid, Hrow in Hrow'. inversion Hrow'; subst row'.
    unfold interval_120_seconds in Hage. lia.
Qed.

Lemma stale_devices_listing_over_time_witness :
  (forall r, r ∈ stale_devices_listing 200000000 fleet ->
     exists r', r' ∈ stale_devices_listing 202000000 fleet
                /\ sr_device_id r' = sr_device_id r
                /\ sr_age r' = sr_age r + (202000000 - 200000000))
  /\ NoDup (sr_device_id <$> stale_devices_listing 200000000 fleet).
Proof.
  destruct (stale_devices_listing_over_time 200000000 202000000 fleet)
    as (Hgrow & Hnd & _); [lia |].
  split; assumption.
Defined.

(** ** test_local.py *)

Lemma environ_args_read_environ (env : environ) (args : connect_args) :
  environ_args env = inr args -> read_environ env = inr args.
Proof.
  unfold environ_args, read_environ.
  destruct (DB_HOST env); [| discriminate].
  destruct (DB_PORT env); [| discriminate].
  destruct (DB_NAME env); [| discriminate].
  destruct (DB_USER env); [| discriminate].
  destruct (DB_PASSWORD env); [| discriminate].
  intros [= <-]. reflexivity.
Qed.

(** X16. After [set_env_from_alembic_defaults] the five variables are set,
    each to the value it had or else to its default, so that both the
    test script and the handler can build their connection arguments (the
    same ones); running it again changes nothing. *)
Theorem set_env_from_alembic_defaults_configures (env : environ) :
  (exists args,
     environ_args (set_env_from_alembic_defaults env) = inr args
     /\ read_environ (set_env_from_alembic_defaults env) = inr args
     /\ host args = default "localhost" (DB_HOST env)
     /\ port args = default "55432" (DB_PORT env)
     /\ dbname args = default "hvacdb" (DB_NAME env)
     /\ user args = default "postgres" (DB_USER env)
     /\ password args = default "yourpassword" (DB_PASSWORD env))
  /\ set_env_from_alembic_defaults (set_env_from_alembic_defaults env)
     = set_env_from_alembic_defaults env.
Proof.
  assert (exists args,
            environ_args (set_env_from_alembic_defaults env) = inr args
            /\ host args = default "localhost" (DB_HOST env)
            /\ port args = default "55432" (DB_PORT env)
            /\ dbname args = default "hvacdb" (DB_NAME env)
            /\ user args = default "postgres" (DB_USER env)
            /\ password args = default "yourpassword" (DB_PASSWORD env))
    as (args & Hargs & Hfields).
  { unfold environ_args, set_env_from_alembic_defaults, setdefault. simpl.
    destruct (DB_HOST env), (DB_PORT env), (DB_NAME env), (DB_USER env),
      (DB_PASSWORD env); eexists; repeat split; reflexivity. }
  pose proof (environ_args_read_environ _ _ Hargs) as Hread.
  split; [exists args; split; [exact Hargs | split; [exact Hread | exact Hfields]] |].
  unfold set_env_from_alembic_defaults, setdefault. simpl.
  destruct (DB_HOST env), (DB_PORT env), (DB_NAME env), (DB_USER env),
    (DB_PASSWORD env); reflexivity.
Qed.

Lemma insert_site_spec now site_id display_name tx0 :
  is_Some (sites (insert_site now site_id display_name tx0) !! site_id)
  /\ sites tx0 ⊆ sites (insert_site now site_id display_name tx0)
  /\ devices (insert_site now site_id display_name tx0) = devices tx0
  /\ points (insert_site now site_id display_name tx0) = points tx0
  /\ measurements (insert_site now site_id display_name tx0) = measurements tx0
  /\ device_state (insert_site now site_id display_name tx0) = device_state tx0
  /\ (is_Some (sites tx0 !! site_id) ->
      insert_site now site_id display_name tx0 = tx0).
Proof.
  unfold insert_site.
  destruct (sites tx0 !! site_id) as [row |] eqn:Hrow; simpl.
  - repeat split; eauto.
  - rewrite lookup_insert_eq. repeat split; eauto.
    + apply insert_subseteq. exact Hrow.
    + intros [row Hsome]. discriminate.
Qed.

Lemma insert_devices_spec now device_ids : forall tx0,
  is_Some (sites tx0 !! "test-building") ->
  exists tx',
    insert_devices now device_ids tx0 = inr tx'
    /\ sites tx' = sites tx0
    /\ devices tx0 ⊆ devices tx'
    /\ (forall device_id, device_id ∈ device_ids -> is_Some (devices tx' !! device_id))
    /\ points tx' = points tx0
    /\ measurements tx' = measurements tx0
    /\ device_state tx' = device_state tx0.
Proof.
  induction device_ids as [| device_id rest IH]; intros tx0 Hsite.
  - exists tx0. simpl. repeat split; try reflexivity.
    intros device_id Hin. inversion Hin.
  - simpl. unfold insert_device.
    destruct (devices tx0 !! device_id) as [row |] eqn:Hrow.
    + destruct (IH tx0 Hsite) as (tx' & Hrun & Hs & Hd & Hall & Hp & Hm & Hds).
      exists tx'. repeat (split; [assumption |]). split; [| auto].
      intros id Hin. apply elem_of_cons in Hin as [-> | Hin]; [| auto].
      exists row. eapply lookup_weaken; eassumption.
    + destruct Hsite as [site Hsite]. rewrite Hsite.
      destruct (IH (with_devices
                      (<[device_id := {| dev_site_id := "test-building";
                                         dev_model := Some "test-model";
                                         dev_created_at := now |}]>
                         (devices tx0)) tx0))
        as (tx' & Hrun & Hs & Hd & Hall & Hp & Hm & Hds);
        [simpl; eauto |].
      simpl in *. exists tx'. split; [exact Hrun |]. split; [exact Hs |].
      split; [etrans; [apply insert_subseteq; exact Hrow | exact Hd] |].
      split; [| auto].
      intros id Hin. apply elem_of_cons in Hin as [-> | Hin]; [| auto].
      eexists. eapply lookup_weaken; [apply lookup_insert_eq | exact Hd].
Qed.

Lemma insert_devices_present now device_ids tx0 :
  (forall device_id, device_id ∈ device_ids -> is_Some (devices tx0 !! device_id)) ->
  insert_devices now device_ids tx0 = inr tx0.
Proof.
  induction device_ids as [| device_id rest IH]; intros Hall; [reflexivity |].
  simpl. unfold insert_device.
  destruct (Hall device_id) as [row ->]; [set_solver |].
  apply IH. intros id Hin. apply Hall. set_solver.
Qed.

(** X17. [seed_site_and_devices] succeeds whenever [check_connection] does:
    the site is inserted before the devices, so the foreign key of
    [devices] cannot fail.  It then leaves the site 'test-building' and the
    three test devices registered.  It never changes or removes an existing
    row (ON CONFLICT DO NOTHING): the rows of [sites] and [devices] are kept
    as they were and the other tables are untouched; when the connection
    cannot be made it commits nothing. *)
Theorem seed_site_and_devices_spec (w : world) :
  (check_connection w = true ->
   (seed_site_and_devices w).2 = Seeded_required
   /\ is_Some (sites (seed_site_and_devices w).1 !! "test-building")
   /\ is_Some (devices (seed_site_and_devices w).1 !! "hvac-test-001")
   /\ is_Some (devices (seed_site_and_devices w).1 !! "hvac-test-002")
   /\ is_Some (devices (seed_site_and_devices w).1 !! "hvac-test-003"))
  /\ (check_connection w = false ->
      exists e, seed_site_and_devices w = (w_db w, Seeding_failed e))
  /\ sites (w_db w) ⊆ sites (seed_site_and_devices w).1
  /\ devices (w_db w) ⊆ devices (seed_site_and_devices w).1
  /\ points (seed_site_and_devices w).1 = points (w_db w)
  /\ measurements (seed_site_and_devices w).1 = measurements (w_db w)
  /\ device_state (seed_site_and_devices w).1 = device_state (w_db w).
Proof.
  unfold check_connection, seed_site_and_devices.
  destruct (environ_args (w_environ w)) as [e | args].
  { split; [discriminate |]. split; [eauto |]. repeat split; reflexivity. }
  destruct (w_accepts w args).
  2:{ split; [discriminate |]. split; [eauto |]. repeat split; reflexivity. }
  destruct (insert_site_spec (w_now w) "test-building" "Test Building" (w_db w))
    as (Hsite & Hsub & Hd0 & Hp0 & Hm0 & Hds0 & _).
  destruct (insert_devices_spec (w_now w) seeded_devices _ Hsite)
    as (tx' & -> & Hs & Hd & Hall & Hp & Hm & Hds).
  simpl. split.
  - intros _. split; [reflexivity |]. rewrite Hs. split; [exact Hsite |].
    repeat split; apply Hall; unfold seeded_devices; set_solver.
  - split; [discriminate |].
    rewrite Hs, Hp, Hm, Hds, Hp0, Hm0, Hds0, <- Hd0.
    repeat split; assumption.
Qed.

(** X18. Seeding is idempotent: run again, at any later time, against what
    the first run committed, it commits the same state and prints the same
    line. *)
Theorem seed_site_and_devices_idempotent (w : world) (now utcnow : timestamptz) :
  seed_site_and_devices (later w (seed_site_and_devices w).1 now utcnow)
  = seed_site_and_devices w.
Proof.
  destruct (environ_args (w_environ w)) as [e | args] eqn:Henv.
  { unfold seed_site_and_devices. simpl. rewrite Henv. reflexivity. }
  destruct (w_accepts w args) eqn:Hacc.
  2:{ unfold seed_site_and_devices. simpl. rewrite Henv, Hacc. reflexivity. }
  destruct (insert_site_spec (w_now w) "test-building" "Test Building" (w_db w))
    as (Hsite & _).
  destruct (insert_devices_spec (w_now w) seeded_devices _ Hsite)
    as (tx' & Hrun & Hs & _ & Hall & _).
  assert (seed_site_and_devices w = (tx', Seeded_required)) as Hfirst.
  { unfold seed_site_and_devices. rewrite Henv, Hacc, Hrun. reflexivity. }
  rewrite Hfirst. unfold seed_site_and_devices, later.
  cbn [w_environ w_accepts w_db w_now fst]. rewrite Henv, Hacc.
  destruct (insert_site_spec now "test-building" "Test Building" tx')
    as (_ & _ & _ & _ & _ & _ & Hnoop).
  rewrite Hnoop by (rewrite Hs; exact Hsite).
  rewrite (insert_devices_present now seeded_devices tx' Hall). reflexivity.
Qed.

Lemma upsert_sql_registered now device_id site_id d tx0 :
  storable d = true ->
  is_Some (devices tx0 !! device_id) ->
  is_Some (sites tx0 !! site_id) ->
  exists tx', upsert_sql now device_id site_id d tx0 = inr tx'.
Proof.
  intros Hst [dev Hdev] [site Hsite].
  destruct (device_state tx0 !! device_id) as [stored |] eqn:Hrow.
  - eexists. eapply upsert_sql_conflict; eassumption.
  - eexists. eapply upsert_sql_insert; eassumption.
Qed.

Lemma check_connection_true (w : world) :
  check_connection w = true ->
  exists args, environ_args (w_environ w) = inr args /\ w_accepts w args = true.
Proof.
  unfold check_connection.
  destruct (environ_args (w_environ w)) as [e | args]; [discriminate | eauto].
Qed.

Lemma seed_site_and_devices_registers (w : world) :
  check_connection w = true ->
  is_Some (sites (seed_site_and_devices w).1 !! "test-building")
  /\ forall device_id, device_id ∈ seeded_devices ->
       is_Some (devices (seed_site_and_devices w).1 !! device_id).
Proof.
  intros Hcheck. apply check_connection_true in Hcheck as (args & Henv & Hacc).
  unfold seed_site_and_devices. rewrite Henv, Hacc.
  destruct (insert_site_spec (w_now w) "test-building" "Test Building" (w_db w))
    as (Hsite & _).
  destruct (insert_devices_spec (w_now w) seeded_devices _ Hsite)
    as (tx' & -> & Hs & _ & Hall & _).
  simpl. rewrite Hs. split; assumption.
Qed.

(** The row an upsert of a record with a status leaves. *)
Lemma upsert_sql_status now device_id site_id d tx0 tx' status :
  upsert_sql now device_id site_id d tx0 = inr tx' ->
  hb_status d = Some status ->
  exists row,
    device_state tx' !! device_id = Some row
    /\ ds_status row = Some status
    /\ ds_agent_version row
       = COALESCE (hb_agent_version d)
           (device_state tx0 !! device_id ≫= ds_agent_version)
    /\ ds_last_seen_ts row = now.
Proof.
  intros Hrun Hstatus.
  pose proof (upsert_sql_row _ _ _ _ _ _ Hrun) as (_ & Hrow & _).
  eexists. split; [exact Hrow |].
  destruct (device_state tx0 !! device_id) as [stored |]; simpl;
    rewrite Hstatus; repeat split; try reflexivity.
  destruct (hb_agent_version d); reflexivity.
Qed.

(** X19. The test script's sequence works from any database state: once
    [check_connection] holds and [seed_site_and_devices] has run, the two
    invocations of [run_tests] both answer 200, listing hvac-test-001 and
    then hvac-test-002 and hvac-test-003; afterwards the three devices have
    rows with the statuses sent ('ready', 'ready', 'degraded'), agent
    version 1.0.0 for the first, and [last_seen_ts] the time of the
    invocation that named them. *)
Theorem run_tests_after_seed
    (w : world) (now1 utcnow1 now2 utcnow2 : timestamptz) :
  check_connection w = true ->
  exists single batch r1 r2 r3,
    run_tests (later w (seed_site_and_devices w).1 now1 utcnow1) now2 utcnow2
    = (single, batch)
    /\ returned single = heartbeat_updated ["hvac-test-001"] utcnow1
    /\ returned batch = heartbeat_updated ["hvac-test-002"; "hvac-test-003"] utcnow2
    /\ device_state (committed batch) !! "hvac-test-001" = Some r1
    /\ device_state (committed batch) !! "hvac-test-002" = Some r2
    /\ device_state (committed batch) !! "hvac-test-003" = Some r3
    /\ ds_status r1 = Some "ready" /\ ds_agent_version r1 = Some "1.0.0"
    /\ ds_last_seen_ts r1 = now1
    /\ ds_status r2 = Some "ready" /\ ds_last_seen_ts r2 = now2
    /\ ds_status r3 = Some "degraded" /\ ds_last_seen_ts r3 = now2.
Proof.
  intros Hcheck.
  destruct (seed_site_and_devices_registers w Hcheck) as [Hsite Hdevs].
  apply check_connection_true in Hcheck as (args & Henv & Hacc).
  apply environ_args_read_environ in Henv.
  set (db1 := (seed_site_and_devices w).1) in *.
  (* the single record *)
  destruct (upsert_sql_registered now1 "hvac-test-001" "test-building"
              single_record db1 eq_refl)
    as [tx1 Hup1]; [apply Hdevs; unfold seeded_devices; set_solver | exact Hsite |].
  pose proof (upsert_sql_tables _ _ _ _ _ _ Hup1) as (Hs1 & Hd1 & _).
  destruct (upsert_sql_status _ _ _ _ _ _ "ready" Hup1 eq_refl)
    as (r1 & Hr1 & Hst1 & Hv1 & Hseen1).
  (* the batch *)
  destruct (upsert_sql_registered now2 "hvac-test-002" "test-building"
              record_002 tx1 eq_refl)
    as [tx2 Hup2];
    [rewrite Hd1; apply Hdevs; unfold seeded_devices; set_solver
    | rewrite Hs1; exact Hsite |].
  pose proof (upsert_sql_tables _ _ _ _ _ _ Hup2) as (Hs2 & Hd2 & _).
  destruct (upsert_sql_status _ _ _ _ _ _ "ready" Hup2 eq_refl)
    as (r2 & Hr2 & Hst2 & _ & Hseen2).
  destruct (upsert_sql_registered now2 "hvac-test-003" "test-building"
              record_003 tx2 eq_refl)
    as [tx3 Hup3];
    [rewrite Hd2, Hd1; apply Hdevs; unfold seeded_devices; set_solver
    | rewrite Hs2, Hs1; exact Hsite |].
  destruct (upsert_sql_status _ _ _ _ _ _ "degraded" Hup3 eq_refl)
    as (r3 & Hr3 & Hst3 & _ & Hseen3).
  assert (lambda_handler (later w db1 now1 utcnow1) single_event
          = {| returned := heartbeat_updated ["hvac-test-001"] utcnow1;
               committed := tx1; logged := [info_updated "hvac-test-001"] |})
    as Hsingle.
  { rewrite (lambda_handler_single_record (later w db1 now1 utcnow1)
               single_event args
               "hvac-test-001" "test-building" Henv Hacc eq_refl eq_refl
               eq_refl eq_refl).
    simpl. rewrite Hup1. reflexivity. }
  assert (lambda_handler (later (later w db1 now1 utcnow1) tx1 now2 utcnow2)
            batch_event
          = {| returned := heartbeat_updated ["hvac-test-002"; "hvac-test-003"]
                             utcnow2;
               committed := tx3;
               logged := [info_updated "hvac-test-002";
                          info_updated "hvac-test-003"] |})
    as Hbatch.
  { rewrite (lambda_handler_connected
               (later (later w db1 now1 utcnow1) tx1 now2 utcnow2)
               batch_event args
               [record_002; record_003] Henv eq_refl Hacc).
    rewrite (for_device_data_execute _ record_002 _ _ "hvac-test-002"
               "test-building" eq_refl eq_refl eq_refl).
    simpl tx. simpl w_now. rewrite Hup2.
    rewrite (for_device_data_execute _ record_003 _ _ "hvac-test-003"
               "test-building" eq_refl eq_refl eq_refl).
    simpl tx. rewrite Hup3. reflexivity. }
  exists (lambda_handler (later w db1 now1 utcnow1) single_event),
    (lambda_handler (later (later w db1 now1 utcnow1) tx1 now2 utcnow2) batch_event),
    r1, r2, r3.
  split; [unfold run_tests; rewrite Hsingle; reflexivity |].
  rewrite Hsingle, Hbatch. simpl.
  split; [reflexivity |]. split; [reflexivity |].
  split.
  { rewrite (upsert_sql_frame _ _ _ _ _ _ Hup3) by discriminate.
    rewrite (upsert_sql_frame _ _ _ _ _ _ Hup2) by discriminate.
    exact Hr1. }
  split.
  { rewrite (upsert_sql_frame _ _ _ _ _ _ Hup3) by discriminate. exact Hr2. }
  split; [exact Hr3 |].
  repeat (split; [assumption |]). assumption.
Qed.

Lemma run_tests_after_seed_witness :
  exists single batch r1 r2 r3,
    run_tests (later (local_world with_point 500000)
                 (seed_site_and_devices (local_world with_point 500000)).1
                 1000000 1000001) 2000000 2000001
    = (single, batch)
    /\ returned single = heartbeat_updated ["hvac-test-001"] 1000001
    /\ returned batch = heartbeat_updated ["hvac-test-002"; "hvac-test-003"] 2000001
    /\ device_state (committed batch) !! "hvac-test-001" = Some r1
    /\ device_state (committed batch) !! "hvac-test-002" = Some r2
    /\ device_state (committed batch) !! "hvac-test-003" = Some r3
    /\ ds_status r1 = Some "ready" /\ ds_agent_version r1 = Some "1.0.0"
    /\ ds_last_seen_ts r1 = 1000000
    /\ ds_status r2 = Some "ready" /\ ds_last_seen_ts r2 = 2000000
    /\ ds_status r3 = Some "degraded" /\ ds_last_seen_ts r3 = 2000000.
Proof.
  apply (run_tests_after_seed (local_world with_point 500000)
           1000000 1000001 2000000 2000001 eq_refl).
Defined.

(** ** The migration *)

Lemma unknown_insert r name n k :
  n <> name -> ~ depends_on k name -> k <> Index name ->
  unknown r name -> unknown (<[n := k]> r) name.
Proof.
  intros Hne Hdep Hidx [Hnone Hall]. split.
  - rewrite lookup_insert_ne by exact Hne. exact Hnone.
  - apply map_Forall_insert_2; [split; assumption | exact Hall].
Qed.

Lemma untouched_unknown c name :
  untouched c -> name ∈ migration_names -> unknown (relations c) name.
Proof.
  intros (Hfresh & _ & _ & Hdeps & Hidx) Hin. split; [apply Hfresh, Hin |].
  intros n k Hk. split.
  - intros Hdep. destruct (Hdeps n k name Hk Hdep) as [x Hx].
    rewrite (Hfresh name Hin) in Hx. discriminate.
  - intros ->. destruct (Hidx n name Hk) as [x Hx].
    rewrite (Hfresh name Hin) in Hx. discriminate.
Qed.

Lemma without_insert r name k :
  unknown r name -> without name (<[name := k]> r) = r.
Proof.
  intros [Hnone Hall]. unfold without.
  rewrite delete_insert_id by exact Hnone.
  apply map_filter_id. intros n x Hx. simpl. apply (Hall n x Hx).
Qed.

Lemma without_insert_index r name idx k :
  idx <> name -> r !! idx = None -> unknown r name ->
  without name (<[idx := Index name]> (<[name := k]> r)) = r.
Proof.
  intros Hne Hidx Hunk. unfold without.
  rewrite delete_insert_ne by congruence.
  rewrite map_filter_insert_False by (simpl; auto).
  rewrite delete_insert_id by exact (proj1 Hunk).
  rewrite delete_id by exact Hidx.
  apply map_filter_id. intros n x Hx. simpl. apply (proj2 Hunk n x Hx).
Qed.

Lemma no_dependents_insert E r H name k :
  unknown r name ->
  no_dependents {| extensions := E; relations := <[name := k]> r; hypertables := H |} name.
Proof.
  intros [_ Hall]. unfold no_dependents. simpl.
  apply map_Forall_insert_2; [left; reflexivity |].
  intros n x Hx. right. apply (Hall n x Hx).
Qed.

Lemma no_dependents_insert_index E r H name idx k :
  unknown r name ->
  no_dependents {| extensions := E;
                   relations := <[idx := Index name]> (<[name := k]> r);
                   hypertables := H |} name.
Proof.
  intros [_ Hall]. unfold no_dependents. simpl.
  apply map_Forall_insert_2; [right; simpl; auto |].
  apply map_Forall_insert_2; [left; reflexivity |].
  intros n x Hx. right. apply (Hall n x Hx).
Qed.

Lemma drop_view_if_exists_insert E r H name sources :
  unknown r name ->
  drop_view_if_exists name
    {| extensions := E; relations := <[name := View sources]> r; hypertables := H |}
  = inr {| extensions := E; relations := r; hypertables := H |}.
Proof.
  intros Hunk. unfold drop_view_if_exists. simpl. rewrite lookup_insert_eq.
  rewrite decide_True by (apply no_dependents_insert; exact Hunk).
  unfold with_relations. simpl.
  rewrite delete_insert_id by exact (proj1 Hunk). reflexivity.
Qed.

Lemma drop_materialized_view_if_exists_insert E r H name idx sources :
  idx <> name -> r !! idx = None -> unknown r name ->
  drop_materialized_view_if_exists name
    {| extensions := E;
       relations := <[idx := Index name]> (<[name := MaterializedView sources]> r);
       hypertables := H |}
  = inr {| extensions := E; relations := r; hypertables := H |}.
Proof.
  intros Hne Hidx Hunk. unfold drop_materialized_view_if_exists. simpl.
  rewrite lookup_insert_ne by congruence. rewrite lookup_insert_eq.
  rewrite decide_True by (apply no_dependents_insert_index; exact Hunk).
  unfold with_relations. simpl.
  rewrite without_insert_index by assumption. reflexivity.
Qed.

Lemma drop_index_insert E r H name table :
  r !! name = None ->
  drop_index name
    {| extensions := E; relations := <[name := Index table]> r; hypertables := H |}
  = inr {| extensions := E; relations := r; hypertables := H |}.
Proof.
  intros Hnone. unfold drop_index. simpl. rewrite lookup_insert_eq.
  unfold with_relations. simpl. rewrite delete_insert_id by exact Hnone.
  reflexivity.
Qed.

Lemma drop_table_insert E r H name references :
  unknown r name ->
  drop_table name
    {| extensions := E; relations := <[name := Table references]> r; hypertables := H |}
  = inr {| extensions := E; relations := r; hypertables := delete name H |}.
Proof.
  intros Hunk. unfold drop_table. simpl. rewrite lookup_insert_eq.
  rewrite decide_True by (apply no_dependents_insert; exact Hunk).
  rewrite without_insert by exact Hunk. reflexivity.
Qed.

Lemma drop_table_insert_index E r H name idx references :
  idx <> name -> r !! idx = None -> unknown r name ->
  drop_table name
    {| extensions := E;
       relations := <[idx := Index name]> (<[name := Table references]> r);
       hypertables := H |}
  = inr {| extensions := E; relations := r; hypertables := delete name H |}.
Proof.
  intros Hne Hidx Hunk. unfold drop_table. simpl.
  rewrite lookup_insert_ne by congruence. rewrite lookup_insert_eq.
  rewrite decide_True by (apply no_dependents_insert_index; exact Hunk).
  rewrite without_insert_index by assumption. reflexivity.
Qed.

Ltac lookups :=
  repeat first
    [ rewrite lookup_insert_eq
    | rewrite lookup_insert_ne by discriminate ].

Lemma run_cons (s : statement) (rest : list statement) (c c' : catalog) :
  s c = inr c' -> run (s :: rest) c = run rest c'.
Proof. intros Hs. simpl. rewrite Hs. reflexivity. Qed.

Lemma create_table_fresh E r H name references :
  r !! name = None ->
  missing_table {| extensions := E; relations := r; hypertables := H |} references
  = None ->
  create_table name references []
    {| extensions := E; relations := r; hypertables := H |}
  = inr {| extensions := E; relations := <[name := Table references]> r;
           hypertables := H |}.
Proof.
  intros Hnone Hrefs. unfold create_table. simpl. rewrite Hnone.
  simpl in Hrefs. rewrite Hrefs. reflexivity.
Qed.

Lemma create_table_fresh_unique E r H name references u :
  r !! name = None -> r !! u = None ->
  missing_table {| extensions := E; relations := r; hypertables := H |} references
  = None ->
  create_table name references [u]
    {| extensions := E; relations := r; hypertables := H |}
  = inr {| extensions := E;
           relations := <[u := Index name]> (<[name := Table references]> r);
           hypertables := H |}.
Proof.
  intros Hnone Hu Hrefs. unfold create_table. simpl. rewrite Hnone.
  simpl in Hrefs. rewrite Hrefs.
  rewrite filter_cons_False by (rewrite Hu; intros [x Hx]; discriminate).
  reflexivity.
Qed.

Lemma create_index_fresh E r H name table references :
  r !! name = None -> r !! table = Some (Table references) ->
  create_index name table {| extensions := E; relations := r; hypertables := H |}
  = inr {| extensions := E; relations := <[name := Index table]> r;
           hypertables := H |}.
Proof.
  intros Hnone Htable. unfold create_index, is_table. simpl.
  rewrite Hnone, Htable. reflexivity.
Qed.

Lemma create_materialized_view_fresh E r H name sources :
  r !! name = None ->
  missing_source {| extensions := E; relations := r; hypertables := H |} sources
  = None ->
  create_materialized_view_if_not_exists name sources
    {| extensions := E; relations := r; hypertables := H |}
  = inr {| extensions := E; relations := <[name := MaterializedView sources]> r;
           hypertables := H |}.
Proof.
  intros Hnone Hsrc. unfold create_materialized_view_if_not_exists. simpl.
  rewrite Hnone. simpl in Hsrc. rewrite Hsrc. reflexivity.
Qed.

Lemma create_unique_index_fresh E r H name relation sources :
  r !! name = None -> r !! relation = Some (MaterializedView sources) ->
  create_unique_index_if_not_exists name relation
    {| extensions := E; relations := r; hypertables := H |}
  = inr {| extensions := E; relations := <[name := Index relation]> r;
           hypertables := H |}.
Proof.
  intros Hnone Hrel. unfold create_unique_index_if_not_exists. simpl.
  rewrite Hnone, Hrel. reflexivity.
Qed.

Lemma create_view_fresh E r H name sources :
  r !! name = None ->
  missing_source {| extensions := E; relations := r; hypertables := H |} sources
  = None ->
  create_or_replace_view name sources
    {| extensions := E; relations := r; hypertables := H |}
  = inr {| extensions := E; relations := <[name := View sources]> r;
           hypertables := H |}.
Proof.
  intros Hnone Hsrc. unfold create_or_replace_view. simpl.
  rewrite Hnone. simpl in Hsrc. rewrite Hsrc. reflexivity.
Qed.

Ltac side :=
  repeat (progress (cbn [missing_table missing_source relations];
                    unfold is_table; lookups));
  first [assumption | reflexivity].

Lemma run_upgrade E r :
  (forall name, name ∈ migration_names -> r !! name = None) ->
  "timescaledb" ∉ E ->
  run upgrade {| extensions := E; relations := r; hypertables := ∅ |}
  = inr {| extensions := {[ "timescaledb" ]} ∪ E;
           relations := upgraded_relations r;
           hypertables := {[ "measurements" := measurements_hypertable ]} |}.
Proof.
  intros Hfresh Hext.
  assert (forall name, bool_decide (name ∈ migration_names) = true -> r !! name = None)
    as Hf by (intros name Hin; apply Hfresh; apply bool_decide_eq_true in Hin; exact Hin).
  pose proof (Hf "sites" eq_refl) as H1.
  pose proof (Hf "devices" eq_refl) as H2.
  pose proof (Hf "points" eq_refl) as H3.
  pose proof (Hf "uq_points_site_name" eq_refl) as H4.
  pose proof (Hf "measurements" eq_refl) as H5.
  pose proof (Hf "ix_meas_point_time_desc" eq_refl) as H6.
  pose proof (Hf "ix_meas_site_time" eq_refl) as H7.
  pose proof (Hf "device_state" eq_refl) as H8.
  pose proof (Hf "ix_devstate_site" eq_refl) as H9.
  pose proof (Hf "ix_devstate_last_seen" eq_refl) as H10.
  pose proof (Hf "v_point_latest" eq_refl) as H11.
  pose proof (Hf "uq_v_point_latest" eq_refl) as H12.
  pose proof (Hf "v_site_latest_window" eq_refl) as H13.
  pose proof (Hf "v_devices_stale" eq_refl) as H14.
  clear Hf Hfresh.
  assert (bool_decide ("timescaledb" ∈ ({[ "timescaledb" ]} ∪ E : gset string)) = true)
    as Hts by (apply bool_decide_eq_true; set_solver).
  unfold upgrade.
  erewrite run_cons by reflexivity.
  cbn [extensions relations hypertables].
  erewrite run_cons by (apply create_table_fresh; side).
  erewrite run_cons by (apply create_table_fresh; side).
  erewrite run_cons by (apply create_table_fresh_unique; side).
  erewrite run_cons by (apply create_table_fresh; side).
  erewrite run_cons
    by (unfold create_hypertable, is_table; cbn [extensions relations hypertables];
        rewrite Hts; lookups; rewrite lookup_empty; reflexivity).
  unfold with_hypertables. cbn [extensions relations hypertables].
  erewrite run_cons by (eapply create_index_fresh; side).
  erewrite run_cons by (eapply create_index_fresh; side).
  erewrite run_cons
    by (unfold set_compress, alter_hypertable; cbn [extensions relations hypertables];
        rewrite Hts; lookups; reflexivity).
  unfold with_hypertables. cbn [extensions relations hypertables].
  erewrite run_cons
    by (unfold add_compression_policy, alter_hypertable;
        cbn [extensions relations hypertables];
        rewrite Hts; lookups; reflexivity).
  unfold with_hypertables. cbn [extensions relations hypertables].
  erewrite run_cons
    by (unfold add_retention_policy, alter_hypertable;
        cbn [extensions relations hypertables];
        rewrite Hts; lookups; reflexivity).
  unfold with_hypertables. cbn [extensions relations hypertables].
  erewrite run_cons by (apply create_table_fresh; side).
  erewrite run_cons by (eapply create_index_fresh; side).
  erewrite run_cons by (eapply create_index_fresh; side).
  erewrite run_cons by (apply create_materialized_view_fresh; side).
  erewrite run_cons by (eapply create_unique_index_fresh; side).
  erewrite run_cons by (apply create_view_fresh; side).
  erewrite run_cons by (apply create_view_fresh; side).
  simpl run. cbn [ht_time_column ht_partitioning_column ht_number_partitions ht_compress
    ht_compression_policy ht_retention_policy default].
  rewrite !insert_insert_eq. reflexivity.
Qed.

Ltac decided := apply (bool_decide_eq_true_1 _); vm_compute; reflexivity.

Ltac unk Hunk :=
  repeat (apply unknown_insert; [discriminate | decided | discriminate |]);
  apply Hunk; decided.

Lemma run_downgrade E r H :
  (forall name, name ∈ migration_names -> unknown r name) ->
  "timescaledb" ∉ E ->
  run downgrade {| extensions := {[ "timescaledb" ]} ∪ E;
                   relations := upgraded_relations r;
                   hypertables := H |}
  = inr {| extensions := E; relations := r; hypertables := ∅ |}.
Proof.
  intros Hunk Hext.
  assert (forall name, bool_decide (name ∈ migration_names) = true -> r !! name = None)
    as Hf by (intros name Hin; apply Hunk; apply bool_decide_eq_true in Hin; exact Hin).
  unfold downgrade, upgraded_relations.
  erewrite run_cons by (apply drop_view_if_exists_insert; unk Hunk).
  erewrite run_cons by (apply drop_view_if_exists_insert; unk Hunk).
  erewrite run_cons
    by (apply drop_materialized_view_if_exists_insert;
        [discriminate | lookups; apply Hf; reflexivity | unk Hunk]).
  erewrite run_cons by (apply drop_index_insert; lookups; apply Hf; reflexivity).
  erewrite run_cons by (apply drop_index_insert; lookups; apply Hf; reflexivity).
  erewrite run_cons by (apply drop_table_insert; unk Hunk).
  erewrite run_cons by (apply drop_index_insert; lookups; apply Hf; reflexivity).
  erewrite run_cons by (apply drop_index_insert; lookups; apply Hf; reflexivity).
  erewrite run_cons by (apply drop_table_insert; unk Hunk).
  erewrite run_cons
    by (apply drop_table_insert_index;
        [discriminate | lookups; apply Hf; reflexivity | unk Hunk]).
  erewrite run_cons by (apply drop_table_insert; unk Hunk).
  erewrite run_cons by (apply drop_table_insert; unk Hunk).
  simpl. unfold drop_extension_if_exists_cascade. simpl.
  rewrite bool_decide_eq_true_2 by set_solver.
  f_equal. f_equal. set_solver.
Qed.

Lemma untouched_record E r H :
  untouched {| extensions := E; relations := r; hypertables := H |} ->
  (forall name, name ∈ migration_names -> r !! name = None)
  /\ (forall name, name ∈ migration_names -> unknown r name)
  /\ ("timescaledb" ∉ E) /\ (H = ∅).
Proof.
  intros Hc. pose proof Hc as (Hfresh & Hext & Hht & _).
  split; [exact Hfresh |]. split; [| split; assumption].
  intros name Hin. apply (untouched_unknown _ name Hc Hin).
Qed.

(** X20. On a schema the migration has not touched (none of its names
    taken, TimescaleDB not installed, no dangling reference), [upgrade] runs
    to the end, leaves every relation that was there as it was, and creates
    its five tables, the indexes and the three views, with [measurements] a
    hypertable on ts_utc with 8 site_id partitions, compression after 7 days
    and retention of 365 days.  [downgrade] then runs to the end as well,
    each table being dropped only after what depends on it, and gives back
    exactly the schema before [upgrade]. *)
Theorem downgrade_undoes_upgrade (c : catalog) :
  untouched c ->
  exists c1,
    run upgrade c = inr c1
    /\ run downgrade c1 = inr c
    /\ relations c ⊆ relations c1
    /\ (forall name, name ∈ migration_names -> is_Some (relations c1 !! name))
    /\ extensions c1 = {[ "timescaledb" ]} ∪ extensions c
    /\ hypertables c1 = {[ "measurements" := measurements_hypertable ]}.
Proof.
  destruct c as [E r H]. intros Hc.
  apply untouched_record in Hc as (Hfresh & Hunk & Hext & ->).
  eexists. split; [apply run_upgrade; assumption |].
  split; [apply run_downgrade; assumption |].
  assert (forall name, bool_decide (name ∈ migration_names) = true -> r !! name = None)
    as Hf by (intros name Hin; apply Hfresh; apply bool_decide_eq_true in Hin; exact Hin).
  simpl. split; [| split; [| split; reflexivity]].
  - unfold upgraded_relations.
    repeat (apply insert_subseteq_r; [apply Hf; reflexivity |]). reflexivity.
  - intros name Hin. unfold upgraded_relations, migration_names in *.
    repeat (apply elem_of_cons in Hin as [-> | Hin];
            [lookups; eauto |]).
    inversion Hin.
Qed.

(** X21. [upgrade] cannot be run twice and [downgrade] needs an upgraded
    schema: on any schema that has a relation named 'sites', [upgrade]
    stops at its first [create_table] with a duplicate-table error; on a
    schema the migration has not touched, [downgrade] passes its three DROP
    ... IF EXISTS statements and stops at the first [drop_index], which has
    no IF EXISTS. *)
Theorem migration_is_not_repeatable (c : catalog) :
  (is_Some (relations c !! "sites") ->
   run upgrade c = inl (DuplicateTable "sites"))
  /\ (untouched c ->
      run downgrade c = inl (UndefinedTable "ix_devstate_last_seen")
      /\ forall c1, run upgrade c = inr c1 ->
           run upgrade c1 = inl (DuplicateTable "sites")).
Proof.
  assert (forall c0, is_Some (relations c0 !! "sites") ->
            run upgrade c0 = inl (DuplicateTable "sites")) as Hdup.
  { intros c0 [k Hk]. unfold upgrade, run, create_extension_if_not_exists,
      create_table. cbn [relations]. rewrite Hk. reflexivity. }
  split; [apply Hdup |].
  intros Hc. destruct c as [E r H].
  pose proof (untouched_record E r H Hc) as (Hfresh & _ & Hext & ->).
  assert (forall name, bool_decide (name ∈ migration_names) = true -> r !! name = None)
    as Hf by (intros name Hin; apply Hfresh; apply bool_decide_eq_true in Hin; exact Hin).
  split.
  - unfold downgrade.
    erewrite run_cons
      by (unfold drop_view_if_exists; cbn [relations];
          rewrite (Hf "v_devices_stale" eq_refl); reflexivity).
    erewrite run_cons
      by (unfold drop_view_if_exists; cbn [relations];
          rewrite (Hf "v_site_latest_window" eq_refl); reflexivity).
    erewrite run_cons
      by (unfold drop_materialized_view_if_exists; cbn [relations];
          rewrite (Hf "v_point_latest" eq_refl); reflexivity).
    unfold run, drop_index. cbn [relations].
    rewrite (Hf "ix_devstate_last_seen" eq_refl). reflexivity.
  - intros c1 Hup. rewrite (run_upgrade E r Hfresh Hext) in Hup.
    inversion Hup; subst c1. apply Hdup. simpl.
    unfold upgraded_relations. lookups. eauto.
Qed.

(** X22. [ensure_tables_present], the guard of the test script, tells the
    two states apart: on a schema the migration has not touched it is
    [False], and after [upgrade] it is [True] exactly when
    [check_connection] is. *)
Theorem ensure_tables_present_after_upgrade (w : world) (c c1 : catalog) :
  untouched c ->
  run upgrade c = inr c1 ->
  ensure_tables_present w c = false
  /\ ensure_tables_present w c1 = check_connection w.
Proof.
  destruct c as [E r H]. intros Hc Hup.
  apply untouched_record in Hc as (Hfresh & _ & Hext & ->).
  rewrite (run_upgrade E r Hfresh Hext) in Hup. inversion Hup; subst c1.
  unfold ensure_tables_present, check_connection. simpl.
  rewrite (Hfresh "device_state") by decided.
  unfold upgraded_relations. lookups.
  destruct (environ_args (w_environ w)) as [e | args]; [split; reflexivity |].
  rewrite andb_false_r, andb_true_r. split; reflexivity.
Qed.

Lemma legacy_catalog_rows n k :
  relations legacy_catalog !! n = Some k ->
  (n = "audit_log" /\ k = Table []) \/ (n = "ix_audit_ts" /\ k = Index "audit_log").
Proof.
  intros Hk. unfold legacy_catalog in Hk. simpl in Hk.
  apply lookup_insert_Some in Hk as [[<- <-] | [_ Hk]]; [auto |].
  apply lookup_singleton_Some in Hk as [<- <-]. auto.
Qed.

Lemma legacy_catalog_untouched : untouched legacy_catalog.
Proof.
  split; [| split; [| split; [reflexivity | split]]].
  - intros name Hin. unfold migration_names in Hin.
    repeat (apply elem_of_cons in Hin as [-> | Hin]; [reflexivity |]).
    inversion Hin.
  - simpl. set_solver.
  - intros n k t Hk Hdep.
    apply legacy_catalog_rows in Hk as [[-> ->] | [-> ->]]; simpl in Hdep.
    + inversion Hdep.
    + destruct Hdep.
  - intros n t Hk.
    apply legacy_catalog_rows in Hk as [[-> Hk] | [-> Hk]]; inversion Hk.
    eexists. reflexivity.
Qed.

Lemma downgrade_undoes_upgrade_witness :
  exists c1,
    run upgrade legacy_catalog = inr c1
    /\ run downgrade c1 = inr legacy_catalog
    /\ relations legacy_catalog ⊆ relations c1
    /\ (forall name, name ∈ migration_names -> is_Some (relations c1 !! name))
    /\ extensions c1 = {[ "timescaledb" ]} ∪ extensions legacy_catalog
    /\ hypertables c1 = {[ "measurements" := measurements_hypertable ]}.
Proof.
  apply (downgrade_undoes_upgrade legacy_catalog legacy_catalog_untouched).
Defined.

Lemma ensure_tables_present_after_upgrade_witness :
  ensure_tables_present (local_world seeded 0) legacy_catalog = false
  /\ ensure_tables_present (local_world seeded 0)
       {| extensions := {[ "timescaledb" ]} ∪ extensions legacy_catalog;
          relations := upgraded_relations (relations legacy_catalog);
          hypertables := {[ "measurements" := measurements_hypertable ]} |}
     = check_connection (local_world seeded 0).
Proof.
  apply (ensure_tables_present_after_upgrade (local_world seeded 0)
           legacy_catalog _ legacy_catalog_untouched).
  vm_compute. reflexivity.
Defined.

(** ** Deleting a site, continued *)

Lemma delete_site_registered s db site :
  sites db !! s = Some site ->
  delete_site s db
  = Some
      {| sites := delete s (sites db);
         devices := filter (fun kv => String.eqb (dev_site_id kv.2) s = false)
                      (devices db);
         points :=
           filter (fun kv =>
                     from_option
                       (deleted_from (devices db)
                          (filter (fun kv => String.eqb (dev_site_id kv.2) s = false)
                             (devices db)))
                       false (pt_device_id kv.2) = false)
             (filter (fun kv => String.eqb (pt_site_id kv.2) s = false) (points db));
         measurements :=
           filter (fun kv =>
                     deleted_from (points db)
                       (filter (fun kv =>
                                  from_option
                                    (deleted_from (devices db)
                                       (filter (fun kv =>
                                                  String.eqb (dev_site_id kv.2) s = false)
                                          (devices db)))
                                    false (pt_device_id kv.2) = false)
                          (filter (fun kv => String.eqb (pt_site_id kv.2) s = false)
                             (points db)))
                       (mk_point_id kv.1) = false)
             (filter (fun kv => String.eqb (mk_site_id kv.1) s = false)
                (measurements db));
         device_state :=
           filter (fun kv => String.eqb (ds_site_id kv.2) s = false)
             (filter (fun kv =>
                        deleted_from (devices db)
                          (filter (fun kv => String.eqb (dev_site_id kv.2) s = false)
                             (devices db)) kv.1 = false)
                (device_state db)) |}.
Proof.
  intros Hsite. unfold delete_site. rewrite Hsite. reflexivity.
Qed.







(** X24. Once a site is deleted, heartbeats of its devices are refused: if
    the committed state is what [DELETE FROM sites] left and a record of the
    event carries both identifiers and names a device that belonged to the
    deleted site, the call answers with the database-error response and
    commits nothing. *)
Theorem heartbeat_after_site_deleted
    (w : world) (ev : event) (args : connect_args) (ds : list heartbeat)
    (d : heartbeat) (device_id s : string) (before : database)
    (site : site_row) (dev : device_row) :
  sites before !! s = Some site ->
  devices before !! device_id = Some dev ->
  dev_site_id dev = s ->
  delete_site s before = Some (w_db w) ->
  read_environ (w_environ w) = inr args ->
  w_accepts w args = true ->
  devices_to_update ev = inr ds ->
  d ∈ ds ->
  well_formed d = true ->
  hb_device_id d = Some device_id ->
  exists e,
    returned (lambda_handler w ev) = database_error e
    /\ committed (lambda_handler w ev) = w_db w.
Proof.
  intros Hsite Hdev Hof Hdel Henv Hacc Hds Hin Hwf Hd.
  rewrite (delete_site_registered s before site Hsite) in Hdel.
  injection Hdel as Hdb.
  assert (devices (w_db w) !! device_id = None) as Hnodev.
  { rewrite <- Hdb. simpl. apply map_lookup_filter_None. right.
    intros row Hrow. rewrite Hdev in Hrow. inversion Hrow; subst row.
    simpl. rewrite Hof, String.eqb_refl. discriminate. }
  assert (device_state (w_db w) !! device_id = None) as Hnorow.
  { rewrite <- Hdb. simpl. apply map_lookup_filter_None.
    destruct (device_state before !! device_id) as [row |] eqn:Hrow.
    - left. apply map_lookup_filter_None. right.
      intros row' _. simpl.
      assert (deleted_from (devices before)
                (filter (fun kv => String.eqb (dev_site_id kv.2) s = false)
                   (devices before)) device_id = true) as ->; [| discriminate].
      apply bool_decide_eq_true. split; [eauto |].
      rewrite <- Hdb in Hnodev. exact Hnodev.
    - left. apply map_lookup_filter_None. left. exact Hrow. }
  rewrite (lambda_handler_connected w ev args ds Henv Hds Hacc).
  destruct (for_device_data_unregistered (w_now w) ds
              {| tx := w_db w; updated := []; cur_log := [] |}
              d device_id Hin Hwf Hd Hnorow Hnodev) as (e & log & ->).
  exists e. split; reflexivity.
Qed.




Lemma heartbeat_after_site_deleted_witness :
  exists e,
    returned (lambda_handler (local_world emptied 3000000) single_event)
    = database_error e
    /\ committed (lambda_handler (local_world emptied 3000000) single_event)
       = emptied.
Proof.
  apply (heartbeat_after_site_deleted (local_world emptied 3000000)
           single_event local_args [single_record] single_record
           "hvac-test-001" "test-building" after_single test_building
           test_device).
  - reflexivity.
  - reflexivity.
  - reflexivity.
  - vm_compute. reflexivity.
  - reflexivity.
  - reflexivity.
  - reflexivity.
  - apply list_elem_of_In. simpl. auto.
  - reflexivity.
  - reflexivity.
Defined.
